(** * CME L2 feed handler: a shallow embedding and its checked properties

    The development follows the C++ sources under [src/cme]:
    - [cme_protocol.h]    wire structures, template ids, price helpers
    - [cme_order_book.cpp] the per-instrument ladders and their manager
    - [recovery_state.cpp] the per-instrument gap/recovery state machine
    - [cme_feedhandler.cpp] packet parsing, dispatch and conflation
    - [l2_sbe_messages.h]  the published snapshot encoder and decoder
    and, for the two ends of the pipeline, the packet builders of
    [src/cme_simulator/cme_simulator.cpp] and the symbol trimming of
    [src/cme_receiver/cme_receiver.cpp].

    Fixed-width integers are [Z] with the wrap-around written where the
    C++ code casts or increments; [std::array] is a list indexed with
    stdpp's lookup and insert; [std::unordered_map] and
    [std::unordered_set] are [gmap] and [gset]. *)

From Stdlib Require Import ZArith Lia String Ascii.
From stdpp Require Import gmap list.

Local Open Scope Z_scope.

(** ** Fixed-width arithmetic *)

Definition u8 (x : Z) : Z := x mod 2 ^ 8.
Definition u16 (x : Z) : Z := x mod 2 ^ 16.
Definition u32 (x : Z) : Z := x mod 2 ^ 32.
Definition u64 (x : Z) : Z := x mod 2 ^ 64.

(** Reinterpretation of an unsigned [w]-bit pattern as two's complement. *)
Definition signed (w : Z) (x : Z) : Z :=
  if x mod 2 ^ w <? 2 ^ (w - 1) then x mod 2 ^ w else x mod 2 ^ w - 2 ^ w.
Definition i32 (x : Z) : Z := signed 32 x.
Definition i64 (x : Z) : Z := signed 64 x.

Definition is_u8 (x : Z) : Prop := 0 <= x < 2 ^ 8.
Definition is_u16 (x : Z) : Prop := 0 <= x < 2 ^ 16.
Definition is_u32 (x : Z) : Prop := 0 <= x < 2 ^ 32.
Definition is_u64 (x : Z) : Prop := 0 <= x < 2 ^ 64.
Definition is_i32 (x : Z) : Prop := - 2 ^ 31 <= x < 2 ^ 31.
Definition is_i64 (x : Z) : Prop := - 2 ^ 63 <= x < 2 ^ 63.

(** C strings are lists of character codes without the terminating NUL. *)
Definition cstr (s : string) : list Z :=
  List.map (fun a => Z.of_nat (nat_of_ascii a)) (list_ascii_of_string s).

(** [strncpy(dst, src, n)]: copy up to the first NUL (or the end of the
    list, where the terminator sits), then pad with NULs up to [n]. *)
Fixpoint strncpy (n : nat) (src : list Z) : list Z :=
  match n with
  | O => []
  | S k =>
      match src with
      | [] => 0 :: strncpy k []
      | c :: r => if c =? 0 then 0 :: strncpy k [] else c :: strncpy k r
      end
  end.

(** The C string at the start of a list of bytes: the bytes before its
    first NUL. *)
Fixpoint c_str (bytes : list Z) : list Z :=
  match bytes with
  | [] => []
  | c :: r => if c =? 0 then [] else c :: c_str r
  end.

(** ** Byte memory, little-endian *)

Module Mem.

(** The [n] low bytes of [v], least significant first; a negative [v]
    yields its two's-complement pattern. *)
Fixpoint le_bytes (n : nat) (v : Z) : list Z :=
  match n with
  | O => []
  | S k => v mod 256 :: le_bytes k (v / 256)
  end.

Fixpoint le_value (bs : list Z) : Z :=
  match bs with
  | [] => 0
  | b :: r => b + 256 * le_value r
  end.

(** Writing the bytes [bs] at offset [off] of a buffer. *)
Definition store (off : nat) (bs : list Z) (mem : list Z) : list Z :=
  take off mem ++ bs ++ drop (off + length bs) mem.

Definition load (off n : nat) (mem : list Z) : list Z := take n (drop off mem).

Definition load_u (off n : nat) (mem : list Z) : Z := le_value (load off n mem).

Definition load_i (off n : nat) (mem : list Z) : Z :=
  signed (8 * Z.of_nat n) (load_u off n mem).

End Mem.

(** ** cme_protocol.h *)

Module Protocol.

Definition TEMPLATE_CHANNEL_RESET : Z := 4.
Definition TEMPLATE_HEARTBEAT : Z := 12.
Definition TEMPLATE_SECURITY_DEFINITION : Z := 27.
Definition TEMPLATE_MD_INCREMENTAL_REFRESH : Z := 32.
Definition TEMPLATE_MD_SNAPSHOT_FULL_REFRESH : Z := 38.

(** [enum class MDEntryType : uint8_t]; ['E'] is 69 and ['F'] is 70. *)
Definition Bid : Z := 0.
Definition Offer : Z := 1.
Definition Trade : Z := 2.
Definition ImpliedBid : Z := 69.
Definition ImpliedOffer : Z := 70.

(** [enum class MDUpdateAction : uint8_t]. *)
Definition New : Z := 0.
Definition Change : Z := 1.
Definition Delete : Z := 2.
Definition DeleteThru : Z := 3.
Definition DeleteFrom : Z := 4.
Definition Overlay : Z := 5.

Definition SECURITY_ID_ESH26 : Z := 1001.
Definition SECURITY_ID_NQM26 : Z := 1002.
Definition SECURITY_ID_CLK26 : Z := 1003.
Definition SECURITY_ID_GCZ26 : Z := 1004.

Definition getSymbolName (security_id : Z) : list Z :=
  if security_id =? SECURITY_ID_ESH26 then cstr "ESH26"
  else if security_id =? SECURITY_ID_NQM26 then cstr "NQM26"
  else if security_id =? SECURITY_ID_CLK26 then cstr "CLK26"
  else if security_id =? SECURITY_ID_GCZ26 then cstr "GCZ26"
  else cstr "UNKNOWN".

(** [strncmp(s, t, n) == 0] on C strings: the end of a list is its
    terminating NUL. *)
Fixpoint strncmp_eq (n : nat) (s t : list Z) : bool :=
  match n with
  | O => true
  | S k =>
      if hd 0 s =? hd 0 t then
        if hd 0 s =? 0 then true else strncmp_eq k (tl s) (tl t)
      else false
  end.

Definition getSecurityIdFromSymbol (symbol : list Z) : Z :=
  if strncmp_eq 5 symbol (cstr "ESH26") then SECURITY_ID_ESH26
  else if strncmp_eq 5 symbol (cstr "NQM26") then SECURITY_ID_NQM26
  else if strncmp_eq 5 symbol (cstr "CLK26") then SECURITY_ID_CLK26
  else if strncmp_eq 5 symbol (cstr "GCZ26") then SECURITY_ID_GCZ26
  else 0.

(** Packed structure sizes ([#pragma pack(push, 1)]). *)
Definition sizeof_PacketHeader : Z := 4 + 8.
Definition sizeof_SBEMessageHeader : Z := 2 + 2 + 2 + 2.
Definition sizeof_GroupHeader : Z := 2 + 1.
Definition sizeof_SecurityDefinition : Z :=
  sizeof_SBEMessageHeader + 4 + 20 + 8 + 4 + 1.
Definition sizeof_MDIncrementalRefreshEntry : Z := 8 + 4 + 4 + 4 + 1 + 1 + 1 + 1.
Definition sizeof_MDIncrementalRefreshBook : Z :=
  sizeof_SBEMessageHeader + 8 + sizeof_GroupHeader.
Definition sizeof_MDSnapshotEntry : Z := 8 + 4 + 1 + 1 + 1 + 1.
Definition sizeof_MDSnapshotFullRefresh : Z :=
  sizeof_SBEMessageHeader + 4 + 4 + 4 + 8 + sizeof_GroupHeader.
Definition sizeof_ChannelReset : Z := sizeof_SBEMessageHeader + 8.
Definition sizeof_Heartbeat : Z := sizeof_SBEMessageHeader + 8.

Record MDIncrementalRefreshEntry := mkIncr {
  md_entry_px : Z;        (* int64_t *)
  md_entry_size : Z;      (* int32_t *)
  security_id : Z;        (* uint32_t *)
  rpt_seq : Z;            (* uint32_t *)
  md_entry_type : Z;      (* uint8_t *)
  md_update_action : Z;   (* uint8_t *)
  md_price_level : Z;     (* uint8_t *)
  number_of_orders : Z    (* uint8_t *)
}.

Record MDSnapshotEntry := mkSnap {
  snap_md_entry_px : Z;       (* int64_t *)
  snap_md_entry_size : Z;     (* int32_t *)
  snap_md_entry_type : Z;     (* uint8_t *)
  snap_md_price_level : Z;    (* uint8_t *)
  snap_number_of_orders : Z   (* uint8_t *)
}.

(** Values of the wire types the entries are read from. *)
Definition wf_incr (e : MDIncrementalRefreshEntry) : Prop :=
  is_i64 (md_entry_px e) /\ is_i32 (md_entry_size e) /\
  is_u32 (security_id e) /\ is_u32 (rpt_seq e) /\
  is_u8 (md_entry_type e) /\ is_u8 (md_update_action e) /\
  is_u8 (md_price_level e) /\ is_u8 (number_of_orders e).

Definition wf_snap (e : MDSnapshotEntry) : Prop :=
  is_i64 (snap_md_entry_px e) /\ is_i32 (snap_md_entry_size e) /\
  is_u8 (snap_md_entry_type e) /\ is_u8 (snap_md_price_level e) /\
  is_u8 (snap_number_of_orders e).

(** [static_cast<uint32_t>(cme_price / 1000)]: C++ division truncates
    toward zero ([Z.quot]); the cast reduces modulo 2^32. *)
Definition cmeToFixedPrice (cme_price : Z) : Z := u32 (Z.quot cme_price 1000).

Definition fixedToCmePrice (fixed_price : Z) : Z := i64 (fixed_price * 1000).

Definition calcIncrementalSize (num_entries : Z) : Z :=
  sizeof_MDIncrementalRefreshBook + num_entries * sizeof_MDIncrementalRefreshEntry.

Definition calcSnapshotSize (num_entries : Z) : Z :=
  sizeof_MDSnapshotFullRefresh + num_entries * sizeof_MDSnapshotEntry.

End Protocol.

(** ** market_data.h: the common output snapshot *)

Module MarketData.

Definition MAX_DEPTH : Z := 10.

Record PriceLevel := mkPriceLevel {
  pl_price : Z;         (* uint32_t, 4 implied decimals *)
  pl_quantity : Z;      (* uint32_t *)
  pl_order_count : Z    (* uint32_t *)
}.

Record BookSide := mkBookSide {
  levels : list PriceLevel;   (* std::array<PriceLevel, MAX_DEPTH> *)
  count : Z                   (* uint8_t *)
}.

Record OrderBookSnapshot := mkOrderBookSnapshot {
  symbol : list Z;       (* char[8] *)
  timestamp : Z;         (* uint64_t *)
  sequence : Z;          (* uint64_t *)
  bids : BookSide;
  asks : BookSide;
  last_price : Z;        (* uint32_t *)
  last_quantity : Z;     (* uint32_t *)
  total_volume : Z       (* uint64_t *)
}.

Record FeedStats := mkFeedStats {
  messages_received : Z;
  messages_sent : Z;
  bytes_received : Z;
  bytes_sent : Z;
  add_orders : Z;
  delete_orders : Z;
  executions : Z;
  trades : Z;
  errors : Z
}.

Definition FeedStats_init : FeedStats := mkFeedStats 0 0 0 0 0 0 0 0 0.

End MarketData.

(** ** cme_order_book.cpp: one instrument's ladders *)

Module OrderBook.
Import Protocol.

Record CmePriceLevel := mkLevel {
  price : Z;          (* int64_t, mantissa with exponent -7 *)
  quantity : Z;       (* int32_t *)
  order_count : Z     (* uint8_t *)
}.

(** The default constructor [CmePriceLevel()]. *)
Definition level0 : CmePriceLevel := mkLevel 0 0 0.

Definition CME_MAX_DEPTH : Z := 10.

Record CmeOrderBook := mkBook {
  security_id_ : Z;            (* uint32_t *)
  last_rpt_seq_ : Z;           (* uint32_t *)
  bids_ : list CmePriceLevel;  (* std::array<CmePriceLevel, 10> *)
  asks_ : list CmePriceLevel;
  bid_count_ : Z;              (* uint8_t *)
  ask_count_ : Z;
  last_trade_price_ : Z;       (* int64_t *)
  last_trade_qty_ : Z;         (* int32_t *)
  total_volume_ : Z            (* uint64_t *)
}.

(** [a[dst] = a[src]] on a fixed array. *)
Definition copy_slot (dst src : nat) (a : list CmePriceLevel) : list CmePriceLevel :=
  <[dst := default level0 (a !! src)]> a.

(** [for (auto& level : a) level = CmePriceLevel();] *)
Definition zero_all (a : list CmePriceLevel) : list CmePriceLevel :=
  List.map (fun _ => level0) a.

(** [for (i = CME_MAX_DEPTH - 1; i > idx; --i) a[i] = a[i - 1];] *)
Definition shift_down (idx : nat) (a : list CmePriceLevel) : list CmePriceLevel :=
  foldl (fun acc i => copy_slot i (i - 1) acc) a (reverse (seq (S idx) (9 - idx))).

(** [for (i = idx; i < CME_MAX_DEPTH - 1; ++i) a[i] = a[i + 1];] *)
Definition shift_up (idx : nat) (a : list CmePriceLevel) : list CmePriceLevel :=
  foldl (fun acc i => copy_slot i (i + 1) acc) a (seq idx (9 - idx)).

(** [for (i = lo; i < lo + n; ++i) a[i] = CmePriceLevel();] *)
Definition zero_range (lo n : nat) (a : list CmePriceLevel) : list CmePriceLevel :=
  foldl (fun acc i => <[i := level0]> acc) a (seq lo n).

(** One side of [applyBid] / [applyAsk]: the two functions are the same
    text on [bids_]/[bid_count_] and on [asks_]/[ask_count_]. *)
Definition applySide (level action px qty orders : Z)
    (side : list CmePriceLevel * Z) : list CmePriceLevel * Z :=
  let '(a, cnt) := side in
  if (level =? 0) || (CME_MAX_DEPTH <? level) then (a, cnt)
  else
    let idx := Z.to_nat (level - 1) in
    if action =? New then
      (<[idx := mkLevel px qty orders]> (shift_down idx a),
       if cnt <? CME_MAX_DEPTH then u8 (cnt + 1) else cnt)
    else if action =? Change then
      (<[idx := mkLevel px qty orders]> a, cnt)
    else if action =? Delete then
      (<[9%nat := level0]> (shift_up idx a),
       if 0 <? cnt then u8 (cnt - 1) else cnt)
    else if action =? DeleteThru then
      (* i <= idx && i < CME_MAX_DEPTH *)
      (zero_range 0 (Nat.min (S idx) 10) a, 0)
    else if action =? DeleteFrom then
      (zero_range idx (10 - idx) a, u8 (Z.of_nat idx))
    else if action =? Overlay then
      (<[idx := mkLevel px qty orders]> a,
       if cnt <? Z.of_nat idx + 1 then u8 (Z.of_nat idx + 1) else cnt)
    else (a, cnt).

Definition applyBid (level action px qty orders : Z) (b : CmeOrderBook) : CmeOrderBook :=
  let '(a, cnt) := applySide level action px qty orders (bids_ b, bid_count_ b) in
  mkBook (security_id_ b) (last_rpt_seq_ b) a (asks_ b) cnt (ask_count_ b)
         (last_trade_price_ b) (last_trade_qty_ b) (total_volume_ b).

Definition applyAsk (level action px qty orders : Z) (b : CmeOrderBook) : CmeOrderBook :=
  let '(a, cnt) := applySide level action px qty orders (asks_ b, ask_count_ b) in
  mkBook (security_id_ b) (last_rpt_seq_ b) (bids_ b) a (bid_count_ b) cnt
         (last_trade_price_ b) (last_trade_qty_ b) (total_volume_ b).

(** [total_volume_ += static_cast<uint64_t>(quantity)] *)
Definition recordTrade (px qty : Z) (b : CmeOrderBook) : CmeOrderBook :=
  mkBook (security_id_ b) (last_rpt_seq_ b) (bids_ b) (asks_ b)
         (bid_count_ b) (ask_count_ b)
         px qty (u64 (total_volume_ b + u64 qty)).

Definition setLastRptSeq (seq : Z) (b : CmeOrderBook) : CmeOrderBook :=
  mkBook (security_id_ b) seq (bids_ b) (asks_ b) (bid_count_ b) (ask_count_ b)
         (last_trade_price_ b) (last_trade_qty_ b) (total_volume_ b).

Definition clear (b : CmeOrderBook) : CmeOrderBook :=
  mkBook (security_id_ b) (last_rpt_seq_ b) (zero_all (bids_ b)) (zero_all (asks_ b))
         0 0 (last_trade_price_ b) (last_trade_qty_ b) (total_volume_ b).

(** The constructor: member initialisers, then [clear()]. *)
Definition new_book (security_id : Z) : CmeOrderBook :=
  clear (mkBook security_id 0 (replicate 10 level0) (replicate 10 level0) 0 0 0 0 0).

Definition applyUpdate (entry : MDIncrementalRefreshEntry) (b : CmeOrderBook) : CmeOrderBook :=
  let action := md_update_action entry in
  let type := md_entry_type entry in
  let b1 :=
    if (type =? Bid) || (type =? ImpliedBid) then
      applyBid (md_price_level entry) action (md_entry_px entry)
               (md_entry_size entry) (number_of_orders entry) b
    else if (type =? Offer) || (type =? ImpliedOffer) then
      applyAsk (md_price_level entry) action (md_entry_px entry)
               (md_entry_size entry) (number_of_orders entry) b
    else if type =? Trade then
      recordTrade (md_entry_px entry) (md_entry_size entry) b
    else b in
  if last_rpt_seq_ b1 <? rpt_seq entry then setLastRptSeq (rpt_seq entry) b1 else b1.

(** The body of the loop of [applySnapshot] for one entry. *)
Definition applySnapshotEntry (b : CmeOrderBook) (entry : MDSnapshotEntry) : CmeOrderBook :=
  let type := snap_md_entry_type entry in
  let level := snap_md_price_level entry in
  if (level =? 0) || (CME_MAX_DEPTH <? level) then b
  else
    let idx := Z.to_nat (level - 1) in
    let lv := mkLevel (snap_md_entry_px entry) (snap_md_entry_size entry)
                      (snap_number_of_orders entry) in
    if type =? Bid then
      mkBook (security_id_ b) (last_rpt_seq_ b) (<[idx := lv]> (bids_ b)) (asks_ b)
             (if bid_count_ b <? Z.of_nat idx + 1 then u8 (Z.of_nat idx + 1) else bid_count_ b)
             (ask_count_ b)
             (last_trade_price_ b) (last_trade_qty_ b) (total_volume_ b)
    else if type =? Offer then
      mkBook (security_id_ b) (last_rpt_seq_ b) (bids_ b) (<[idx := lv]> (asks_ b))
             (bid_count_ b)
             (if ask_count_ b <? Z.of_nat idx + 1 then u8 (Z.of_nat idx + 1) else ask_count_ b)
             (last_trade_price_ b) (last_trade_qty_ b) (total_volume_ b)
    else b.

(** [applySnapshot(entries, count)]: [entries] is the array the pointer
    designates, of which the first [count] elements are visited. *)
Definition applySnapshot (entries : list MDSnapshotEntry) (count : Z)
    (b : CmeOrderBook) : CmeOrderBook :=
  foldl applySnapshotEntry (clear b) (take (Z.to_nat count) entries).

(** [getSnapshot]'s conversion of one stored level. *)
Definition convert_level (l : CmePriceLevel) : MarketData.PriceLevel :=
  MarketData.mkPriceLevel (cmeToFixedPrice (price l)) (u32 (quantity l)) (order_count l).

Definition level_out0 : MarketData.PriceLevel := MarketData.mkPriceLevel 0 0 0.

(** [snap.side.count = min(count_, MAX_DEPTH); for (i < count) levels[i] = ...]
    on the zero-initialised [snap]. *)
Definition convert_side (a : list CmePriceLevel) (cnt : Z) : MarketData.BookSide :=
  let n := Z.min cnt MarketData.MAX_DEPTH in
  MarketData.mkBookSide
    (foldl (fun acc i => <[i := convert_level (default level0 (a !! i))]> acc)
           (replicate 10 level_out0) (seq 0 (Z.to_nat n)))
    n.

Definition getSymbol (b : CmeOrderBook) : list Z := getSymbolName (security_id_ b).

(** [timestamp] stays zero here; the caller overwrites it and [sequence]. *)
Definition getSnapshot (b : CmeOrderBook) : MarketData.OrderBookSnapshot :=
  MarketData.mkOrderBookSnapshot
    (strncpy 7 (getSymbol b) ++ [0])
    0
    (last_rpt_seq_ b)
    (convert_side (bids_ b) (bid_count_ b))
    (convert_side (asks_ b) (ask_count_ b))
    (cmeToFixedPrice (last_trade_price_ b))
    (u32 (last_trade_qty_ b))
    (total_volume_ b).

End OrderBook.

(** ** recovery_state.cpp: the per-instrument recovery state machine *)

Module Recovery.

Inductive RecoveryState := Normal | GapDetected | Recovering.

#[global] Instance RecoveryState_eq_dec : EqDecision RecoveryState.
Proof. solve_decision. Defined.

Record SecurityRecoveryState := mkSRS {
  state : RecoveryState;
  expected_rpt_seq : Z;        (* uint32_t *)
  last_good_rpt_seq : Z;       (* uint32_t *)
  snapshot_rpt_seq : Z;        (* uint32_t *)
  gap_detected_time : Z;       (* uint64_t *)
  recovery_attempts : Z;       (* uint32_t *)
  buffered_updates : list (Z * list Z)
}.

(** The in-class member initialisers: what [states_[id]] creates. *)
Definition SRS_default : SecurityRecoveryState := mkSRS Normal 1 0 0 0 0 [].

Record Stats := mkStats {
  gaps_detected : Z;           (* uint64_t *)
  recoveries_completed : Z;
  messages_dropped : Z;
  messages_buffered : Z
}.

Record RecoveryManager := mkRM {
  states_ : gmap Z SecurityRecoveryState;
  stats_ : Stats
}.

Definition RecoveryManager_init : RecoveryManager := mkRM ∅ (mkStats 0 0 0 0).

Definition drop_one (s : Stats) : Stats :=
  mkStats (gaps_detected s) (recoveries_completed s)
          (u64 (messages_dropped s + 1)) (messages_buffered s).

Definition gap_one (s : Stats) : Stats :=
  mkStats (u64 (gaps_detected s + 1)) (recoveries_completed s)
          (messages_dropped s) (messages_buffered s).

Definition recovered_one (s : Stats) : Stats :=
  mkStats (gaps_detected s) (u64 (recoveries_completed s + 1))
          (messages_dropped s) (messages_buffered s).

(** [initSecurity]: [states_[security_id]] default-constructs a missing
    record, then three fields are assigned. *)
Definition initSecurity (security_id initial_seq : Z) (rm : RecoveryManager)
    : RecoveryManager :=
  let st := default SRS_default (states_ rm !! security_id) in
  mkRM (<[security_id :=
            mkSRS Normal initial_seq
                  (if 0 <? initial_seq then u32 (initial_seq - 1) else 0)
                  (snapshot_rpt_seq st) (gap_detected_time st)
                  (recovery_attempts st) (buffered_updates st)]> (states_ rm))
       (stats_ rm).

Definition onIncrementalMessage (security_id rpt_seq : Z) (rm : RecoveryManager)
    : bool * RecoveryManager :=
  match states_ rm !! security_id with
  | None => (true, initSecurity security_id (u32 (rpt_seq + 1)) rm)
  | Some st =>
      match state st with
      | Normal =>
          if (last_good_rpt_seq st <=? rpt_seq) && (rpt_seq <=? expected_rpt_seq st) then
            if last_good_rpt_seq st <? rpt_seq then
              (true,
               mkRM (<[security_id :=
                         mkSRS Normal (u32 (rpt_seq + 1)) rpt_seq
                               (snapshot_rpt_seq st) (gap_detected_time st)
                               (recovery_attempts st) (buffered_updates st)]> (states_ rm))
                    (stats_ rm))
            else (true, rm)
          else if rpt_seq <? last_good_rpt_seq st then
            (false, mkRM (states_ rm) (drop_one (stats_ rm)))
          else
            (false,
             mkRM (<[security_id :=
                       mkSRS GapDetected (expected_rpt_seq st) (last_good_rpt_seq st)
                             (snapshot_rpt_seq st) 0
                             (u32 (recovery_attempts st + 1)) (buffered_updates st)]>
                     (states_ rm))
                  (gap_one (stats_ rm)))
      | GapDetected | Recovering =>
          (false, mkRM (states_ rm) (drop_one (stats_ rm)))
      end
  end.

Definition onSnapshotMessage (security_id snap_rpt_seq last_incr_seq : Z)
    (rm : RecoveryManager) : bool * RecoveryManager :=
  match states_ rm !! security_id with
  | None => (true, initSecurity security_id (u32 (snap_rpt_seq + 1)) rm)
  | Some st =>
      match state st with
      | Normal =>
          (* both branches of the freshness test return false *)
          if last_good_rpt_seq st <=? snap_rpt_seq then (false, rm) else (false, rm)
      | GapDetected =>
          (true,
           mkRM (<[security_id :=
                     mkSRS Recovering (expected_rpt_seq st) (last_good_rpt_seq st)
                           snap_rpt_seq (gap_detected_time st)
                           (recovery_attempts st) (buffered_updates st)]> (states_ rm))
                (stats_ rm))
      | Recovering =>
          if snapshot_rpt_seq st <? snap_rpt_seq then
            (true,
             mkRM (<[security_id :=
                       mkSRS Recovering (expected_rpt_seq st) (last_good_rpt_seq st)
                             snap_rpt_seq (gap_detected_time st)
                             (recovery_attempts st) (buffered_updates st)]> (states_ rm))
                  (stats_ rm))
          else (false, rm)
      end
  end.

Definition completeRecovery (security_id rpt_seq : Z) (rm : RecoveryManager)
    : RecoveryManager :=
  match states_ rm !! security_id with
  | None => rm
  | Some st =>
      mkRM (<[security_id :=
                mkSRS Normal (u32 (rpt_seq + 1)) rpt_seq
                      (snapshot_rpt_seq st) (gap_detected_time st)
                      (recovery_attempts st) []]> (states_ rm))
           (recovered_one (stats_ rm))
  end.

Definition resetExpectedSeq (security_id seq : Z) (rm : RecoveryManager)
    : RecoveryManager :=
  let st := default SRS_default (states_ rm !! security_id) in
  mkRM (<[security_id :=
            mkSRS Normal seq (if 0 <? seq then u32 (seq - 1) else 0)
                  (snapshot_rpt_seq st) (gap_detected_time st)
                  (recovery_attempts st) []]> (states_ rm))
       (stats_ rm).

Definition needsRecovery (rm : RecoveryManager) : bool :=
  bool_decide (Exists (fun p => state (snd p) <> Normal) (map_to_list (states_ rm))).

(** The ids of the records not in Normal, in the map's iteration order. *)
Definition getRecoveringSecurities (rm : RecoveryManager) : list Z :=
  (List.filter (fun p => negb (bool_decide (state (snd p) = Normal)))
               (map_to_list (states_ rm))).*1.

Definition getState (security_id : Z) (rm : RecoveryManager) : RecoveryState :=
  match states_ rm !! security_id with
  | None => Normal
  | Some st => state st
  end.

Definition getExpectedRptSeq (security_id : Z) (rm : RecoveryManager) : Z :=
  match states_ rm !! security_id with
  | None => 1
  | Some st => expected_rpt_seq st
  end.

(** The body of the loop of [checkTimeouts] on one record: whether the
    record is reported as timed out, and the record afterwards.
    [current_time - gap_detected_time] is a 64-bit unsigned difference. *)
Definition timed_out (current_time timeout_ns : Z) (st : SecurityRecoveryState) : bool :=
  negb (bool_decide (state st = Normal))
  && negb (gap_detected_time st =? 0)
  && (timeout_ns <? u64 (current_time - gap_detected_time st)).

Definition sweep (current_time timeout_ns : Z) (st : SecurityRecoveryState)
    : SecurityRecoveryState :=
  match state st with
  | Normal => st
  | GapDetected | Recovering =>
      if gap_detected_time st =? 0 then
        mkSRS (state st) (expected_rpt_seq st) (last_good_rpt_seq st) (snapshot_rpt_seq st)
              current_time (recovery_attempts st) (buffered_updates st)
      else if timeout_ns <? u64 (current_time - gap_detected_time st) then
        mkSRS (state st) (expected_rpt_seq st) (last_good_rpt_seq st) (snapshot_rpt_seq st)
              current_time (u32 (recovery_attempts st + 1)) (buffered_updates st)
      else st
  end.

(** [checkTimeouts(current_time, timeout_ns)]: the ids reported, in the
    map's iteration order, and the manager after the sweep. *)
Definition checkTimeouts (current_time timeout_ns : Z) (rm : RecoveryManager)
    : list Z * RecoveryManager :=
  ((List.filter (fun p => timed_out current_time timeout_ns (snd p))
                (map_to_list (states_ rm))).*1,
   mkRM (sweep current_time timeout_ns <$> states_ rm) (stats_ rm)).

End Recovery.

(** ** l2_sbe_messages.h: the published snapshot message *)

Module L2md.
Import Mem.

Definition SCHEMA_ID : Z := 1.
Definition SCHEMA_VERSION : Z := 1.
Definition TEMPLATE_HEARTBEAT : Z := 1.
Definition TEMPLATE_L2_SNAPSHOT : Z := 2.
Definition MAX_LEVELS : Z := 10.

(** Sizes fixed by the [static_assert]s of the header. Memory offsets and
    sizes ([size_t]) are [nat]: nothing here comes near its range. *)
Definition sizeof_MessageHeader : nat := 8.
Definition sizeof_GroupHeader : nat := 3.
Definition sizeof_PriceLevelEntry : nat := 15.
Definition sizeof_L2SnapshotRoot : nat := 46.

Record PriceLevelEntry := mkEntry {
  level : Z;        (* uint8_t *)
  price : Z;        (* int64_t, 7 implied decimals *)
  quantity : Z;     (* uint32_t *)
  numOrders : Z     (* uint16_t *)
}.

Definition wf_entry (e : PriceLevelEntry) : Prop :=
  is_u8 (level e) /\ is_i64 (price e) /\ is_u32 (quantity e) /\ is_u16 (numOrders e).

Definition calcL2SnapshotSize (numBids numAsks : Z) : nat :=
  sizeof_MessageHeader + sizeof_L2SnapshotRoot +
  sizeof_GroupHeader + Z.to_nat numBids * sizeof_PriceLevelEntry +
  sizeof_GroupHeader + Z.to_nat numAsks * sizeof_PriceLevelEntry.

Definition MAX_L2_SNAPSHOT_SIZE : nat := calcL2SnapshotSize MAX_LEVELS MAX_LEVELS.

(** The packed images of the structures, fields in declaration order. *)
Definition header_bytes (blockLength templateId schemaId version : Z) : list Z :=
  le_bytes 2 blockLength ++ le_bytes 2 templateId ++ le_bytes 2 schemaId ++ le_bytes 2 version.

Definition group_bytes (blockLength numInGroup : Z) : list Z :=
  le_bytes 2 blockLength ++ le_bytes 1 numInGroup.

Definition entry_bytes (e : PriceLevelEntry) : list Z :=
  le_bytes 1 (level e) ++ le_bytes 8 (price e) ++ le_bytes 4 (quantity e) ++
  le_bytes 2 (numOrders e).

(** [memset(root->symbol, 0, 8); strncpy(root->symbol, symbol, 8)] leaves
    what [strncpy] alone writes, since it pads to the full width. *)
Definition root_bytes (symbol : list Z)
    (timestamp sequenceNumber lastTradePrice lastTradeQty totalVolume bidCount askCount : Z)
    : list Z :=
  strncpy 8 symbol ++ le_bytes 8 timestamp ++ le_bytes 8 sequenceNumber ++
  le_bytes 8 lastTradePrice ++ le_bytes 4 lastTradeQty ++ le_bytes 8 totalVolume ++
  le_bytes 1 bidCount ++ le_bytes 1 askCount.

(** *** Encoder *)

Record L2SnapshotEncoder := mkEncoder {
  buffer_ : list Z;
  bufferSize_ : nat;
  offset_ : nat
}.

Definition new_encoder (buffer : list Z) (bufferSize : nat) : L2SnapshotEncoder :=
  mkEncoder buffer bufferSize 0.

(** [for (i < n) { *entry = entries[i]; offset_ += sizeof(PriceLevelEntry); }] *)
Definition write_entries (entries : list PriceLevelEntry) (n : Z)
    (st : list Z * nat) : list Z * nat :=
  foldl (fun acc e =>
           (store (snd acc) (entry_bytes e) (fst acc), (snd acc + sizeof_PriceLevelEntry)%nat))
        st (take (Z.to_nat n) entries).

Definition encode (symbol : list Z)
    (timestamp sequenceNumber lastTradePrice lastTradeQty totalVolume bidCount askCount : Z)
    (bids : list PriceLevelEntry) (numBids : Z)
    (asks : list PriceLevelEntry) (numAsks : Z)
    (enc : L2SnapshotEncoder) : bool * L2SnapshotEncoder :=
  let requiredSize := calcL2SnapshotSize numBids numAsks in
  if (bufferSize_ enc <? requiredSize)%nat then (false, enc)
  else
    let m := store 0 (header_bytes (Z.of_nat sizeof_L2SnapshotRoot) TEMPLATE_L2_SNAPSHOT
                                   SCHEMA_ID SCHEMA_VERSION) (buffer_ enc) in
    let off := sizeof_MessageHeader in
    let m := store off (root_bytes symbol timestamp sequenceNumber lastTradePrice
                                   lastTradeQty totalVolume bidCount askCount) m in
    let off := (off + sizeof_L2SnapshotRoot)%nat in
    let m := store off (group_bytes (Z.of_nat sizeof_PriceLevelEntry) numBids) m in
    let off := (off + sizeof_GroupHeader)%nat in
    let '(m, off) := write_entries bids numBids (m, off) in
    let m := store off (group_bytes (Z.of_nat sizeof_PriceLevelEntry) numAsks) m in
    let off := (off + sizeof_GroupHeader)%nat in
    let '(m, off) := write_entries asks numAsks (m, off) in
    (true, mkEncoder m (bufferSize_ enc) off).

Definition encodedLength (enc : L2SnapshotEncoder) : nat := offset_ enc.

(** *** Decoder *)

(** The pointers kept by the decoder are offsets into its buffer;
    [None] is [nullptr]. *)
Record L2SnapshotDecoder := mkDecoder {
  d_buffer_ : list Z;
  length_ : nat;
  root_ : option nat;
  bidsHeader_ : option nat;
  bids_ : option nat;
  asksHeader_ : option nat;
  asks_ : option nat
}.

Definition numInGroup_at (buffer : list Z) (hdr : nat) : nat :=
  Z.to_nat (load_u (hdr + 2) 1 buffer).

Definition parse (buffer : list Z) (length : nat) : L2SnapshotDecoder :=
  if (length <? sizeof_MessageHeader + sizeof_L2SnapshotRoot)%nat then
    mkDecoder buffer length None None None None None
  else
    let root := sizeof_MessageHeader in
    let offset := (root + sizeof_L2SnapshotRoot)%nat in
    if (length <? offset + sizeof_GroupHeader)%nat then
      mkDecoder buffer length (Some root) None None None None
    else
      let bh := offset in
      let offset := (offset + sizeof_GroupHeader)%nat in
      if (length <? offset + numInGroup_at buffer bh * sizeof_PriceLevelEntry)%nat then
        mkDecoder buffer length (Some root) (Some bh) None None None
      else
        let bids := offset in
        let offset := (offset + numInGroup_at buffer bh * sizeof_PriceLevelEntry)%nat in
        if (length <? offset + sizeof_GroupHeader)%nat then
          mkDecoder buffer length (Some root) (Some bh) (Some bids) None None
        else
          let ah := offset in
          let offset := (offset + sizeof_GroupHeader)%nat in
          if (length <? offset + numInGroup_at buffer ah * sizeof_PriceLevelEntry)%nat then
            mkDecoder buffer length (Some root) (Some bh) (Some bids) (Some ah) None
          else
            mkDecoder buffer length (Some root) (Some bh) (Some bids) (Some ah) (Some offset).

(** [L2SnapshotDecoder(buffer, length)]: the constructor runs [parse]. *)
Definition new_decoder (buffer : list Z) (length : nat) : L2SnapshotDecoder :=
  parse buffer length.

Definition templateId (d : L2SnapshotDecoder) : Z := load_u 2 2 (d_buffer_ d).

Definition isValid (d : L2SnapshotDecoder) : bool :=
  (negb (length_ d <? sizeof_MessageHeader)%nat && (load_u 4 2 (d_buffer_ d) =? SCHEMA_ID))
  && (templateId d =? TEMPLATE_L2_SNAPSHOT)
  && bool_decide (is_Some (root_ d)).

(** Root accessors dereference [root_]; they are [None] on a null root. *)
Definition symbolRaw (d : L2SnapshotDecoder) : option (list Z) :=
  r ← root_ d; Some (load r 8 (d_buffer_ d)).
Definition timestamp (d : L2SnapshotDecoder) : option Z :=
  r ← root_ d; Some (load_u (r + 8) 8 (d_buffer_ d)).
Definition sequenceNumber (d : L2SnapshotDecoder) : option Z :=
  r ← root_ d; Some (load_u (r + 16) 8 (d_buffer_ d)).
Definition lastTradePrice (d : L2SnapshotDecoder) : option Z :=
  r ← root_ d; Some (load_i (r + 24) 8 (d_buffer_ d)).
Definition lastTradeQty (d : L2SnapshotDecoder) : option Z :=
  r ← root_ d; Some (load_u (r + 32) 4 (d_buffer_ d)).
Definition totalVolume (d : L2SnapshotDecoder) : option Z :=
  r ← root_ d; Some (load_u (r + 36) 8 (d_buffer_ d)).
Definition bidCount (d : L2SnapshotDecoder) : option Z :=
  r ← root_ d; Some (load_u (r + 44) 1 (d_buffer_ d)).
Definition askCount (d : L2SnapshotDecoder) : option Z :=
  r ← root_ d; Some (load_u (r + 45) 1 (d_buffer_ d)).

Definition read_entry (buffer : list Z) (off : nat) : PriceLevelEntry :=
  mkEntry (load_u off 1 buffer) (load_i (off + 1) 8 buffer)
          (load_u (off + 9) 4 buffer) (load_u (off + 13) 2 buffer).

Definition numBids (d : L2SnapshotDecoder) : Z :=
  match bidsHeader_ d with
  | Some h => load_u (h + 2) 1 (d_buffer_ d)
  | None => 0
  end.

Definition numAsks (d : L2SnapshotDecoder) : Z :=
  match asksHeader_ d with
  | Some h => load_u (h + 2) 1 (d_buffer_ d)
  | None => 0
  end.

(** [getBid(index)]: [nullptr] when [index >= numBids()], else
    [&bids_[index]], here the entry read through that pointer. *)
Definition getBid (index : Z) (d : L2SnapshotDecoder) : option PriceLevelEntry :=
  if numBids d <=? index then None
  else b ← bids_ d;
       Some (read_entry (d_buffer_ d) (b + Z.to_nat index * sizeof_PriceLevelEntry)).

Definition getAsk (index : Z) (d : L2SnapshotDecoder) : option PriceLevelEntry :=
  if numAsks d <=? index then None
  else a ← asks_ d;
       Some (read_entry (d_buffer_ d) (a + Z.to_nat index * sizeof_PriceLevelEntry)).

(** *** Heartbeat *)

Definition sizeof_HeartbeatRoot : nat := 16.
Definition HEARTBEAT_SIZE : nat := sizeof_MessageHeader + sizeof_HeartbeatRoot.

(** [HeartbeatEncoder(buffer, bufferSize).encode(timestamp, sequenceNumber)]:
    whether it succeeded, and the buffer afterwards. *)
Definition heartbeat_encode (timestamp sequenceNumber : Z)
    (buffer : list Z) (bufferSize : nat) : bool * list Z :=
  if (bufferSize <? HEARTBEAT_SIZE)%nat then (false, buffer)
  else
    let m := store 0 (header_bytes (Z.of_nat sizeof_HeartbeatRoot) TEMPLATE_HEARTBEAT
                                   SCHEMA_ID SCHEMA_VERSION) buffer in
    (true, store sizeof_MessageHeader (le_bytes 8 timestamp ++ le_bytes 8 sequenceNumber) m).

(** [MessageDecoder(buffer, length)]: validity and dispatch on the header. *)
Definition message_isValid (buffer : list Z) (length : nat) : bool :=
  negb (length <? sizeof_MessageHeader)%nat && (load_u 4 2 buffer =? SCHEMA_ID).

Definition message_templateId (buffer : list Z) : Z := load_u 2 2 buffer.

Definition message_isHeartbeat (buffer : list Z) : bool :=
  message_templateId buffer =? TEMPLATE_HEARTBEAT.

Definition message_isL2Snapshot (buffer : list Z) : bool :=
  message_templateId buffer =? TEMPLATE_L2_SNAPSHOT.

(** [HeartbeatDecoder(buffer, length)]: [hb_root_] is set when the
    length covers a whole heartbeat. *)
Record HeartbeatDecoder := mkHeartbeatDecoder {
  hb_buffer_ : list Z;
  hb_length_ : nat;
  hb_root_ : option nat
}.

Definition new_heartbeat_decoder (buffer : list Z) (length : nat) : HeartbeatDecoder :=
  mkHeartbeatDecoder buffer length
    (if (HEARTBEAT_SIZE <=? length)%nat then Some sizeof_MessageHeader else None).

Definition heartbeat_isValid (d : HeartbeatDecoder) : bool :=
  message_isValid (hb_buffer_ d) (hb_length_ d)
  && message_isHeartbeat (hb_buffer_ d)
  && bool_decide (is_Some (hb_root_ d)).

Definition heartbeat_timestamp (d : HeartbeatDecoder) : option Z :=
  r ← hb_root_ d; Some (load_u r 8 (hb_buffer_ d)).

Definition heartbeat_sequenceNumber (d : HeartbeatDecoder) : option Z :=
  r ← hb_root_ d; Some (load_u (r + 8) 8 (hb_buffer_ d)).

(** *** Price conversion *)

(** [static_cast<int64_t>(fixedPrice4) * 1000] *)
Definition priceToSbe (fixedPrice4 : Z) : Z := i64 (fixedPrice4 * 1000).

(** [static_cast<uint32_t>(sbePrice / 1000)], division truncating. *)
Definition priceFromSbe (sbePrice : Z) : Z := u32 (Z.quot sbePrice 1000).

End L2md.

(** ** cme_order_book.cpp: the manager of all books *)

Module BookManager.
Import Protocol OrderBook.

Record CmeOrderBookManager := mkMgr {
  books_ : gmap Z CmeOrderBook;
  dirty_securities_ : gset Z
}.

Definition CmeOrderBookManager_init : CmeOrderBookManager := mkMgr ∅ ∅.

(** [getBook] returns a reference into [books_], creating the book on
    first use: the book found and the manager after a possible creation. *)
Definition getBook (security_id : Z) (m : CmeOrderBookManager)
    : CmeOrderBook * CmeOrderBookManager :=
  match books_ m !! security_id with
  | Some b => (b, m)
  | None =>
      (new_book security_id,
       mkMgr (<[security_id := new_book security_id]> (books_ m)) (dirty_securities_ m))
  end.

Definition hasBook (security_id : Z) (m : CmeOrderBookManager) : bool :=
  bool_decide (is_Some (books_ m !! security_id)).

Definition markDirty (security_id : Z) (m : CmeOrderBookManager) : CmeOrderBookManager :=
  mkMgr (books_ m) ({[security_id]} ∪ dirty_securities_ m).

Definition applyIncremental (entry : MDIncrementalRefreshEntry) (m : CmeOrderBookManager)
    : CmeOrderBookManager :=
  let '(book, m1) := getBook (security_id entry) m in
  markDirty (security_id entry)
    (mkMgr (<[security_id entry := applyUpdate entry book]> (books_ m1))
           (dirty_securities_ m1)).

Definition applySnapshot (security_id : Z) (entries : list MDSnapshotEntry)
    (count rpt_seq : Z) (m : CmeOrderBookManager) : CmeOrderBookManager :=
  let '(book, m1) := getBook security_id m in
  markDirty security_id
    (mkMgr (<[security_id :=
                setLastRptSeq rpt_seq (OrderBook.applySnapshot entries count book)]>
              (books_ m1))
           (dirty_securities_ m1)).

(** The vector of dirty ids (in the set's iteration order) and the
    manager with the set emptied. *)
Definition getDirtySecurities (m : CmeOrderBookManager) : list Z * CmeOrderBookManager :=
  (elements (dirty_securities_ m), mkMgr (books_ m) ∅).

Definition clear (m : CmeOrderBookManager) : CmeOrderBookManager := mkMgr ∅ ∅.

Definition getAllSecurityIds (m : CmeOrderBookManager) : list Z :=
  (map_to_list (books_ m)).*1.

End BookManager.

(** ** cme_feedhandler.cpp: datagram parsing *)

Module Parser.
Import Mem Protocol.

(** A read of [width] bytes at [offset] of the receive buffer. *)
Definition Access : Type := nat * nat.

(** Computations that read the receive buffer and log what they read. *)
Definition Rd (A : Type) : Type := list Z -> list Access -> A * list Access.

Definition ret {A} (a : A) : Rd A := fun _ log => (a, log).

Definition bind {A B} (c : Rd A) (k : A -> Rd B) : Rd B :=
  fun data log => let '(a, log1) := c data log in k a data log1.

Notation "'do' x <~ c 'in' k" := (bind c (fun x => k))
  (at level 10, x name, c at level 100, k at level 200).

Definition rd_u (off n : nat) : Rd Z :=
  fun data log => (load_u off n data, log ++ [(off, n)]).

Definition rd_i (off n : nat) : Rd Z :=
  fun data log => (load_i off n data, log ++ [(off, n)]).

Definition rd_bytes (off n : nat) : Rd (list Z) :=
  fun data log => (load off n data, log ++ [(off, n)]).

(** [operator<<] of a stream on the [char] pointer to the bytes at [off]: the
    C string found there, read up to and including its first NUL,
    wherever that lies; the end of the list stands for a NUL. *)
Definition rd_c_str (off : nat) : Rd (list Z) :=
  fun data log =>
    let s := c_str (drop off data) in (s, log ++ [(off, S (length s))]).

Definition run {A} (c : Rd A) (data : list Z) : A * list Access := c data [].

(** The messages a datagram dispatches to the handlers, with the fields
    the handlers read. *)
Inductive Message :=
| SecurityDefinitionMsg (security_id : Z) (symbol : list Z)
| IncrementalRefreshMsg (entries : list MDIncrementalRefreshEntry)
| ChannelResetMsg (transact_time : Z)
| HeartbeatMsg
| SnapshotFullRefreshMsg (last_msg_seq_num_processed security_id rpt_seq : Z)
                         (entries : list MDSnapshotEntry).

Definition read_incr_entry (base : nat) : Rd MDIncrementalRefreshEntry :=
  do px <~ rd_i base 8 in
  do sz <~ rd_i (base + 8) 4 in
  do sid <~ rd_u (base + 12) 4 in
  do rpt <~ rd_u (base + 16) 4 in
  do ty <~ rd_u (base + 20) 1 in
  do act <~ rd_u (base + 21) 1 in
  do lvl <~ rd_u (base + 22) 1 in
  do ord <~ rd_u (base + 23) 1 in
  ret (mkIncr px sz sid rpt ty act lvl ord).

Definition read_snap_entry (base : nat) : Rd MDSnapshotEntry :=
  do px <~ rd_i base 8 in
  do sz <~ rd_i (base + 8) 4 in
  do ty <~ rd_u (base + 12) 1 in
  do lvl <~ rd_u (base + 13) 1 in
  do ord <~ rd_u (base + 14) 1 in
  ret (mkSnap px sz ty lvl ord).

(** [entries[0 .. n)] read from [base] with stride [size]. *)
Fixpoint read_array {A} (rd : nat -> Rd A) (size : nat) (n : nat) (base : nat)
    : Rd (list A) :=
  match n with
  | O => ret []
  | S k =>
      do e <~ rd base in
      do es <~ read_array rd size k (base + size) in
      ret (e :: es)
  end.

(** What [handleSecurityDefinition] reads of the message at [offset]:
    [symbol], which it prints with [operator<<] as a C string, and
    [security_id]. *)
Definition read_security_definition (offset : nat) : Rd Message :=
  do sym <~ rd_c_str (offset + 12) in
  do sid <~ rd_u (offset + 8) 4 in
  ret (SecurityDefinitionMsg sid sym).

(** What [handleIncrementalRefresh] reads: the group count, then the
    entries. The log lists every field of every entry; the handler reads
    [security_id] and [rpt_seq] of each and the other fields when the
    entry is applied. *)
Definition read_incremental_refresh (offset : nat) : Rd Message :=
  do n <~ rd_u (offset + 18) 1 in
  do es <~ read_array read_incr_entry (Z.to_nat sizeof_MDIncrementalRefreshEntry)
                   (Z.to_nat n) (offset + Z.to_nat sizeof_MDIncrementalRefreshBook) in
  ret (IncrementalRefreshMsg es).

Definition read_channel_reset (offset : nat) : Rd Message :=
  do t <~ rd_u (offset + 8) 8 in
  ret (ChannelResetMsg t).

Definition read_snapshot_full_refresh (offset : nat) : Rd Message :=
  do sid <~ rd_u (offset + 12) 4 in
  do rpt <~ rd_u (offset + 16) 4 in
  do last <~ rd_u (offset + 8) 4 in
  do n <~ rd_u (offset + 30) 1 in
  do es <~ read_array read_snap_entry (Z.to_nat sizeof_MDSnapshotEntry)
                   (Z.to_nat n) (offset + Z.to_nat sizeof_MDSnapshotFullRefresh) in
  ret (SnapshotFullRefreshMsg last sid rpt es).

(** The [while] loop of [processIncrementalPacket] over a datagram of
    [len] bytes held at the start of the receive buffer. Every iteration
    that continues advances [offset] by at least the 8 bytes of a message
    header, so [len] iterations always suffice; [fuel] bounds them. *)
Fixpoint incremental_loop (fuel : nat) (len offset : nat) : Rd (list Message) :=
  match fuel with
  | O => ret []
  | S fuel' =>
      if (offset + Z.to_nat sizeof_SBEMessageHeader <=? len)%nat then
        do template_id <~ rd_u (offset + 2) 2 in
        if template_id =? TEMPLATE_SECURITY_DEFINITION then
          if (offset + Z.to_nat sizeof_SecurityDefinition <=? len)%nat then
            do m <~ read_security_definition offset in
            do ms <~ incremental_loop fuel' len (offset + Z.to_nat sizeof_SecurityDefinition) in
            ret (m :: ms)
          else ret []
        else if template_id =? TEMPLATE_MD_INCREMENTAL_REFRESH then
          (* msg->entries_header.num_in_group is read before any check
             that the root block lies inside the datagram *)
          do num_in_group <~ rd_u (offset + 18) 1 in
          let msg_size := Z.to_nat (calcIncrementalSize num_in_group) in
          if (offset + msg_size <=? len)%nat then
            do m <~ read_incremental_refresh offset in
            do ms <~ incremental_loop fuel' len (offset + msg_size) in
            ret (m :: ms)
          else ret []
        else if template_id =? TEMPLATE_CHANNEL_RESET then
          if (offset + Z.to_nat sizeof_ChannelReset <=? len)%nat then
            do m <~ read_channel_reset offset in
            do ms <~ incremental_loop fuel' len (offset + Z.to_nat sizeof_ChannelReset) in
            ret (m :: ms)
          else ret []
        else if template_id =? TEMPLATE_HEARTBEAT then
          if (offset + Z.to_nat sizeof_Heartbeat <=? len)%nat then
            do ms <~ incremental_loop fuel' len (offset + Z.to_nat sizeof_Heartbeat) in
            ret (HeartbeatMsg :: ms)
          else ret []
        else
          do block_length <~ rd_u offset 2 in
          incremental_loop fuel' len
            (offset + Z.to_nat sizeof_SBEMessageHeader + Z.to_nat block_length)
      else ret []
  end.

(** The loop of [processSnapshotPacket]. *)
Fixpoint snapshot_loop (fuel : nat) (len offset : nat) : Rd (list Message) :=
  match fuel with
  | O => ret []
  | S fuel' =>
      if (offset + Z.to_nat sizeof_SBEMessageHeader <=? len)%nat then
        do template_id <~ rd_u (offset + 2) 2 in
        if template_id =? TEMPLATE_MD_SNAPSHOT_FULL_REFRESH then
          do num_in_group <~ rd_u (offset + 30) 1 in
          let msg_size := Z.to_nat (calcSnapshotSize num_in_group) in
          if (offset + msg_size <=? len)%nat then
            do m <~ read_snapshot_full_refresh offset in
            do ms <~ snapshot_loop fuel' len (offset + msg_size) in
            ret (m :: ms)
          else ret []
        else
          do block_length <~ rd_u offset 2 in
          snapshot_loop fuel' len
            (offset + Z.to_nat sizeof_SBEMessageHeader + Z.to_nat block_length)
      else ret []
  end.

(** The result of parsing one datagram: [None] when it is shorter than a
    packet header (the caller counts an error), else the packet sequence
    number, where the function reads it, and the dispatched messages. *)
Definition parseIncrementalPacket (len : nat)
    : Rd (option (Z * list Message)) :=
  if (len <? Z.to_nat sizeof_PacketHeader)%nat then ret None
  else
    do msg_seq_num <~ rd_u 0 4 in
    do ms <~ incremental_loop (S len) len (Z.to_nat sizeof_PacketHeader) in
    ret (Some (msg_seq_num, ms)).

Definition parseSnapshotPacket (len : nat) : Rd (option (list Message)) :=
  if (len <? Z.to_nat sizeof_PacketHeader)%nat then ret None
  else
    do ms <~ snapshot_loop (S len) len (Z.to_nat sizeof_PacketHeader) in
    ret (Some ms).

(** An access stays inside a datagram of [len] bytes. *)
Definition in_datagram (len : nat) (a : Access) : bool :=
  (fst a + snd a <=? len)%nat.

End Parser.

(** ** cme_simulator.cpp: the datagrams the synthetic feed sends *)

Module Simulator.
Import Mem Protocol.

Record Level := mkSimLevel {
  lv_price : Z;          (* int64_t *)
  lv_quantity : Z;       (* int32_t *)
  lv_order_count : Z     (* uint8_t *)
}.

Record SimulatedBook := mkSimBook {
  sb_security_id : Z;    (* uint32_t *)
  sb_symbol : list Z;    (* std::string *)
  sb_bids : list Level;  (* std::array<Level, 5> *)
  sb_asks : list Level;
  sb_mid_price : Z;      (* int64_t *)
  sb_tick_size : Z;      (* int64_t *)
  sb_rpt_seq : Z         (* uint32_t *)
}.

(** [SimulatedBook::initialize]: level [i] sits [i + 1] ticks from the
    mid price; the arithmetic is 64-bit for prices, [int] for the rest. *)
Definition initialize (initial_mid tick : Z) (b : SimulatedBook) : SimulatedBook :=
  let side (sign : Z) :=
    List.map (fun i : Z =>
                mkSimLevel (i64 (initial_mid + sign * i64 ((i + 1) * tick)))
                           (i32 (50 + (4 - i) * 25))
                           (u8 (5 + (4 - i) * 2)))
             [0; 1; 2; 3; 4] in
  mkSimBook (sb_security_id b) (sb_symbol b) (side (-1)) (side 1)
            initial_mid tick (sb_rpt_seq b).

(** The members of [CmeSimulator] the packet builders use, and the
    readings of the system clock still to come. *)
Record CmeSimulator := mkSim {
  sim_send_buffer_ : list Z;   (* 1500 bytes *)
  incr_packet_seq_ : Z;        (* uint32_t *)
  snap_packet_seq_ : Z;        (* uint32_t *)
  sim_clock_ : list Z
}.

(** [std::memset(send_buffer_.data(), 0, send_buffer_.size())] *)
Definition memset0 (buffer : list Z) : list Z := List.map (fun _ => 0) buffer.

(** Packed images of the wire structures, fields in declaration order. *)
Definition packet_header_bytes (msg_seq_num sending_time : Z) : list Z :=
  le_bytes 4 msg_seq_num ++ le_bytes 8 sending_time.

Definition sbe_header_bytes (block_length template_id schema_id version : Z) : list Z :=
  le_bytes 2 block_length ++ le_bytes 2 template_id ++ le_bytes 2 schema_id ++
  le_bytes 2 version.

Definition incr_entry_bytes (e : MDIncrementalRefreshEntry) : list Z :=
  le_bytes 8 (md_entry_px e) ++ le_bytes 4 (md_entry_size e) ++
  le_bytes 4 (security_id e) ++ le_bytes 4 (rpt_seq e) ++
  le_bytes 1 (md_entry_type e) ++ le_bytes 1 (md_update_action e) ++
  le_bytes 1 (md_price_level e) ++ le_bytes 1 (number_of_orders e).

(** [MDIncrementalRefreshBook::init(num_entries)] and the assignment of
    [transact_time]: the 19 bytes of the message before its entries. *)
Definition incremental_book_bytes (transact_time num_entries : Z) : list Z :=
  sbe_header_bytes 8 TEMPLATE_MD_INCREMENTAL_REFRESH 1 9 ++
  le_bytes 8 transact_time ++
  le_bytes 2 sizeof_MDIncrementalRefreshEntry ++ le_bytes 1 num_entries.

(** [SecurityDefinition::init()] and the fields the sender assigns;
    [strncpy(msg->symbol, ..., 19)] runs on zeroed memory, which leaves
    the twentieth byte of the field NUL. *)
Definition security_definition_bytes (b : SimulatedBook) : list Z :=
  sbe_header_bytes (sizeof_SecurityDefinition - sizeof_SBEMessageHeader)
                   TEMPLATE_SECURITY_DEFINITION 1 9 ++
  le_bytes 4 (sb_security_id b) ++
  (strncpy 19 (sb_symbol b) ++ [0]) ++
  le_bytes 8 (sb_tick_size b) ++ le_bytes 4 1 ++ le_bytes 1 17.

Definition getCurrentTimeNs (sim : CmeSimulator) : Z * CmeSimulator :=
  (hd 0 (sim_clock_ sim),
   mkSim (sim_send_buffer_ sim) (incr_packet_seq_ sim) (snap_packet_seq_ sim)
         (tl (sim_clock_ sim))).

(** [for (i < entries.size()) entry_ptr[i] = entries[i];] *)
Definition copy_entries (entries : list MDIncrementalRefreshEntry) (st : list Z * nat)
    : list Z * nat :=
  foldl (fun acc e => (store (snd acc) (incr_entry_bytes e) (fst acc), (snd acc + 24)%nat))
        st entries.

(** [sendIncrementalPacket(entries)]: the datagram handed to the sender
    and the simulator afterwards. The entry count goes through
    [uint8_t] both in [init] and in [calcIncrementalSize]. *)
Definition sendIncrementalPacket (entries : list MDIncrementalRefreshEntry)
    (sim : CmeSimulator) : list Z * CmeSimulator :=
  let buf := memset0 (sim_send_buffer_ sim) in
  let seq := u32 (incr_packet_seq_ sim + 1) in
  let '(now, sim1) := getCurrentTimeNs sim in
  let buf := store 0 (packet_header_bytes seq now) buf in
  let n := u8 (Z.of_nat (length entries)) in
  let buf := store (Z.to_nat sizeof_PacketHeader) (incremental_book_bytes now n) buf in
  let '(buf, _) :=
    copy_entries entries
      (buf, (Z.to_nat sizeof_PacketHeader + Z.to_nat sizeof_MDIncrementalRefreshBook)%nat) in
  let packet_size := (Z.to_nat sizeof_PacketHeader + Z.to_nat (calcIncrementalSize n))%nat in
  (take packet_size buf, mkSim buf seq (snap_packet_seq_ sim1) (sim_clock_ sim1)).

(** The body of the loop of [sendSecurityDefinitions] for one book. *)
Definition sendSecurityDefinition (b : SimulatedBook) (sim : CmeSimulator)
    : list Z * CmeSimulator :=
  let buf := memset0 (sim_send_buffer_ sim) in
  let seq := u32 (incr_packet_seq_ sim + 1) in
  let '(now, sim1) := getCurrentTimeNs sim in
  let buf := store 0 (packet_header_bytes seq now) buf in
  let buf := store (Z.to_nat sizeof_PacketHeader) (security_definition_bytes b) buf in
  let packet_size := (Z.to_nat sizeof_PacketHeader + Z.to_nat sizeof_SecurityDefinition)%nat in
  (take packet_size buf, mkSim buf seq (snap_packet_seq_ sim1) (sim_clock_ sim1)).

(** [MDSnapshotFullRefresh::init(num_entries)] and the fields the sender
    assigns: the 31 bytes of the message before its entries. *)
Definition snapshot_refresh_bytes
    (last_msg_seq_num_processed security_id rpt_seq transact_time num_entries : Z)
    : list Z :=
  sbe_header_bytes (sizeof_MDSnapshotFullRefresh - sizeof_SBEMessageHeader
                    - sizeof_GroupHeader)
                   TEMPLATE_MD_SNAPSHOT_FULL_REFRESH 1 9 ++
  le_bytes 4 last_msg_seq_num_processed ++ le_bytes 4 security_id ++
  le_bytes 4 rpt_seq ++ le_bytes 8 transact_time ++
  le_bytes 2 sizeof_MDSnapshotEntry ++ le_bytes 1 num_entries.

(** The five fields assigned to one snapshot entry; its [padding] byte
    is not written. *)
Definition snap_entry_fields (l : Level) (type level : Z) : list Z :=
  le_bytes 8 (lv_price l) ++ le_bytes 4 (lv_quantity l) ++
  le_bytes 1 type ++ le_bytes 1 level ++ le_bytes 1 (lv_order_count l).

Definition Level_default : Level := mkSimLevel 0 0 0.

(** [for (i < 5) { entries[i] = bid i; entries[5 + i] = ask i; }] with
    [entries] at offset [base]. *)
Definition fill_entries (b : SimulatedBook) (base : nat) (buf : list Z) : list Z :=
  foldl (fun buf i =>
           let buf := store (base + 16 * i)
                            (snap_entry_fields (default Level_default (sb_bids b !! i))
                                               Bid (u8 (Z.of_nat i + 1))) buf in
           store (base + 16 * (5 + i))
                 (snap_entry_fields (default Level_default (sb_asks b !! i))
                                    Offer (u8 (Z.of_nat i + 1))) buf)
        buf (seq 0 5).

(** [sendSnapshotPacket(book)]: the datagram and the simulator afterwards. *)
Definition sendSnapshotPacket (b : SimulatedBook) (sim : CmeSimulator)
    : list Z * CmeSimulator :=
  let buf := memset0 (sim_send_buffer_ sim) in
  let seq := u32 (snap_packet_seq_ sim + 1) in
  let '(now, sim1) := getCurrentTimeNs sim in
  let buf := store 0 (packet_header_bytes seq now) buf in
  let num_entries := 10 in
  let buf := store (Z.to_nat sizeof_PacketHeader)
                   (snapshot_refresh_bytes (incr_packet_seq_ sim) (sb_security_id b)
                                           (sb_rpt_seq b) now num_entries) buf in
  let buf := fill_entries b (Z.to_nat sizeof_PacketHeader
                             + Z.to_nat sizeof_MDSnapshotFullRefresh)%nat buf in
  let packet_size := (Z.to_nat sizeof_PacketHeader
                      + Z.to_nat (calcSnapshotSize num_entries))%nat in
  (take packet_size buf, mkSim buf (incr_packet_seq_ sim1) seq (sim_clock_ sim1)).

End Simulator.

(** ** cme_receiver.cpp: what the consumer makes of a snapshot *)

Module Receiver.

(** [while (!symbol.empty() && (symbol.back() == ' ' || symbol.back() == 0))
    symbol.pop_back();] on the reversed string. *)
Fixpoint drop_padding (rev_symbol : list Z) : list Z :=
  match rev_symbol with
  | [] => []
  | c :: r => if (c =? 32) || (c =? 0) then drop_padding r else c :: r
  end.

Definition trim_symbol (symbol : list Z) : list Z :=
  reverse (drop_padding (reverse symbol)).

End Receiver.

(** ** cme_feedhandler.cpp: handlers and conflation *)

Module FeedHandler.
Import Protocol MarketData Recovery BookManager Parser.

(** A datagram handed to [output_sender_->send]. [pub_security_id] is a
    label of the model (the encoded symbol does not identify instruments
    outside the fixed catalogue); [pub_bytes] is what goes on the wire. *)
Record Published := mkPublished {
  pub_security_id : Z;
  pub_bytes : list Z
}.

(** The members of [CmeFeedHandler] that the handlers touch, and the
    environment: the readings of the system clock still to come and the
    datagrams sent so far, oldest first. *)
Record CmeFeedHandler := mkFH {
  book_manager_ : CmeOrderBookManager;
  recovery_manager_ : RecoveryManager;
  last_packet_seq_ : Z;          (* uint32_t *)
  first_packet_ : bool;
  output_seq_ : Z;               (* uint64_t *)
  stats_ : FeedStats;
  send_buffer_ : list Z;         (* 1500 bytes *)
  clock_ : list Z;
  sent_ : list Published
}.

Definition CmeFeedHandler_init (clock : list Z) : CmeFeedHandler :=
  mkFH CmeOrderBookManager_init RecoveryManager_init 0 true 0 FeedStats_init
       (replicate 1500 0) clock [].

Definition with_managers (bm : CmeOrderBookManager) (rm : RecoveryManager)
    (fh : CmeFeedHandler) : CmeFeedHandler :=
  mkFH bm rm (last_packet_seq_ fh) (first_packet_ fh) (output_seq_ fh) (stats_ fh)
       (send_buffer_ fh) (clock_ fh) (sent_ fh).

Definition with_stats (s : FeedStats) (fh : CmeFeedHandler) : CmeFeedHandler :=
  mkFH (book_manager_ fh) (recovery_manager_ fh) (last_packet_seq_ fh) (first_packet_ fh)
       (output_seq_ fh) s (send_buffer_ fh) (clock_ fh) (sent_ fh).

Definition add_order_one (s : FeedStats) : FeedStats :=
  mkFeedStats (messages_received s) (messages_sent s) (bytes_received s) (bytes_sent s)
              (u64 (add_orders s + 1)) (delete_orders s) (executions s) (trades s) (errors s).

Definition delete_order_one (s : FeedStats) : FeedStats :=
  mkFeedStats (messages_received s) (messages_sent s) (bytes_received s) (bytes_sent s)
              (add_orders s) (u64 (delete_orders s + 1)) (executions s) (trades s) (errors s).

Definition trade_one (s : FeedStats) : FeedStats :=
  mkFeedStats (messages_received s) (messages_sent s) (bytes_received s) (bytes_sent s)
              (add_orders s) (delete_orders s) (executions s) (u64 (trades s + 1)) (errors s).

Definition error_one (s : FeedStats) : FeedStats :=
  mkFeedStats (messages_received s) (messages_sent s) (bytes_received s) (bytes_sent s)
              (add_orders s) (delete_orders s) (executions s) (trades s) (u64 (errors s + 1)).

Definition sent_one (bytes : Z) (s : FeedStats) : FeedStats :=
  mkFeedStats (messages_received s) (u64 (messages_sent s + 1)) (bytes_received s)
              (u64 (bytes_sent s + bytes))
              (add_orders s) (delete_orders s) (executions s) (trades s) (errors s).

(** [getCurrentTimeNs]: the next reading of the system clock. *)
Definition getCurrentTimeNs (fh : CmeFeedHandler) : Z * CmeFeedHandler :=
  (hd 0 (clock_ fh),
   mkFH (book_manager_ fh) (recovery_manager_ fh) (last_packet_seq_ fh) (first_packet_ fh)
        (output_seq_ fh) (stats_ fh) (send_buffer_ fh) (tl (clock_ fh)) (sent_ fh)).

Definition handleSecurityDefinition (security_id : Z) (fh : CmeFeedHandler) : CmeFeedHandler :=
  with_managers (snd (getBook security_id (book_manager_ fh)))
                (initSecurity security_id 1 (recovery_manager_ fh)) fh.

(** The body of the loop of [handleIncrementalRefresh] for one entry. *)
Definition handleIncrementalEntry (fh : CmeFeedHandler) (entry : MDIncrementalRefreshEntry)
    : CmeFeedHandler :=
  let '(ok, rm) := onIncrementalMessage (security_id entry) (rpt_seq entry)
                                        (recovery_manager_ fh) in
  if ok then
    let bm := applyIncremental entry (book_manager_ fh) in
    let s := stats_ fh in
    let s := if md_update_action entry =? New then add_order_one s
             else if md_update_action entry =? Delete then delete_order_one s
             else s in
    let s := if md_entry_type entry =? Trade then trade_one s else s in
    with_stats s (with_managers bm rm fh)
  else with_managers (book_manager_ fh) rm fh.

Definition handleIncrementalRefresh (entries : list MDIncrementalRefreshEntry)
    (fh : CmeFeedHandler) : CmeFeedHandler :=
  foldl handleIncrementalEntry fh entries.

Definition handleSnapshotFullRefresh (last_msg_seq_num_processed security_id rpt_seq : Z)
    (entries : list MDSnapshotEntry) (fh : CmeFeedHandler) : CmeFeedHandler :=
  let '(ok, rm) := onSnapshotMessage security_id rpt_seq last_msg_seq_num_processed
                                     (recovery_manager_ fh) in
  if ok then
    let bm := BookManager.applySnapshot security_id entries (Z.of_nat (length entries))
                                        rpt_seq (book_manager_ fh) in
    with_managers bm (completeRecovery security_id rpt_seq rm) fh
  else with_managers (book_manager_ fh) rm fh.

(** [book_manager_.clear()] runs first; the loop then ranges over
    [getAllSecurityIds()] of the manager just cleared. *)
Definition handleChannelReset (fh : CmeFeedHandler) : CmeFeedHandler :=
  let bm := BookManager.clear (book_manager_ fh) in
  let rm := foldl (fun rm security_id => resetExpectedSeq security_id 1 rm)
                  (recovery_manager_ fh) (getAllSecurityIds bm) in
  with_managers bm rm fh.

Definition handleHeartbeat (fh : CmeFeedHandler) : CmeFeedHandler := fh.

(** The conversion loops of [publishSnapshot]: entry [i] gets level [i + 1]. *)
Definition to_sbe_entries (side : BookSide) (n : Z) : list L2md.PriceLevelEntry :=
  imap (fun i l => L2md.mkEntry (u8 (Z.of_nat i + 1)) (L2md.priceToSbe (pl_price l))
                                (pl_quantity l) (u16 (pl_order_count l)))
       (take (Z.to_nat n) (levels side)).

Definition publishSnapshot (security_id : Z) (snap : OrderBookSnapshot)
    (fh : CmeFeedHandler) : CmeFeedHandler :=
  let numBids := Z.min (u8 (count (bids snap))) L2md.MAX_LEVELS in
  let numAsks := Z.min (u8 (count (asks snap))) L2md.MAX_LEVELS in
  let bids := to_sbe_entries (bids snap) numBids in
  let asks := to_sbe_entries (asks snap) numAsks in
  let encoder := L2md.new_encoder (send_buffer_ fh) (length (send_buffer_ fh)) in
  let '(ok, encoder) :=
    L2md.encode (symbol snap) (timestamp snap) (sequence snap)
                (L2md.priceToSbe (last_price snap)) (last_quantity snap) (total_volume snap)
                numBids numAsks bids numBids asks numAsks encoder in
  if ok then
    mkFH (book_manager_ fh) (recovery_manager_ fh) (last_packet_seq_ fh) (first_packet_ fh)
         (output_seq_ fh)
         (sent_one (Z.of_nat (L2md.encodedLength encoder)) (stats_ fh))
         (L2md.buffer_ encoder) (clock_ fh)
         (sent_ fh ++ [mkPublished security_id
                         (take (L2md.encodedLength encoder) (L2md.buffer_ encoder))])
  else with_stats (error_one (stats_ fh)) fh.

(** The body of the loop of [publishConflatedSnapshots] for one dirty id. *)
Definition publishIfNormal (fh : CmeFeedHandler) (security_id : Z) : CmeFeedHandler :=
  if decide (getState security_id (recovery_manager_ fh) = Normal) then
    let '(book, bm) := getBook security_id (book_manager_ fh) in
    let fh := with_managers bm (recovery_manager_ fh) fh in
    let snap := OrderBook.getSnapshot book in
    let '(now, fh) := getCurrentTimeNs fh in
    let seq := u64 (output_seq_ fh + 1) in
    let fh := mkFH (book_manager_ fh) (recovery_manager_ fh) (last_packet_seq_ fh)
                   (first_packet_ fh) seq (stats_ fh) (send_buffer_ fh) (clock_ fh)
                   (sent_ fh) in
    let snap := mkOrderBookSnapshot (symbol snap) now seq (bids snap) (asks snap)
                                    (last_price snap) (last_quantity snap)
                                    (total_volume snap) in
    publishSnapshot security_id snap fh
  else fh.

Definition publishConflatedSnapshots (fh : CmeFeedHandler) : CmeFeedHandler :=
  let '(dirty, bm) := getDirtySecurities (book_manager_ fh) in
  foldl publishIfNormal (with_managers bm (recovery_manager_ fh) fh) dirty.

Definition dispatch (fh : CmeFeedHandler) (m : Message) : CmeFeedHandler :=
  match m with
  | SecurityDefinitionMsg sid _ => handleSecurityDefinition sid fh
  | IncrementalRefreshMsg es => handleIncrementalRefresh es fh
  | ChannelResetMsg _ => handleChannelReset fh
  | HeartbeatMsg => handleHeartbeat fh
  | SnapshotFullRefreshMsg last sid rpt es => handleSnapshotFullRefresh last sid rpt es fh
  end.

(** [processIncrementalPacket(data, len)]: the handlers do not influence
    the walk over the datagram, so the messages found by the parser are
    dispatched in order. [data] is the receive buffer, whose first [len]
    bytes are the datagram. *)
Definition processIncrementalPacket (data : list Z) (len : nat) (fh : CmeFeedHandler)
    : CmeFeedHandler :=
  match fst (run (parseIncrementalPacket len) data) with
  | None => with_stats (error_one (stats_ fh)) fh
  | Some (msg_seq_num, ms) =>
      let fh := mkFH (book_manager_ fh) (recovery_manager_ fh) msg_seq_num false
                     (output_seq_ fh) (stats_ fh) (send_buffer_ fh) (clock_ fh) (sent_ fh) in
      foldl dispatch fh ms
  end.

Definition processSnapshotPacket (data : list Z) (len : nat) (fh : CmeFeedHandler)
    : CmeFeedHandler :=
  match fst (run (parseSnapshotPacket len) data) with
  | None => with_stats (error_one (stats_ fh)) fh
  | Some ms => foldl dispatch fh ms
  end.

Definition received_one (len : Z) (s : FeedStats) : FeedStats :=
  mkFeedStats (u64 (messages_received s + 1)) (messages_sent s)
              (u64 (bytes_received s + len)) (bytes_sent s)
              (add_orders s) (delete_orders s) (executions s) (trades s) (errors s).

(** What the environment delivers to one pass of the loop of [run]: for
    each socket that [poll] reports readable, the receive buffer after
    the read and the length returned; whether the conflation interval
    has elapsed on the steady clock; the configured recovery timeout. *)
Record Pass := mkPass {
  incremental_read : option (list Z * Z);
  snapshot_read : option (list Z * Z);
  conflation_due : bool;
  recovery_timeout_ns : Z        (* config_.recovery_timeout_ms * 1000000ULL *)
}.

(** One pass of the [while (running_)] loop of [run]; what it prints is
    left out. *)
Definition run_pass (fh : CmeFeedHandler) (p : Pass) : CmeFeedHandler :=
  let fh :=
    match incremental_read p with
    | Some (data, len) =>
        if 0 <? len then
          let fh := processIncrementalPacket data (Z.to_nat len) fh in
          with_stats (received_one len (stats_ fh)) fh
        else fh
    | None => fh
    end in
  let fh :=
    match snapshot_read p with
    | Some (data, len) =>
        if 0 <? len then
          let fh := if needsRecovery (recovery_manager_ fh)
                    then processSnapshotPacket data (Z.to_nat len) fh else fh in
          with_stats (received_one len (stats_ fh)) fh
        else fh
    | None => fh
    end in
  let fh := if conflation_due p then publishConflatedSnapshots fh else fh in
  let '(now, fh) := getCurrentTimeNs fh in
  with_managers (book_manager_ fh)
                (snd (checkTimeouts now (recovery_timeout_ns p) (recovery_manager_ fh))) fh.

(** [run]: the passes of the loop, in order. *)
Definition run_passes (fh : CmeFeedHandler) (passes : list Pass) : CmeFeedHandler :=
  foldl run_pass fh passes.

End FeedHandler.

(** ** Properties of the ladders stated below *)

Module BookProps.
Import Protocol OrderBook.

(** Slots at indices at or beyond [cnt] hold the zero level. *)
Definition side_clean (a : list CmePriceLevel) (cnt : Z) : Prop :=
  Forall (fun l => l = level0) (drop (Z.to_nat cnt) a).

Definition book_clean (b : CmeOrderBook) : Prop :=
  side_clean (bids_ b) (bid_count_ b) /\ side_clean (asks_ b) (ask_count_ b).

(** Both arrays have their ten slots and both counts are within [0, 10]. *)
Definition book_shape (b : CmeOrderBook) : Prop :=
  length (bids_ b) = 10%nat /\ length (asks_ b) = 10%nat /\
  0 <= bid_count_ b <= 10 /\ 0 <= ask_count_ b <= 10.

(** Book states reached from a fresh book by incremental entries and
    snapshot applications, all carrying values of their wire types. *)
Inductive reachable : CmeOrderBook -> Prop :=
| reach_new security_id : reachable (new_book security_id)
| reach_update entry b :
    wf_incr entry -> reachable b -> reachable (applyUpdate entry b)
| reach_snapshot entries count b :
    Forall wf_snap entries -> is_u8 count ->
    reachable b -> reachable (applySnapshot entries count b).

(** An action addresses the occupied prefix of a side holding [cnt]
    levels: New at most one past it, Change and Delete inside it,
    DeleteThru covering all of it. DeleteFrom, Overlay, unknown actions
    and levels outside [1, 10] are unconstrained. *)
Definition side_in_prefix (level action cnt : Z) : Prop :=
  if (level =? 0) || (CME_MAX_DEPTH <? level) then True
  else if action =? New then level <= cnt + 1
  else if action =? Change then level <= cnt
  else if action =? Delete then level <= cnt
  else if action =? DeleteThru then cnt <= level
  else True.

Definition entry_in_prefix (entry : MDIncrementalRefreshEntry) (b : CmeOrderBook) : Prop :=
  let type := md_entry_type entry in
  if (type =? Bid) || (type =? ImpliedBid) then
    side_in_prefix (md_price_level entry) (md_update_action entry) (bid_count_ b)
  else if (type =? Offer) || (type =? ImpliedOffer) then
    side_in_prefix (md_price_level entry) (md_update_action entry) (ask_count_ b)
  else True.

(** As [reachable], every incremental entry addressing the occupied prefix. *)
Inductive reachable_in_prefix : CmeOrderBook -> Prop :=
| rip_new security_id : reachable_in_prefix (new_book security_id)
| rip_update entry b :
    wf_incr entry -> entry_in_prefix entry b ->
    reachable_in_prefix b -> reachable_in_prefix (applyUpdate entry b)
| rip_snapshot entries count b :
    Forall wf_snap entries -> is_u8 count ->
    reachable_in_prefix b -> reachable_in_prefix (applySnapshot entries count b).

(** Snapshot entries that [applySnapshot] writes into a ladder. *)
Definition bid_or_offer (e : MDSnapshotEntry) : bool :=
  (snap_md_entry_type e =? Bid) || (snap_md_entry_type e =? Offer).

(** Five bids at positions 1..5, built by New entries on a fresh book. *)
Definition new_bid (lvl px : Z) : MDIncrementalRefreshEntry :=
  mkIncr px 10 SECURITY_ID_ESH26 lvl Bid New lvl 1.

Definition five_bids : CmeOrderBook :=
  foldl (fun b e => applyUpdate e b) (new_book SECURITY_ID_ESH26)
        [new_bid 1 45000000000; new_bid 2 44997500000; new_bid 3 44995000000;
         new_bid 4 44992500000; new_bid 5 44990000000].

(** The book of scenario C after [DeleteThru] at level 2 on the bids. *)
Definition five_bids_delete_thru_2 : CmeOrderBook :=
  applyUpdate (mkIncr 0 0 SECURITY_ID_ESH26 6 Bid DeleteThru 2 0) five_bids.

(** A Change at level 1 arriving on a fresh book. *)
Definition change_on_empty : CmeOrderBook :=
  applyUpdate (mkIncr 45000000000 10 SECURITY_ID_ESH26 1 Bid Change 1 3)
              (new_book SECURITY_ID_ESH26).

(** An Overlay at ask level 3 on a fresh book (scenario B). *)
Definition overlay_on_empty : CmeOrderBook :=
  applyUpdate (mkIncr 100 7 SECURITY_ID_ESH26 1 Offer Overlay 3 1)
              (new_book SECURITY_ID_ESH26).

(** A book whose best bid carries a negative price. *)
Definition negative_bid : CmeOrderBook :=
  applyUpdate (mkIncr (-2500) 7 SECURITY_ID_ESH26 1 Bid New 1 1)
              (new_book SECURITY_ID_ESH26).

Definition book_inv (b : CmeOrderBook) : Prop := book_shape b /\ book_clean b.

End BookProps.

(** ** States and inputs used in the statements on recovery and dispatch *)

Module FeedProps.
Import Protocol Recovery BookManager FeedHandler.

(** An incremental entry: New bid at level 1 for the given instrument. *)
Definition bid_entry (security_id rpt_seq px : Z) : MDIncrementalRefreshEntry :=
  mkIncr px 10 security_id rpt_seq Bid New 1 1.

(** The instrument is first seen at [rpt_seq = 2^32 - 2]. *)
Definition rm_near_wrap : RecoveryManager :=
  snd (onIncrementalMessage SECURITY_ID_ESH26 4294967294 RecoveryManager_init).

(** A handler on which instrument 1001 was updated at [rpt_seq = 1] and
    then saw [rpt_seq = 5]: the instrument is dirty and in GapDetected. *)
Definition fh_gap : CmeFeedHandler :=
  handleIncrementalRefresh
    [bid_entry SECURITY_ID_ESH26 1 45000000000; bid_entry SECURITY_ID_ESH26 5 45002500000]
    (CmeFeedHandler_init [1000; 2000]).

(** The datagrams sent by a step from [fh] to [fh']. *)
Definition newly_sent (fh fh' : CmeFeedHandler) : list Published :=
  drop (length (sent_ fh)) (sent_ fh').

End FeedProps.

(** ** Inputs and layouts used in the statements on the wire formats *)

Module WireProps.
Import Mem Protocol L2md Parser.

(** A 20-byte datagram: packet header (sequence 1, time 0) followed by
    one SBE message header announcing template 32 and nothing else. *)
Definition truncated_incremental : list Z :=
  [1; 0; 0; 0;  0; 0; 0; 0; 0; 0; 0; 0;
   11; 0;  32; 0;  1; 0;  9; 0].

(** The same with template 38, for the snapshot channel. *)
Definition truncated_snapshot : list Z :=
  [1; 0; 0; 0;  0; 0; 0; 0; 0; 0; 0; 0;
   23; 0;  38; 0;  1; 0;  9; 0].

(** What an earlier, longer datagram left in the receive buffer behind
    the first 20 bytes. *)
Definition stale_bytes : list Z := replicate 10 7 ++ [200] ++ replicate 11 7 ++ [200; 7].

(** Receive buffers hold bytes. *)
Definition bytes_ok (data : list Z) : Prop := Forall (fun b => 0 <= b < 256) data.

(** A computation whose reads all stay inside a datagram of [len] bytes. *)
Definition reads_within {A} (len : nat) (c : Rd A) : Prop :=
  forall data log, exists new,
    snd (c data log) = log ++ new /\ Forall (fun a => in_datagram len a = true) new.

(** The read of a group's [num_in_group] byte (18 bytes into an
    incremental message, 30 bytes into a snapshot message) made once the
    8-byte message header at [offset] is known to lie in the datagram. *)
Definition count_peek (len : nat) (a : Access) : Prop :=
  exists offset, (offset + 8 <= len)%nat /\
                 (a = (offset + 18, 1)%nat \/ a = (offset + 30, 1)%nat).

(** The read of a SecurityDefinition's symbol for printing, made once
    the 45 bytes of the message at [offset] are known to lie in the
    datagram: it starts at the symbol field, 12 bytes into the message,
    and runs to the first NUL, which need not lie in the field or in the
    datagram. *)
Definition symbol_print (len : nat) (a : Access) : Prop :=
  exists offset, (offset + 45 <= len)%nat /\ fst a = (offset + 12)%nat.

Definition access_ok (len : nat) (a : Access) : Prop :=
  in_datagram len a = true \/ count_peek len a \/ symbol_print len a.

(** A 57-byte datagram holding one SecurityDefinition whose 20-byte
    symbol field and everything behind it is free of NULs, and what an
    earlier datagram left behind it in the receive buffer. *)
Definition unterminated_definition : list Z :=
  [1; 0; 0; 0;  0; 0; 0; 0; 0; 0; 0; 0;
   37; 0;  27; 0;  1; 0;  9; 0;
   233; 3; 0; 0] ++ replicate 20 65 ++ replicate 13 1.

Definition stale_text : list Z := [66; 66; 66; 0; 7].

(** The packed image of a snapshot message, piece by piece. *)
Definition snapshot_pieces (symbol : list Z)
    (timestamp sequenceNumber lastTradePrice lastTradeQty totalVolume bidCount askCount : Z)
    (bids asks : list PriceLevelEntry) : list (list Z) :=
  [ le_bytes 2 (Z.of_nat sizeof_L2SnapshotRoot); le_bytes 2 TEMPLATE_L2_SNAPSHOT;
    le_bytes 2 SCHEMA_ID; le_bytes 2 SCHEMA_VERSION;
    strncpy 8 symbol; le_bytes 8 timestamp; le_bytes 8 sequenceNumber;
    le_bytes 8 lastTradePrice; le_bytes 4 lastTradeQty; le_bytes 8 totalVolume;
    le_bytes 1 bidCount; le_bytes 1 askCount;
    le_bytes 2 (Z.of_nat sizeof_PriceLevelEntry); le_bytes 1 (Z.of_nat (length bids));
    concat (List.map entry_bytes bids);
    le_bytes 2 (Z.of_nat sizeof_PriceLevelEntry); le_bytes 1 (Z.of_nat (length asks));
    concat (List.map entry_bytes asks) ].

Definition entry_pieces (e : PriceLevelEntry) : list (list Z) :=
  [ le_bytes 1 (level e); le_bytes 8 (price e); le_bytes 4 (quantity e);
    le_bytes 2 (numOrders e) ].

(** A symbol as the encoder receives it: at most 8 characters, none NUL. *)
Definition wf_symbol (symbol : list Z) : Prop :=
  (length symbol <= 8)%nat /\ Forall (fun c => 0 < c < 256) symbol.

(** An example message: two bids, one ask. *)
Definition example_bids : list PriceLevelEntry :=
  [mkEntry 1 45000000000 10 3; mkEntry 2 44997500000 5 2].
Definition example_asks : list PriceLevelEntry :=
  [mkEntry 1 (-2500000) 7 1].
Definition example_buffer : list Z := replicate 1500 0.

End WireProps.

(** ** Notions used in the further properties *)

Module ExtraProps.
Import Mem Protocol Recovery BookManager Parser FeedHandler.

(** Feeding one instrument a run of report sequences: the answers of
    [onIncrementalMessage], in order, and the manager at the end. *)
Definition feed (security_id : Z) (rpts : list Z) (rm : RecoveryManager)
    : list bool * RecoveryManager :=
  foldl (fun acc rpt =>
           (fst acc ++ [fst (onIncrementalMessage security_id rpt (snd acc))],
            snd (onIncrementalMessage security_id rpt (snd acc))))
        ([], rm) rpts.

(** The consecutive sequences [first, first + 1, ..., first + n - 1]. *)
Definition consecutive (first : Z) (n : nat) : list Z :=
  List.map (fun i => first + Z.of_nat i) (seq 0 n).

(** A handler on which instrument 1001 received one in-sequence bid:
    the instrument is in Normal and dirty. *)
Definition fh_one : CmeFeedHandler :=
  handleIncrementalRefresh [FeedProps.bid_entry SECURITY_ID_ESH26 1 45000000000]
                           (CmeFeedHandler_init [1000; 2000]).

(** A recovery manager in which instrument 1001, first seen at
    [rpt_seq = 1], then saw [rpt_seq = 5]: it is in GapDetected. *)
Definition rm_gap : RecoveryManager :=
  snd (onIncrementalMessage SECURITY_ID_ESH26 5
         (snd (onIncrementalMessage SECURITY_ID_ESH26 1 RecoveryManager_init))).

(** No instrument is in Recovering. *)
Definition settled (rm : RecoveryManager) : Prop :=
  forall sid, getState sid rm <> Recovering.

(** The book of an instrument as [getBook] would hand it out. *)
Definition book_of (security_id : Z) (bm : CmeOrderBookManager) : OrderBook.CmeOrderBook :=
  default (OrderBook.new_book security_id) (books_ bm !! security_id).

(** Each operation of the recovery manager leaves an instrument in
    Normal or GapDetected, or in the state it had. *)
Definition calm (rm rm' : RecoveryManager) : Prop :=
  forall sid, getState sid rm' = Normal \/ getState sid rm' = GapDetected \/
              getState sid rm' = getState sid rm.

Definition is_snapshot_msg (m : Parser.Message) : Prop :=
  match m with
  | Parser.SnapshotFullRefreshMsg _ _ _ _ => True
  | _ => False
  end.

(** A reading computation that yields [a] on [data], whatever was
    logged before. *)
Definition returns {A} (c : Rd A) (data : list Z) (a : A) : Prop :=
  forall log, fst (c data log) = a.

(** The packed images of the entries of the two CME messages, field by
    field; a snapshot entry ends in its padding byte. *)
Definition incr_entry_pieces (e : MDIncrementalRefreshEntry) : list (list Z) :=
  [ le_bytes 8 (md_entry_px e); le_bytes 4 (md_entry_size e);
    le_bytes 4 (security_id e); le_bytes 4 (rpt_seq e);
    le_bytes 1 (md_entry_type e); le_bytes 1 (md_update_action e);
    le_bytes 1 (md_price_level e); le_bytes 1 (number_of_orders e) ].

Definition snap_entry_pieces (e : MDSnapshotEntry) : list (list Z) :=
  [ le_bytes 8 (snap_md_entry_px e); le_bytes 4 (snap_md_entry_size e);
    le_bytes 1 (snap_md_entry_type e); le_bytes 1 (snap_md_price_level e);
    le_bytes 1 (snap_number_of_orders e); [0] ].

(** The entries a snapshot packet of the simulator carries for a book:
    its five bids at levels 1 to 5, then its five asks. *)
Definition snapshot_entries (b : Simulator.SimulatedBook) : list MDSnapshotEntry :=
  imap (fun i l => mkSnap (Simulator.lv_price l) (Simulator.lv_quantity l) Bid
                          (Z.of_nat i + 1) (Simulator.lv_order_count l))
       (Simulator.sb_bids b) ++
  imap (fun i l => mkSnap (Simulator.lv_price l) (Simulator.lv_quantity l) Offer
                          (Z.of_nat i + 1) (Simulator.lv_order_count l))
       (Simulator.sb_asks b).

(** The datagrams of the simulator, piece by piece. *)
Definition incremental_packet_pieces (seq now : Z) (es : list MDIncrementalRefreshEntry)
    : list (list Z) :=
  [ le_bytes 4 seq; le_bytes 8 now;
    le_bytes 2 8; le_bytes 2 TEMPLATE_MD_INCREMENTAL_REFRESH; le_bytes 2 1; le_bytes 2 9;
    le_bytes 8 now;
    le_bytes 2 sizeof_MDIncrementalRefreshEntry; le_bytes 1 (Z.of_nat (length es));
    concat (List.map Simulator.incr_entry_bytes es) ].

Definition snapshot_packet_pieces (seq now last sid rpt : Z) (es : list MDSnapshotEntry)
    : list (list Z) :=
  [ le_bytes 4 seq; le_bytes 8 now;
    le_bytes 2 (sizeof_MDSnapshotFullRefresh - sizeof_SBEMessageHeader - sizeof_GroupHeader);
    le_bytes 2 TEMPLATE_MD_SNAPSHOT_FULL_REFRESH; le_bytes 2 1; le_bytes 2 9;
    le_bytes 4 last; le_bytes 4 sid; le_bytes 4 rpt; le_bytes 8 now;
    le_bytes 2 sizeof_MDSnapshotEntry; le_bytes 1 (Z.of_nat (length es));
    concat (List.map (fun e => concat (snap_entry_pieces e)) es) ].

Definition definition_packet_pieces (seq now : Z) (b : Simulator.SimulatedBook)
    : list (list Z) :=
  [ le_bytes 4 seq; le_bytes 8 now;
    le_bytes 2 (sizeof_SecurityDefinition - sizeof_SBEMessageHeader);
    le_bytes 2 TEMPLATE_SECURITY_DEFINITION; le_bytes 2 1; le_bytes 2 9;
    le_bytes 4 (Simulator.sb_security_id b);
    strncpy 19 (Simulator.sb_symbol b) ++ [0];
    le_bytes 8 (Simulator.sb_tick_size b); le_bytes 4 1; le_bytes 1 17 ].

Definition wf_level (l : Simulator.Level) : Prop :=
  is_i64 (Simulator.lv_price l) /\ is_i32 (Simulator.lv_quantity l) /\
  is_u8 (Simulator.lv_order_count l).

(** A side of the handler's book holding the simulator's five levels. *)
Definition sim_ladder (ls : list Simulator.Level) : list OrderBook.CmePriceLevel :=
  List.map (fun l => OrderBook.mkLevel (Simulator.lv_price l) (Simulator.lv_quantity l)
                                       (Simulator.lv_order_count l)) ls
  ++ replicate 5 OrderBook.level0.

(** A simulator with a sent packet behind it and a book at sequence 7,
    three ticks wide. *)
Definition sim_example : Simulator.CmeSimulator :=
  Simulator.mkSim (replicate 1500 0) 41 3 [5000].

Definition book_example : Simulator.SimulatedBook :=
  Simulator.initialize 45000000000 2500000
    (Simulator.mkSimBook SECURITY_ID_ESH26 (cstr "ESH26") [] [] 0 0 7).

End ExtraProps.

(** * Checked properties *)

(** ** The ladders *)

Section LadderFacts.
Import Protocol OrderBook BookProps.

Lemma u8_small x : 0 <= x < 256 -> u8 x = x.
Proof. intros H. unfold u8. apply Z.mod_small. lia. Qed.

(** A list of ten slots, named. *)
Lemma ten_slots {A} (a : list A) :
  length a = 10%nat ->
  exists a0 a1 a2 a3 a4 a5 a6 a7 a8 a9, a = [a0; a1; a2; a3; a4; a5; a6; a7; a8; a9].
Proof.
  intros H.
  do 10 (destruct a as [|? a]; [discriminate H|]).
  destruct a; [|discriminate H]. eauto 11.
Qed.

Lemma level_cases (level : Z) :
  (level =? 0) || (CME_MAX_DEPTH <? level) = false -> 0 <= level ->
  level = 1 \/ level = 2 \/ level = 3 \/ level = 4 \/ level = 5 \/
  level = 6 \/ level = 7 \/ level = 8 \/ level = 9 \/ level = 10.
Proof. unfold CME_MAX_DEPTH. intros H Hl. apply orb_false_iff in H as [H1 H2]. lia. Qed.

Lemma count_cases (cnt : Z) :
  0 <= cnt <= 10 ->
  cnt = 0 \/ cnt = 1 \/ cnt = 2 \/ cnt = 3 \/ cnt = 4 \/ cnt = 5 \/
  cnt = 6 \/ cnt = 7 \/ cnt = 8 \/ cnt = 9 \/ cnt = 10.
Proof. lia. Qed.

Lemma applySide_ignored level action px qty orders side :
  (level =? 0) || (CME_MAX_DEPTH <? level) = true ->
  applySide level action px qty orders side = side.
Proof. intros H. destruct side. unfold applySide. rewrite H. reflexivity. Qed.

Ltac split_levels H :=
  repeat (destruct H as [H|H]; [subst|]); try subst.

Ltac bool_hyps :=
  unfold CME_MAX_DEPTH in *;
  repeat match goal with
         | H : (_ <? _) = true |- _ => apply Z.ltb_lt in H
         | H : (_ <? _) = false |- _ => apply Z.ltb_ge in H
         | H : (_ =? _) = true |- _ => apply Z.eqb_eq in H
         | H : (_ =? _) = false |- _ => apply Z.eqb_neq in H
         end.

(** DeleteThru on one side: the first [level] slots are zeroed, the
    deeper ones are left as they were, and the count becomes zero. *)
Lemma applySide_DeleteThru level px qty orders a cnt :
  length a = 10%nat -> 1 <= level <= 10 ->
  applySide level DeleteThru px qty orders (a, cnt)
  = (replicate (Z.to_nat level) level0 ++ drop (Z.to_nat level) a, 0).
Proof.
  intros Ha Hl.
  destruct (ten_slots a Ha) as (a0&a1&a2&a3&a4&a5&a6&a7&a8&a9&->).
  assert (Hc : level = 1 \/ level = 2 \/ level = 3 \/ level = 4 \/ level = 5 \/
               level = 6 \/ level = 7 \/ level = 8 \/ level = 9 \/ level = 10) by lia.
  split_levels Hc; reflexivity.
Qed.

(** Shape: ten slots and a count within [0, 10] are kept by every action. *)
Lemma applySide_shape level action px qty orders a cnt :
  length a = 10%nat -> 0 <= cnt <= 10 -> 0 <= level ->
  let r := applySide level action px qty orders (a, cnt) in
  length (fst r) = 10%nat /\ 0 <= snd r <= 10.
Proof.
  intros Ha Hc Hl r. subst r.
  destruct ((level =? 0) || (CME_MAX_DEPTH <? level)) eqn:Hg.
  { rewrite applySide_ignored by exact Hg. simpl. auto. }
  destruct (ten_slots a Ha) as (a0&a1&a2&a3&a4&a5&a6&a7&a8&a9&->).
  pose proof (level_cases level Hg Hl) as Hcase.
  unfold applySide. rewrite Hg.
  destruct (action =? New) eqn:E0;
    [|destruct (action =? Change) eqn:E1;
      [|destruct (action =? Delete) eqn:E2;
        [|destruct (action =? DeleteThru) eqn:E3;
          [|destruct (action =? DeleteFrom) eqn:E4;
            [|destruct (action =? Overlay) eqn:E5]]]]];
    split_levels Hcase; cbn [fst snd]; (split; [reflexivity|]);
    repeat match goal with |- context [if ?c then _ else _] => destruct c eqn:? end;
    bool_hyps; try rewrite u8_small by lia; try (cbn; unfold u8; cbn; lia); try lia.
Qed.

Ltac clean_hyp H :=
  unfold side_clean in H; vm_compute in H;
  repeat match type of H with
         | Forall _ (_ :: _) =>
             let E := fresh "E" in
             let H' := fresh "H" in
             apply Forall_cons in H as [E H']; subst; rename H' into H
         end.

(** Every action addressing the occupied prefix keeps the slots beyond
    the count zeroed. *)
Lemma applySide_clean level action px qty orders a cnt :
  length a = 10%nat -> 0 <= cnt <= 10 -> 0 <= level ->
  side_in_prefix level action cnt -> side_clean a cnt ->
  let r := applySide level action px qty orders (a, cnt) in
  side_clean (fst r) (snd r).
Proof.
  intros Ha Hc Hl Hp Hs r. subst r.
  destruct ((level =? 0) || (CME_MAX_DEPTH <? level)) eqn:Hg.
  { rewrite applySide_ignored by exact Hg. exact Hs. }
  destruct (ten_slots a Ha) as (a0&a1&a2&a3&a4&a5&a6&a7&a8&a9&->).
  pose proof (level_cases level Hg Hl) as Hcase.
  pose proof (count_cases cnt Hc) as Hcnt.
  unfold side_in_prefix in Hp. rewrite Hg in Hp.
  unfold applySide. rewrite Hg. clear Hg Hl Hc Ha.
  destruct (action =? New) eqn:E0;
    [|destruct (action =? Change) eqn:E1;
      [|destruct (action =? Delete) eqn:E2;
        [|destruct (action =? DeleteThru) eqn:E3;
          [|destruct (action =? DeleteFrom) eqn:E4;
            [|destruct (action =? Overlay) eqn:E5]]]]];
    clear E0; try clear E1; try clear E2; try clear E3; try clear E4; try clear E5;
    split_levels Hcase; split_levels Hcnt; try lia; clear Hp;
    clean_hyp Hs; unfold side_clean; vm_compute; repeat constructor.
Qed.

Lemma applyBid_sides level action px qty orders b :
  bids_ (applyBid level action px qty orders b)
  = fst (applySide level action px qty orders (bids_ b, bid_count_ b)) /\
  bid_count_ (applyBid level action px qty orders b)
  = snd (applySide level action px qty orders (bids_ b, bid_count_ b)) /\
  asks_ (applyBid level action px qty orders b) = asks_ b /\
  ask_count_ (applyBid level action px qty orders b) = ask_count_ b.
Proof.
  unfold applyBid.
  destruct (applySide level action px qty orders (bids_ b, bid_count_ b)); auto.
Qed.

Lemma applyAsk_sides level action px qty orders b :
  asks_ (applyAsk level action px qty orders b)
  = fst (applySide level action px qty orders (asks_ b, ask_count_ b)) /\
  ask_count_ (applyAsk level action px qty orders b)
  = snd (applySide level action px qty orders (asks_ b, ask_count_ b)) /\
  bids_ (applyAsk level action px qty orders b) = bids_ b /\
  bid_count_ (applyAsk level action px qty orders b) = bid_count_ b.
Proof.
  unfold applyAsk.
  destruct (applySide level action px qty orders (asks_ b, ask_count_ b)); auto.
Qed.

Lemma setLastRptSeq_inv seq b : book_inv b -> book_inv (setLastRptSeq seq b).
Proof. intros H. exact H. Qed.

Lemma bump_seq_inv (seq : Z) b :
  book_inv b ->
  book_inv (if last_rpt_seq_ b <? seq then setLastRptSeq seq b else b).
Proof. intros H. destruct (last_rpt_seq_ b <? seq); [apply setLastRptSeq_inv|]; exact H. Qed.

Lemma applyBid_inv level action px qty orders b :
  0 <= level -> side_in_prefix level action (bid_count_ b) ->
  book_inv b -> book_inv (applyBid level action px qty orders b).
Proof.
  intros Hl Hp [(Hb & Ha & Hcb & Hca) [Sb Sa]].
  destruct (applyBid_sides level action px qty orders b) as (E1 & E2 & E3 & E4).
  pose proof (applySide_shape level action px qty orders _ _ Hb Hcb Hl) as [L C].
  pose proof (applySide_clean level action px qty orders _ _ Hb Hcb Hl Hp Sb) as K.
  unfold book_inv, book_shape, book_clean.
  rewrite E1, E2, E3, E4. auto.
Qed.

Lemma applyAsk_inv level action px qty orders b :
  0 <= level -> side_in_prefix level action (ask_count_ b) ->
  book_inv b -> book_inv (applyAsk level action px qty orders b).
Proof.
  intros Hl Hp [(Hb & Ha & Hcb & Hca) [Sb Sa]].
  destruct (applyAsk_sides level action px qty orders b) as (E1 & E2 & E3 & E4).
  pose proof (applySide_shape level action px qty orders _ _ Ha Hca Hl) as [L C].
  pose proof (applySide_clean level action px qty orders _ _ Ha Hca Hl Hp Sa) as K.
  unfold book_inv, book_shape, book_clean.
  rewrite E1, E2, E3, E4. auto.
Qed.

Lemma applyUpdate_inv entry b :
  wf_incr entry -> entry_in_prefix entry b ->
  book_inv b -> book_inv (applyUpdate entry b).
Proof.
  intros Hwf Hp Hb.
  assert (Hl : 0 <= md_price_level entry) by (unfold wf_incr, is_u8 in Hwf; tauto).
  unfold applyUpdate. apply bump_seq_inv.
  unfold entry_in_prefix in Hp.
  destruct ((md_entry_type entry =? Bid) || (md_entry_type entry =? ImpliedBid)).
  { apply applyBid_inv; assumption. }
  destruct ((md_entry_type entry =? Offer) || (md_entry_type entry =? ImpliedOffer)).
  { apply applyAsk_inv; assumption. }
  destruct (md_entry_type entry =? Trade); exact Hb.
Qed.

Lemma zero_all_clean a cnt : side_clean (zero_all a) cnt.
Proof.
  unfold side_clean. apply Forall_drop.
  induction a as [|x a IH]; simpl; constructor; [reflexivity | exact IH].
Qed.

Lemma zero_all_length a : length (zero_all a) = length a.
Proof. unfold zero_all. apply List.length_map. Qed.

Lemma clear_inv b :
  length (bids_ b) = 10%nat -> length (asks_ b) = 10%nat -> book_inv (clear b).
Proof.
  intros Hb Ha. unfold book_inv, book_shape, book_clean, clear; simpl.
  rewrite !zero_all_length. repeat split; try assumption; try lia; apply zero_all_clean.
Qed.

Lemma new_book_inv security_id : book_inv (new_book security_id).
Proof. unfold new_book. apply clear_inv; reflexivity. Qed.

(** One snapshot entry is an Overlay-like write: slot [level - 1] is
    set and the count raised to cover it. *)
Lemma snapshot_write_side level lv a cnt :
  length a = 10%nat -> 0 <= cnt <= 10 -> 0 <= level ->
  (level =? 0) || (CME_MAX_DEPTH <? level) = false ->
  side_clean a cnt ->
  let idx := Z.to_nat (level - 1) in
  let cnt' := if cnt <? Z.of_nat idx + 1 then u8 (Z.of_nat idx + 1) else cnt in
  length (<[idx := lv]> a) = 10%nat /\ 0 <= cnt' <= 10 /\ side_clean (<[idx := lv]> a) cnt'.
Proof.
  intros Ha Hc Hl Hg Hs idx cnt'. subst idx cnt'.
  destruct (ten_slots a Ha) as (a0&a1&a2&a3&a4&a5&a6&a7&a8&a9&->).
  pose proof (level_cases level Hg Hl) as Hcase.
  pose proof (count_cases cnt Hc) as Hcnt.
  clear Hg Hl Hc Ha.
  split_levels Hcase; split_levels Hcnt;
    clean_hyp Hs; unfold side_clean; vm_compute;
    (split; [reflexivity | split; [split; discriminate | repeat constructor]]).
Qed.

Lemma applySnapshotEntry_inv b entry :
  wf_snap entry -> book_inv b -> book_inv (applySnapshotEntry b entry).
Proof.
  intros Hwf Hinv. pose proof Hinv as [(Hb & Ha & Hcb & Hca) [Sb Sa]].
  assert (Hl : 0 <= snap_md_price_level entry) by (unfold wf_snap, is_u8 in Hwf; tauto).
  unfold applySnapshotEntry.
  destruct ((snap_md_price_level entry =? 0) || (CME_MAX_DEPTH <? snap_md_price_level entry))
    eqn:Hg.
  { exact Hinv. }
  destruct (snap_md_entry_type entry =? Bid).
  { destruct (snapshot_write_side (snap_md_price_level entry)
                (mkLevel (snap_md_entry_px entry) (snap_md_entry_size entry)
                         (snap_number_of_orders entry))
                _ _ Hb Hcb Hl Hg Sb) as (L & C & K).
    unfold book_inv, book_shape, book_clean; simpl. auto. }
  destruct (snap_md_entry_type entry =? Offer).
  { destruct (snapshot_write_side (snap_md_price_level entry)
                (mkLevel (snap_md_entry_px entry) (snap_md_entry_size entry)
                         (snap_number_of_orders entry))
                _ _ Ha Hca Hl Hg Sa) as (L & C & K).
    unfold book_inv, book_shape, book_clean; simpl. auto. }
  exact Hinv.
Qed.

Lemma applySnapshot_inv entries count b :
  Forall wf_snap entries ->
  length (bids_ b) = 10%nat -> length (asks_ b) = 10%nat ->
  book_inv (applySnapshot entries count b).
Proof.
  intros Hwf Hb Ha. unfold applySnapshot.
  assert (Hwf' : Forall wf_snap (take (Z.to_nat count) entries)) by (apply Forall_take; exact Hwf).
  pose proof (clear_inv b Hb Ha) as Hinv.
  revert Hwf' Hinv. generalize (clear b). generalize (take (Z.to_nat count) entries).
  intros es. induction es as [|e es IH]; intros c Hes Hc; simpl; [exact Hc|].
  apply Forall_cons in Hes as [He Hes].
  apply IH; [exact Hes | apply applySnapshotEntry_inv; assumption].
Qed.

Lemma reachable_in_prefix_inv b : reachable_in_prefix b -> book_inv b.
Proof.
  induction 1 as [sid | e b Hwf Hp Hr IH | es n b Hwf Hn Hr IH].
  - apply new_book_inv.
  - apply applyUpdate_inv; assumption.
  - destruct IH as [(Hb & Ha & _) _]. apply applySnapshot_inv; assumption.
Qed.

End LadderFacts.

(** Closed numeric side conditions, by evaluation. *)
Ltac by_eval :=
  repeat split; vm_compute; (reflexivity || (let H := fresh in intro H; discriminate H)).

Section LadderClaims.
Import Protocol OrderBook BookProps.

(** C2 (as stated, refuted): after DeleteThru at level 2 on bids at
    positions 1..5 the count is zero, yet the bid slots are not all zero. *)
Lemma C2_delete_thru_leaves_deeper_slots :
  ~ (bid_count_ five_bids_delete_thru_2 = 0 /\
     Forall (fun l => l = level0) (bids_ five_bids_delete_thru_2)).
Proof.
  intros [_ H].
  assert (E : bids_ five_bids_delete_thru_2 !! 2%nat = Some (mkLevel 44995000000 10 1))
    by (vm_compute; reflexivity).
  pose proof (proj1 (Forall_lookup _ _) H _ _ E) as Hz. simpl in Hz. inversion Hz.
Qed.

(** C2 (amended): DeleteThru at level L (1 <= L <= 10) zeroes positions
    1..L of the addressed side, sets its count to 0 and leaves positions
    L+1..10 as they were; the other side is untouched. *)
Theorem C2_delete_thru_clears_prefix (level px qty orders : Z) (b : CmeOrderBook) :
  length (bids_ b) = 10%nat -> length (asks_ b) = 10%nat -> 1 <= level <= 10 ->
  (bids_ (applyBid level DeleteThru px qty orders b)
   = replicate (Z.to_nat level) level0 ++ drop (Z.to_nat level) (bids_ b) /\
   bid_count_ (applyBid level DeleteThru px qty orders b) = 0 /\
   asks_ (applyBid level DeleteThru px qty orders b) = asks_ b) /\
  (asks_ (applyAsk level DeleteThru px qty orders b)
   = replicate (Z.to_nat level) level0 ++ drop (Z.to_nat level) (asks_ b) /\
   ask_count_ (applyAsk level DeleteThru px qty orders b) = 0 /\
   bids_ (applyAsk level DeleteThru px qty orders b) = bids_ b).
Proof.
  intros Hb Ha Hl.
  destruct (applyBid_sides level DeleteThru px qty orders b) as (B1 & B2 & B3 & _).
  destruct (applyAsk_sides level DeleteThru px qty orders b) as (A1 & A2 & A3 & _).
  rewrite B1, B2, B3, A1, A2, A3.
  rewrite !applySide_DeleteThru by assumption. simpl. auto.
Qed.

(** C2 (amended) on the book of scenario C: the bids after DeleteThru at
    level 2 are two zero slots followed by the old slots 2..9. *)
Lemma C2_delete_thru_witness :
  (length (bids_ five_bids) = 10%nat /\ length (asks_ five_bids) = 10%nat /\ 1 <= 2 <= 10) /\
  bids_ (applyBid 2 DeleteThru 0 0 0 five_bids)
  = replicate (Z.to_nat 2) level0 ++ drop (Z.to_nat 2) (bids_ five_bids).
Proof.
  assert (Hb : length (bids_ five_bids) = 10%nat) by (vm_compute; reflexivity).
  assert (Ha : length (asks_ five_bids) = 10%nat) by (vm_compute; reflexivity).
  assert (Hl : 1 <= 2 <= 10) by lia.
  split; [auto|].
  exact (proj1 (proj1 (C2_delete_thru_clears_prefix 2 0 0 0 five_bids Hb Ha Hl))).
Defined.

(** C3 (as stated, refuted): a Change at level 1 on a fresh book writes
    slot 0 and leaves the count at 0. *)
Lemma C3_change_on_empty_is_stale :
  reachable change_on_empty /\ ~ book_clean change_on_empty.
Proof.
  split.
  - apply reach_update; [|apply reach_new].
    by_eval.
  - intros [H _].
    assert (E : drop (Z.to_nat (bid_count_ change_on_empty)) (bids_ change_on_empty) !! 0%nat
                = Some (mkLevel 45000000000 10 3)) by (vm_compute; reflexivity).
    pose proof (proj1 (Forall_lookup _ _) H _ _ E) as Hz. simpl in Hz. inversion Hz.
Qed.

(** C3 (amended): in every book state reached from a fresh book through
    snapshot applications and incremental entries that address the
    occupied prefix (New at level <= count+1, Change or Delete at
    level <= count, DeleteThru at level >= count; DeleteFrom, Overlay,
    trades and out-of-range levels unrestricted), all slots at indices at
    or beyond the side's count are zero, on both sides. *)
Theorem C3_slots_beyond_count_zero (b : CmeOrderBook) :
  reachable_in_prefix b -> book_clean b.
Proof. intros H. apply reachable_in_prefix_inv in H. exact (proj2 H). Qed.

(** C3 (amended) on scenario B: an Overlay at ask level 3 on a fresh book. *)
Lemma C3_slots_beyond_count_witness :
  reachable_in_prefix overlay_on_empty /\ book_clean overlay_on_empty.
Proof.
  assert (R : reachable_in_prefix overlay_on_empty).
  { apply rip_update; [| exact I | apply rip_new].
    by_eval. }
  split; [exact R | exact (C3_slots_beyond_count_zero overlay_on_empty R)].
Defined.

Lemma applySnapshotEntry_skip b e :
  bid_or_offer e = false -> applySnapshotEntry b e = b.
Proof.
  unfold bid_or_offer, applySnapshotEntry. intros H.
  apply orb_false_iff in H as [H1 H2]. rewrite H1, H2.
  destruct ((snap_md_price_level e =? 0) || (CME_MAX_DEPTH <? snap_md_price_level e));
    reflexivity.
Qed.

Lemma foldl_snapshot_filter es : forall b,
  foldl applySnapshotEntry b es = foldl applySnapshotEntry b (List.filter bid_or_offer es).
Proof.
  induction es as [|e es IH]; intros b; simpl; [reflexivity|].
  destruct (bid_or_offer e) eqn:E; simpl.
  - apply IH.
  - rewrite applySnapshotEntry_skip by exact E. apply IH.
Qed.

Lemma level_one_to_ten (lvl : Z) :
  1 <= lvl <= 10 ->
  lvl = 1 \/ lvl = 2 \/ lvl = 3 \/ lvl = 4 \/ lvl = 5 \/
  lvl = 6 \/ lvl = 7 \/ lvl = 8 \/ lvl = 9 \/ lvl = 10.
Proof. lia. Qed.

(** What one snapshot entry typed Bid or Offer writes: its level, into
    the slot of its side, raising that side's count to the level if it
    was below; the other side is left alone. *)
Lemma applySnapshotEntry_writes (b : CmeOrderBook) (px sz lvl ord : Z) :
  length (bids_ b) = 10%nat -> length (asks_ b) = 10%nat -> 1 <= lvl <= 10 ->
  (bids_ (applySnapshotEntry b (mkSnap px sz Bid lvl ord)) !! Z.to_nat (lvl - 1)
   = Some (mkLevel px sz ord) /\
   bid_count_ (applySnapshotEntry b (mkSnap px sz Bid lvl ord))
   = (if bid_count_ b <? lvl then lvl else bid_count_ b) /\
   asks_ (applySnapshotEntry b (mkSnap px sz Bid lvl ord)) = asks_ b /\
   ask_count_ (applySnapshotEntry b (mkSnap px sz Bid lvl ord)) = ask_count_ b) /\
  (asks_ (applySnapshotEntry b (mkSnap px sz Offer lvl ord)) !! Z.to_nat (lvl - 1)
   = Some (mkLevel px sz ord) /\
   ask_count_ (applySnapshotEntry b (mkSnap px sz Offer lvl ord))
   = (if ask_count_ b <? lvl then lvl else ask_count_ b) /\
   bids_ (applySnapshotEntry b (mkSnap px sz Offer lvl ord)) = bids_ b /\
   bid_count_ (applySnapshotEntry b (mkSnap px sz Offer lvl ord)) = bid_count_ b).
Proof.
  intros Hb Ha Hl. destruct b as [sid lrs bids asks bc ac ltp ltq tv].
  cbn [bids_ asks_ bid_count_ ask_count_] in *.
  destruct (ten_slots bids Hb) as (b0&b1&b2&b3&b4&b5&b6&b7&b8&b9&->).
  destruct (ten_slots asks Ha) as (a0&a1&a2&a3&a4&a5&a6&a7&a8&a9&->).
  apply level_one_to_ten in Hl.
  repeat (destruct Hl as [Hl|Hl]; [subst lvl; repeat split; reflexivity|]).
  subst lvl. repeat split; reflexivity.
Qed.

(** What an incremental entry typed ImpliedBid or ImpliedOffer writes
    with New, Change or Overlay: its level, into the slot of the bid or
    of the ask ladder, the other ladder left alone. *)
Lemma applyUpdate_implied_writes (b : CmeOrderBook) (px sz sid rpt act lvl ord : Z) :
  length (bids_ b) = 10%nat -> length (asks_ b) = 10%nat -> 1 <= lvl <= 10 ->
  act = New \/ act = Change \/ act = Overlay ->
  (bids_ (applyUpdate (mkIncr px sz sid rpt ImpliedBid act lvl ord) b) !! Z.to_nat (lvl - 1)
   = Some (mkLevel px sz ord) /\
   asks_ (applyUpdate (mkIncr px sz sid rpt ImpliedBid act lvl ord) b) = asks_ b) /\
  (asks_ (applyUpdate (mkIncr px sz sid rpt ImpliedOffer act lvl ord) b) !! Z.to_nat (lvl - 1)
   = Some (mkLevel px sz ord) /\
   bids_ (applyUpdate (mkIncr px sz sid rpt ImpliedOffer act lvl ord) b) = bids_ b).
Proof.
  intros Hb Ha Hl Hact.
  assert (G : forall b', (if last_rpt_seq_ b' <? rpt then setLastRptSeq rpt b' else b')
                         = mkBook (security_id_ b')
                                  (if last_rpt_seq_ b' <? rpt then rpt else last_rpt_seq_ b')
                                  (bids_ b') (asks_ b') (bid_count_ b') (ask_count_ b')
                                  (last_trade_price_ b') (last_trade_qty_ b')
                                  (total_volume_ b')).
  { intros [? ? ? ? ? ? ? ? ?]. cbn. destruct (_ <? rpt); reflexivity. }
  unfold applyUpdate.
  cbn [md_update_action md_entry_type md_price_level md_entry_px md_entry_size
       number_of_orders rpt_seq].
  change ((ImpliedBid =? Bid) || (ImpliedBid =? ImpliedBid)) with true.
  change ((ImpliedOffer =? Bid) || (ImpliedOffer =? ImpliedBid)) with false.
  change ((ImpliedOffer =? Offer) || (ImpliedOffer =? ImpliedOffer)) with true.
  cbv iota. rewrite !G. cbn [bids_ asks_].
  destruct (applyBid_sides lvl act px sz ord b) as (B1 & _ & B3 & _).
  destruct (applyAsk_sides lvl act px sz ord b) as (A1 & _ & A3 & _).
  rewrite B1, B3, A1, A3.
  destruct (ten_slots (bids_ b) Hb) as (b0&b1&b2&b3&b4&b5&b6&b7&b8&b9&->).
  destruct (ten_slots (asks_ b) Ha) as (a0&a1&a2&a3&a4&a5&a6&a7&a8&a9&->).
  apply level_one_to_ten in Hl.
  destruct Hact as [-> | [-> | ->]];
    repeat (destruct Hl as [Hl|Hl]; [subst lvl; repeat split; reflexivity|]);
    subst lvl; repeat split; reflexivity.
Qed.

(** C9: a snapshot application is determined by its Bid (0) and Offer (1)
    entries alone: entries of any other type, ImpliedBid, ImpliedOffer and
    Trade among them, leave the book as it is, while an entry typed Bid
    or Offer at a level in 1..10 is written: its level sits in the slot
    of its side afterwards and the side's count covers it. So a snapshot
    of one Bid entry shows the level with a bid count equal to its
    position, and the snapshot of the same entry typed ImpliedBid is the
    cleared book, with a zero level in that slot. On the incremental path
    an ImpliedBid entry acts exactly as the same entry typed Bid, and an
    ImpliedOffer entry exactly as the same entry typed Offer, and they
    do update the ladders: with New, Change or Overlay at a level in
    1..10 the entry's level sits in the slot of the bid ladder, or of
    the ask ladder, afterwards. *)
Theorem C9_snapshot_ignores_implied :
  (forall (entries : list MDSnapshotEntry) (count : Z) (b : CmeOrderBook),
     let kept := List.filter bid_or_offer (take (Z.to_nat count) entries) in
     applySnapshot entries count b = applySnapshot kept (Z.of_nat (length kept)) b) /\
  (forall (b : CmeOrderBook) (px sz lvl ord : Z),
     applySnapshotEntry b (mkSnap px sz ImpliedBid lvl ord) = b /\
     applySnapshotEntry b (mkSnap px sz ImpliedOffer lvl ord) = b /\
     applySnapshotEntry b (mkSnap px sz Trade lvl ord) = b) /\
  (forall (b : CmeOrderBook) (px sz sid rpt act lvl ord : Z),
     applyUpdate (mkIncr px sz sid rpt ImpliedBid act lvl ord) b
     = applyUpdate (mkIncr px sz sid rpt Bid act lvl ord) b /\
     applyUpdate (mkIncr px sz sid rpt ImpliedOffer act lvl ord) b
     = applyUpdate (mkIncr px sz sid rpt Offer act lvl ord) b) /\
  (forall (b : CmeOrderBook) (px sz lvl ord : Z),
     length (bids_ b) = 10%nat -> length (asks_ b) = 10%nat -> 1 <= lvl <= 10 ->
     (bids_ (applySnapshotEntry b (mkSnap px sz Bid lvl ord)) !! Z.to_nat (lvl - 1)
      = Some (mkLevel px sz ord) /\
      bid_count_ (applySnapshotEntry b (mkSnap px sz Bid lvl ord))
      = (if bid_count_ b <? lvl then lvl else bid_count_ b) /\
      asks_ (applySnapshotEntry b (mkSnap px sz Bid lvl ord)) = asks_ b /\
      ask_count_ (applySnapshotEntry b (mkSnap px sz Bid lvl ord)) = ask_count_ b) /\
     (asks_ (applySnapshotEntry b (mkSnap px sz Offer lvl ord)) !! Z.to_nat (lvl - 1)
      = Some (mkLevel px sz ord) /\
      ask_count_ (applySnapshotEntry b (mkSnap px sz Offer lvl ord))
      = (if ask_count_ b <? lvl then lvl else ask_count_ b) /\
      bids_ (applySnapshotEntry b (mkSnap px sz Offer lvl ord)) = bids_ b /\
      bid_count_ (applySnapshotEntry b (mkSnap px sz Offer lvl ord)) = bid_count_ b) /\
     (bids_ (applySnapshot [mkSnap px sz Bid lvl ord] 1 b) !! Z.to_nat (lvl - 1)
      = Some (mkLevel px sz ord) /\
      bid_count_ (applySnapshot [mkSnap px sz Bid lvl ord] 1 b) = lvl) /\
     (applySnapshot [mkSnap px sz ImpliedBid lvl ord] 1 b = clear b /\
      bids_ (applySnapshot [mkSnap px sz ImpliedBid lvl ord] 1 b) !! Z.to_nat (lvl - 1)
      = Some level0 /\
      bid_count_ (applySnapshot [mkSnap px sz ImpliedBid lvl ord] 1 b) = 0)) /\
  (forall (b : CmeOrderBook) (px sz sid rpt act lvl ord : Z),
     length (bids_ b) = 10%nat -> length (asks_ b) = 10%nat -> 1 <= lvl <= 10 ->
     act = New \/ act = Change \/ act = Overlay ->
     (bids_ (applyUpdate (mkIncr px sz sid rpt ImpliedBid act lvl ord) b)
        !! Z.to_nat (lvl - 1) = Some (mkLevel px sz ord) /\
      asks_ (applyUpdate (mkIncr px sz sid rpt ImpliedBid act lvl ord) b) = asks_ b) /\
     (asks_ (applyUpdate (mkIncr px sz sid rpt ImpliedOffer act lvl ord) b)
        !! Z.to_nat (lvl - 1) = Some (mkLevel px sz ord) /\
      bids_ (applyUpdate (mkIncr px sz sid rpt ImpliedOffer act lvl ord) b) = bids_ b)).
Proof.
  split; [|split; [|split; [|split]]].
  - intros entries count b kept. subst kept. unfold applySnapshot.
    rewrite Nat2Z.id, firstn_all.
    apply foldl_snapshot_filter.
  - intros b px sz lvl ord.
    repeat split; apply applySnapshotEntry_skip; reflexivity.
  - intros b px sz sid rpt act lvl ord. split; reflexivity.
  - intros b px sz lvl ord Hb Ha Hl.
    destruct (applySnapshotEntry_writes b px sz lvl ord Hb Ha Hl) as [Wb Wa].
    split; [exact Wb|]. split; [exact Wa|].
    assert (Hcb : length (bids_ (clear b)) = 10%nat)
      by (cbn; rewrite zero_all_length; exact Hb).
    assert (Hca : length (asks_ (clear b)) = 10%nat)
      by (cbn; rewrite zero_all_length; exact Ha).
    split.
    + unfold applySnapshot. change (Z.to_nat 1) with 1%nat. cbn [take firstn foldl].
      destruct (applySnapshotEntry_writes (clear b) px sz lvl ord Hcb Hca Hl)
        as [(W1 & W2 & _) _].
      split; [exact W1|]. rewrite W2. cbn [clear bid_count_].
      replace (0 <? lvl) with true by (symmetry; apply Z.ltb_lt; lia). reflexivity.
    + assert (E : applySnapshot [mkSnap px sz ImpliedBid lvl ord] 1 b = clear b).
      { unfold applySnapshot. change (Z.to_nat 1) with 1%nat. cbn [take firstn foldl].
        apply applySnapshotEntry_skip. reflexivity. }
      rewrite E. split; [reflexivity|]. split; [|reflexivity].
      cbn [clear bids_]. unfold zero_all.
      rewrite list_lookup_fmap.
      destruct (bids_ b !! Z.to_nat (lvl - 1)) as [l|] eqn:El; [reflexivity|].
      apply lookup_ge_None in El. lia.
  - intros b px sz sid rpt act lvl ord Hb Ha Hl Hact.
    exact (applyUpdate_implied_writes b px sz sid rpt act lvl ord Hb Ha Hl Hact).
Qed.

(** C9 on the five-bid book: a snapshot entry typed Bid at level 3 is
    written, and so is an incremental Overlay typed ImpliedBid. *)
Lemma C9_snapshot_ignores_implied_witness :
  (length (bids_ five_bids) = 10%nat /\ length (asks_ five_bids) = 10%nat /\
   1 <= 3 <= 10 /\ (Overlay = New \/ Overlay = Change \/ Overlay = Overlay)) /\
  bids_ (applySnapshotEntry five_bids (mkSnap 44000000000 7 Bid 3 2)) !! Z.to_nat (3 - 1)
  = Some (mkLevel 44000000000 7 2) /\
  bids_ (applyUpdate (mkIncr 44000000000 7 SECURITY_ID_ESH26 9 ImpliedBid Overlay 3 2)
                     five_bids) !! Z.to_nat (3 - 1)
  = Some (mkLevel 44000000000 7 2).
Proof.
  assert (Hb : length (bids_ five_bids) = 10%nat) by (vm_compute; reflexivity).
  assert (Ha : length (asks_ five_bids) = 10%nat) by (vm_compute; reflexivity).
  assert (Hl : 1 <= 3 <= 10) by lia.
  assert (Hact : Overlay = New \/ Overlay = Change \/ Overlay = Overlay)
    by (right; right; reflexivity).
  split; [exact (conj Hb (conj Ha (conj Hl Hact)))|].
  split.
  - exact (proj1 (proj1 (proj1 (proj2 (proj2 (proj2 C9_snapshot_ignores_implied)))
                           five_bids 44000000000 7 3 2 Hb Ha Hl))).
  - exact (proj1 (proj1 (proj2 (proj2 (proj2 (proj2 C9_snapshot_ignores_implied)))
                           five_bids 44000000000 7 SECURITY_ID_ESH26 9 Overlay 3 2
                           Hb Ha Hl Hact))).
Defined.

(** The conversion loop of [getSnapshot] fills slot [i] from slot [i]. *)
Lemma convert_loop_lookup (f : nat -> MarketData.PriceLevel) n : forall s acc i,
  (s + n <= length acc)%nat -> (s <= i < s + n)%nat ->
  foldl (fun acc i => <[i := f i]> acc) acc (seq s n) !! i = Some (f i).
Proof.
  induction n as [|n IH]; intros s acc i Hlen Hi; [lia|].
  simpl. destruct (decide (i = s)) as [->|Hne].
  - clear IH Hi.
    assert (G : forall m t (acc' : list MarketData.PriceLevel),
               (s < t)%nat ->
               foldl (fun acc i => <[i := f i]> acc) acc' (seq t m) !! s = acc' !! s).
    { induction m as [|m IHm]; intros t acc' Ht; simpl; [reflexivity|].
      rewrite IHm by lia. apply list_lookup_insert_ne. lia. }
    rewrite G by lia. apply list_lookup_insert_eq. lia.
  - apply IH; [rewrite length_insert; lia | lia].
Qed.

Lemma convert_side_lookup a cnt i l :
  a !! i = Some l -> Z.of_nat i < Z.min cnt MarketData.MAX_DEPTH ->
  MarketData.levels (convert_side a cnt) !! i = Some (convert_level l) /\
  MarketData.count (convert_side a cnt) = Z.min cnt MarketData.MAX_DEPTH.
Proof.
  intros Hl Hi. unfold convert_side. cbn [MarketData.levels MarketData.count].
  split; [|reflexivity].
  rewrite (convert_loop_lookup (fun i => convert_level (default level0 (a !! i)))).
  - rewrite Hl. reflexivity.
  - rewrite length_replicate. unfold MarketData.MAX_DEPTH in *. lia.
  - lia.
Qed.

(** C10: the snapshot handed to the publisher carries, for every stored
    level within the count (and for the last trade), the price
    [(p quot 1000) mod 2^32], where [quot] truncates toward zero: a
    negative stored price is published as the two's-complement wrap of
    its truncated quotient. No level is dropped because of its price: the
    published count is min(count, 10) on each side. *)
Theorem C10_negative_price_wraps (b : CmeOrderBook) (i : nat) (l : CmePriceLevel) :
  price l < 0 ->
  (bids_ b !! i = Some l -> Z.of_nat i < Z.min (bid_count_ b) 10 ->
   exists p, MarketData.levels (MarketData.bids (getSnapshot b)) !! i = Some p /\
             MarketData.pl_price p = (Z.quot (price l) 1000) mod 2 ^ 32 /\
             MarketData.count (MarketData.bids (getSnapshot b)) = Z.min (bid_count_ b) 10) /\
  (asks_ b !! i = Some l -> Z.of_nat i < Z.min (ask_count_ b) 10 ->
   exists p, MarketData.levels (MarketData.asks (getSnapshot b)) !! i = Some p /\
             MarketData.pl_price p = (Z.quot (price l) 1000) mod 2 ^ 32 /\
             MarketData.count (MarketData.asks (getSnapshot b)) = Z.min (ask_count_ b) 10) /\
  (last_trade_price_ b = price l ->
   MarketData.last_price (getSnapshot b) = (Z.quot (price l) 1000) mod 2 ^ 32).
Proof.
  intros _. split; [|split].
  - intros Hl Hi.
    destruct (convert_side_lookup (bids_ b) (bid_count_ b) i l Hl Hi) as [E C].
    exists (convert_level l). split; [exact E | split; [reflexivity | exact C]].
  - intros Hl Hi.
    destruct (convert_side_lookup (asks_ b) (ask_count_ b) i l Hl Hi) as [E C].
    exists (convert_level l). split; [exact E | split; [reflexivity | exact C]].
  - intros E. unfold getSnapshot; cbn [MarketData.last_price]. rewrite E. reflexivity.
Qed.

(** C10 on a best bid of -2500: published as (-2) mod 2^32. *)
Lemma C10_negative_price_witness :
  (-2500 < 0 /\ bids_ negative_bid !! 0%nat = Some (mkLevel (-2500) 7 1) /\
   Z.of_nat 0 < Z.min (bid_count_ negative_bid) 10) /\
  exists p, MarketData.levels (MarketData.bids (getSnapshot negative_bid)) !! 0%nat = Some p /\
            MarketData.pl_price p = (Z.quot (-2500) 1000) mod 2 ^ 32 /\
            MarketData.count (MarketData.bids (getSnapshot negative_bid))
            = Z.min (bid_count_ negative_bid) 10.
Proof.
  assert (Hn : price (mkLevel (-2500) 7 1) < 0) by reflexivity.
  assert (Hl : bids_ negative_bid !! 0%nat = Some (mkLevel (-2500) 7 1))
    by (vm_compute; reflexivity).
  assert (Hi : Z.of_nat 0 < Z.min (bid_count_ negative_bid) 10) by (vm_compute; reflexivity).
  split; [auto|].
  exact (proj1 (C10_negative_price_wraps negative_bid 0%nat (mkLevel (-2500) 7 1) Hn) Hl Hi).
Defined.

End LadderClaims.

(** ** The recovery state machine *)

Section RecoveryClaims.
Import Protocol Recovery FeedProps.

Lemma onIncremental_advance (rm : RecoveryManager) sid rpt st :
  states_ rm !! sid = Some st -> state st = Normal ->
  last_good_rpt_seq st < rpt <= expected_rpt_seq st ->
  onIncrementalMessage sid rpt rm
  = (true,
     mkRM (<[sid := mkSRS Normal (u32 (rpt + 1)) rpt (snapshot_rpt_seq st)
                          (gap_detected_time st) (recovery_attempts st)
                          (buffered_updates st)]> (states_ rm))
          (stats_ rm)).
Proof.
  intros Hst Hn [Hlo Hhi]. unfold onIncrementalMessage. rewrite Hst, Hn.
  replace (last_good_rpt_seq st <=? rpt) with true by (symmetry; apply Z.leb_le; lia).
  replace (rpt <=? expected_rpt_seq st) with true by (symmetry; apply Z.leb_le; lia).
  replace (last_good_rpt_seq st <? rpt) with true by (symmetry; apply Z.ltb_lt; lia).
  reflexivity.
Qed.

Lemma onIncremental_repeat (rm : RecoveryManager) sid rpt st :
  states_ rm !! sid = Some st -> state st = Normal ->
  rpt = last_good_rpt_seq st -> rpt <= expected_rpt_seq st ->
  onIncrementalMessage sid rpt rm = (true, rm).
Proof.
  intros Hst Hn -> Hhi. unfold onIncrementalMessage. rewrite Hst, Hn.
  rewrite Z.leb_refl, Z.ltb_irrefl.
  replace (last_good_rpt_seq st <=? expected_rpt_seq st) with true
    by (symmetry; apply Z.leb_le; lia).
  reflexivity.
Qed.

Lemma onIncremental_in_recovery (rm : RecoveryManager) sid rpt st :
  states_ rm !! sid = Some st -> state st <> Normal ->
  onIncrementalMessage sid rpt rm = (false, mkRM (states_ rm) (drop_one (stats_ rm))).
Proof.
  intros Hst Hn. unfold onIncrementalMessage. rewrite Hst.
  destruct (state st); [contradiction | reflexivity | reflexivity].
Qed.

(** C7 (as stated, refuted): at [rpt_seq = 2^32 - 1] the first entry is
    accepted in Normal and moves [expected_rpt_seq] to 0 (the 32-bit
    successor), so the second entry with the same sequence is rejected
    and the instrument goes to GapDetected. *)
Lemma C7_repeat_at_wrap_rejected :
  getState SECURITY_ID_ESH26 rm_near_wrap = Normal /\
  fst (onIncrementalMessage SECURITY_ID_ESH26 4294967295 rm_near_wrap) = true /\
  fst (onIncrementalMessage SECURITY_ID_ESH26 4294967295
         (snd (onIncrementalMessage SECURITY_ID_ESH26 4294967295 rm_near_wrap))) = false /\
  getState SECURITY_ID_ESH26
    (snd (onIncrementalMessage SECURITY_ID_ESH26 4294967295
            (snd (onIncrementalMessage SECURITY_ID_ESH26 4294967295 rm_near_wrap))))
  = GapDetected.
Proof. repeat split; vm_compute; reflexivity. Qed.

(** C7 (amended): in Normal state, for an in-sequence [rpt_seq]
    ([last_good <= rpt_seq <= expected]) below [2^32 - 1], two successive
    entries carrying that [rpt_seq] are both accepted; the first, when
    [rpt_seq] exceeds [last_good_rpt_seq], sets [last_good_rpt_seq] to it
    and [expected_rpt_seq] to [rpt_seq + 1] and stays in Normal; the
    second leaves the whole recovery manager as the first left it. *)
Theorem C7_same_seq_idempotent (rm : RecoveryManager) (sid rpt : Z)
    (st : SecurityRecoveryState) :
  states_ rm !! sid = Some st -> state st = Normal ->
  last_good_rpt_seq st <= rpt <= expected_rpt_seq st ->
  0 <= rpt < 2 ^ 32 - 1 ->
  let r1 := onIncrementalMessage sid rpt rm in
  let r2 := onIncrementalMessage sid rpt (snd r1) in
  fst r1 = true /\ fst r2 = true /\ snd r2 = snd r1 /\
  (last_good_rpt_seq st < rpt ->
   exists st1, states_ (snd r1) !! sid = Some st1 /\ state st1 = Normal /\
               last_good_rpt_seq st1 = rpt /\ expected_rpt_seq st1 = rpt + 1) /\
  (rpt = last_good_rpt_seq st -> snd r1 = rm).
Proof.
  intros Hst Hn [Hlo Hhi] Hr r1 r2. subst r1 r2.
  assert (Hu : u32 (rpt + 1) = rpt + 1) by (unfold u32; apply Z.mod_small; lia).
  destruct (Z.eq_dec rpt (last_good_rpt_seq st)) as [Heq|Hne].
  - rewrite (onIncremental_repeat rm sid rpt st) by assumption. cbn [fst snd].
    rewrite (onIncremental_repeat rm sid rpt st) by assumption. cbn [fst snd].
    repeat split; try reflexivity. intros H. lia.
  - rewrite (onIncremental_advance rm sid rpt st) by (try assumption; lia). cbn [fst snd].
    rewrite Hu.
    erewrite onIncremental_repeat;
      [ | cbn [states_]; apply lookup_insert_eq | reflexivity | reflexivity
        | cbn [expected_rpt_seq]; lia ].
    cbn [fst snd]. split; [reflexivity|]. split; [reflexivity|]. split; [reflexivity|].
    split.
    + intros _. eexists. cbn [states_]. rewrite lookup_insert_eq.
      split; [reflexivity|]. cbn. auto.
    + intros H. contradiction.
Qed.

(** C7 (amended) at [rpt_seq = 2^32 - 2], the last sequence it covers. *)
Lemma C7_same_seq_witness :
  (states_ rm_near_wrap !! SECURITY_ID_ESH26
   = Some (mkSRS Normal 4294967295 4294967294 0 0 0 []) /\
   4294967294 <= 4294967294 <= 4294967295 /\ 0 <= 4294967294 < 2 ^ 32 - 1) /\
  fst (onIncrementalMessage SECURITY_ID_ESH26 4294967294 rm_near_wrap) = true /\
  fst (onIncrementalMessage SECURITY_ID_ESH26 4294967294
         (snd (onIncrementalMessage SECURITY_ID_ESH26 4294967294 rm_near_wrap))) = true.
Proof.
  assert (H1 : states_ rm_near_wrap !! SECURITY_ID_ESH26
               = Some (mkSRS Normal 4294967295 4294967294 0 0 0 []))
    by (vm_compute; reflexivity).
  assert (H2 : 4294967294 <= 4294967294 <= 4294967295) by lia.
  assert (H3 : 0 <= 4294967294 < 2 ^ 32 - 1) by lia.
  split; [auto|].
  pose proof (C7_same_seq_idempotent rm_near_wrap SECURITY_ID_ESH26 4294967294 _
                H1 eq_refl H2 H3) as (A & B & _).
  split; [exact A | exact B].
Defined.

End RecoveryClaims.

(** ** Dispatch and conflation *)

Section DispatchClaims.
Import Protocol Recovery BookManager FeedHandler FeedProps.

(** An incremental for one instrument leaves the recovery record of
    every other instrument alone. *)
Lemma onIncremental_other (rm : RecoveryManager) k rpt sid :
  k <> sid ->
  states_ (snd (onIncrementalMessage k rpt rm)) !! sid = states_ rm !! sid.
Proof.
  intros Hne. unfold onIncrementalMessage, initSecurity.
  destruct (states_ rm !! k) as [st|]; cbn [snd states_].
  - destruct (state st); cbn [snd states_]; try reflexivity.
    destruct ((last_good_rpt_seq st <=? rpt) && (rpt <=? expected_rpt_seq st)).
    + destruct (last_good_rpt_seq st <? rpt); cbn [snd states_];
        [apply lookup_insert_ne; exact Hne | reflexivity].
    + destruct (rpt <? last_good_rpt_seq st); cbn [snd states_];
        [reflexivity | apply lookup_insert_ne; exact Hne].
  - apply lookup_insert_ne; exact Hne.
Qed.

Lemma applyIncremental_other entry (bm : CmeOrderBookManager) sid :
  security_id entry <> sid ->
  books_ (applyIncremental entry bm) !! sid = books_ bm !! sid /\
  (sid ∈ dirty_securities_ (applyIncremental entry bm) <-> sid ∈ dirty_securities_ bm).
Proof.
  intros Hne. unfold applyIncremental, getBook, markDirty.
  destruct (books_ bm !! security_id entry); cbn [books_ dirty_securities_].
  - split; [apply lookup_insert_ne; exact Hne|].
    rewrite elem_of_union, elem_of_singleton.
    split; [intros [E|H]; [congruence | exact H] | auto].
  - split; [rewrite !lookup_insert_ne by exact Hne; reflexivity|].
    rewrite elem_of_union, elem_of_singleton.
    split; [intros [E|H]; [congruence | exact H] | auto].
Qed.

(** What one entry does to an instrument that is not in Normal. *)
Lemma handleIncrementalEntry_keeps (fh : CmeFeedHandler) sid st entry :
  states_ (recovery_manager_ fh) !! sid = Some st -> state st <> Normal ->
  let fh' := handleIncrementalEntry fh entry in
  states_ (recovery_manager_ fh') !! sid = Some st /\
  books_ (book_manager_ fh') !! sid = books_ (book_manager_ fh) !! sid /\
  (sid ∈ dirty_securities_ (book_manager_ fh') <-> sid ∈ dirty_securities_ (book_manager_ fh)).
Proof.
  intros Hst Hn fh'. subst fh'. unfold handleIncrementalEntry.
  destruct (Z.eq_dec (security_id entry) sid) as [E|Hne].
  - rewrite E, (onIncremental_in_recovery _ sid _ st Hst Hn).
    cbn. auto.
  - pose proof (onIncremental_other (recovery_manager_ fh) _ (rpt_seq entry) sid Hne) as Ho.
    destruct (onIncrementalMessage (security_id entry) (rpt_seq entry) (recovery_manager_ fh))
      as [ok rm'].
    cbn [snd] in Ho.
    destruct (applyIncremental_other entry (book_manager_ fh) sid Hne) as [Hb Hd].
    destruct ok; cbn; rewrite Ho; auto.
Qed.

(** C6: while an instrument's record is in GapDetected or Recovering,
    every incremental entry for it is rejected: the books and the dirty
    set are left as they are, nothing but [messages_dropped] (plus one,
    modulo 2^64) changes; and whatever the entries of an incremental
    message, for this or for other instruments, the instrument's book, its
    dirty mark and its recovery record come out unchanged, so incrementals
    never bring it back to Normal. *)
Theorem C6_no_incremental_while_recovering (fh : CmeFeedHandler) (sid : Z)
    (st : SecurityRecoveryState) :
  states_ (recovery_manager_ fh) !! sid = Some st ->
  state st = GapDetected \/ state st = Recovering ->
  (forall entry, security_id entry = sid ->
     fst (onIncrementalMessage sid (rpt_seq entry) (recovery_manager_ fh)) = false /\
     handleIncrementalEntry fh entry
     = with_managers (book_manager_ fh)
         (mkRM (states_ (recovery_manager_ fh))
               (mkStats (gaps_detected (Recovery.stats_ (recovery_manager_ fh)))
                        (recoveries_completed (Recovery.stats_ (recovery_manager_ fh)))
                        (u64 (messages_dropped (Recovery.stats_ (recovery_manager_ fh)) + 1))
                        (messages_buffered (Recovery.stats_ (recovery_manager_ fh)))))
         fh) /\
  (forall entries,
     let fh' := handleIncrementalRefresh entries fh in
     books_ (book_manager_ fh') !! sid = books_ (book_manager_ fh) !! sid /\
     (sid ∈ dirty_securities_ (book_manager_ fh')
      <-> sid ∈ dirty_securities_ (book_manager_ fh)) /\
     states_ (recovery_manager_ fh') !! sid = Some st).
Proof.
  intros Hst Hrec.
  assert (Hn : state st <> Normal) by (destruct Hrec as [-> | ->]; discriminate).
  split.
  - intros entry E. unfold handleIncrementalEntry.
    rewrite E, (onIncremental_in_recovery _ sid _ st Hst Hn). auto.
  - intros entries. unfold handleIncrementalRefresh.
    revert fh Hst. induction entries as [|e es IH]; intros fh Hst.
    + cbn. auto.
    + cbn [foldl].
      destruct (handleIncrementalEntry_keeps fh sid st e Hst Hn) as (S1 & B1 & D1).
      destruct (IH _ S1) as (B2 & D2 & S2).
      rewrite B2, B1, D2, D1. auto.
Qed.

(** C6 on the handler in which instrument 1001 is in GapDetected. *)
Lemma C6_no_incremental_witness :
  (states_ (recovery_manager_ fh_gap) !! SECURITY_ID_ESH26
   = Some (mkSRS GapDetected 2 1 0 0 1 [])) /\
  books_ (book_manager_
            (handleIncrementalRefresh [bid_entry SECURITY_ID_ESH26 6 45005000000] fh_gap))
    !! SECURITY_ID_ESH26
  = books_ (book_manager_ fh_gap) !! SECURITY_ID_ESH26.
Proof.
  assert (H1 : states_ (recovery_manager_ fh_gap) !! SECURITY_ID_ESH26
               = Some (mkSRS GapDetected 2 1 0 0 1 [])) by (vm_compute; reflexivity).
  split; [exact H1|].
  exact (proj1 (proj2 (C6_no_incremental_while_recovering fh_gap SECURITY_ID_ESH26 _ H1
                         (or_introl eq_refl))
                 [bid_entry SECURITY_ID_ESH26 6 45005000000])).
Defined.

(** [handleChannelReset] never reaches [resetExpectedSeq]: the ids it
    iterates over are those of the manager it has just emptied. *)
Lemma handleChannelReset_recovery (fh : CmeFeedHandler) :
  recovery_manager_ (handleChannelReset fh) = recovery_manager_ fh /\
  books_ (book_manager_ (handleChannelReset fh)) = ∅.
Proof.
  unfold handleChannelReset, getAllSecurityIds, BookManager.clear.
  cbn [books_]. rewrite map_to_list_empty. cbn. auto.
Qed.

(** C1 (code at the failing input): instrument 1001 is in GapDetected
    with [expected_rpt_seq = 2] and [last_good_rpt_seq = 1] when a
    ChannelReset arrives. The books are emptied, but the recovery record
    is exactly as before: still GapDetected, expecting 2. *)
Theorem C1_channel_reset_keeps_recovery_state :
  getState SECURITY_ID_ESH26 (recovery_manager_ fh_gap) = GapDetected /\
  books_ (book_manager_ (handleChannelReset fh_gap)) = ∅ /\
  getState SECURITY_ID_ESH26 (recovery_manager_ (handleChannelReset fh_gap)) = GapDetected /\
  getExpectedRptSeq SECURITY_ID_ESH26 (recovery_manager_ (handleChannelReset fh_gap)) = 2 /\
  states_ (recovery_manager_ (handleChannelReset fh_gap)) !! SECURITY_ID_ESH26
  = Some (mkSRS GapDetected 2 1 0 0 1 []).
Proof.
  destruct (handleChannelReset_recovery fh_gap) as [E B]. rewrite E.
  repeat split; try exact B; vm_compute; reflexivity.
Qed.

Lemma publishSnapshot_effect sid snap (fh : CmeFeedHandler) :
  book_manager_ (publishSnapshot sid snap fh) = book_manager_ fh /\
  recovery_manager_ (publishSnapshot sid snap fh) = recovery_manager_ fh /\
  exists new, sent_ (publishSnapshot sid snap fh) = sent_ fh ++ new /\
              Forall (fun p => pub_security_id p = sid) new.
Proof.
  unfold publishSnapshot.
  destruct (L2md.encode _ _ _ _ _ _ _ _ _ _ _ _ _) as [ok enc].
  destruct ok; cbn.
  - split; [reflexivity|]. split; [reflexivity|].
    eexists. split; [reflexivity|]. repeat constructor.
  - split; [reflexivity|]. split; [reflexivity|].
    exists []. rewrite app_nil_r. split; [reflexivity | constructor].
Qed.

Lemma publishIfNormal_effect (fh : CmeFeedHandler) sid :
  let fh' := publishIfNormal fh sid in
  dirty_securities_ (book_manager_ fh') = dirty_securities_ (book_manager_ fh) /\
  recovery_manager_ fh' = recovery_manager_ fh /\
  exists new, sent_ fh' = sent_ fh ++ new /\
              Forall (fun p => pub_security_id p = sid /\
                               getState sid (recovery_manager_ fh) = Normal) new.
Proof.
  intros fh'. subst fh'. unfold publishIfNormal.
  destruct (decide (getState sid (recovery_manager_ fh) = Normal)) as [Hn|Hn].
  - destruct (getBook sid (book_manager_ fh)) as [book bm] eqn:Hg.
    assert (Hd : dirty_securities_ bm = dirty_securities_ (book_manager_ fh)).
    { unfold getBook in Hg. destruct (books_ (book_manager_ fh) !! sid);
        inversion Hg; reflexivity. }
    cbn.
    match goal with |- context [publishSnapshot sid ?s ?f] =>
      destruct (publishSnapshot_effect sid s f) as (B & R & new & S & F);
      rewrite B, R, S
    end.
    cbn. split; [exact Hd|]. split; [reflexivity|].
    exists new. split; [reflexivity|].
    eapply Forall_impl; [exact F|]. cbn. auto.
  - split; [reflexivity|]. split; [reflexivity|].
    exists []. rewrite app_nil_r. split; [reflexivity | constructor].
Qed.

Lemma publish_loop_effect ids : forall (fh : CmeFeedHandler),
  let fh' := foldl publishIfNormal fh ids in
  dirty_securities_ (book_manager_ fh') = dirty_securities_ (book_manager_ fh) /\
  recovery_manager_ fh' = recovery_manager_ fh /\
  exists new, sent_ fh' = sent_ fh ++ new /\
              Forall (fun p => pub_security_id p ∈ ids /\
                               getState (pub_security_id p) (recovery_manager_ fh) = Normal)
                     new.
Proof.
  induction ids as [|sid ids IH]; intros fh fh'; subst fh'; cbn [foldl].
  - split; [reflexivity|]. split; [reflexivity|].
    exists []. rewrite app_nil_r. split; [reflexivity | constructor].
  - destruct (publishIfNormal_effect fh sid) as (D1 & R1 & new1 & S1 & F1).
    destruct (IH (publishIfNormal fh sid)) as (D2 & R2 & new2 & S2 & F2).
    rewrite D2, D1, R2, R1, S2, S1. split; [reflexivity|]. split; [reflexivity|].
    exists (new1 ++ new2). rewrite app_assoc. split; [reflexivity|].
    apply Forall_app. split.
    + eapply Forall_impl; [exact F1|]. cbn. intros p [-> Hn].
      split; [apply list_elem_of_here | exact Hn].
    + rewrite R1 in F2. eapply Forall_impl; [exact F2|]. cbn. intros p [Hin Hn].
      split; [apply list_elem_of_further; exact Hin | exact Hn].
Qed.

Lemma publishConflatedSnapshots_effect (fh : CmeFeedHandler) :
  let fh' := publishConflatedSnapshots fh in
  dirty_securities_ (book_manager_ fh') = ∅ /\
  recovery_manager_ fh' = recovery_manager_ fh /\
  Forall (fun p => pub_security_id p ∈ dirty_securities_ (book_manager_ fh) /\
                   getState (pub_security_id p) (recovery_manager_ fh) = Normal)
         (newly_sent fh fh').
Proof.
  intros fh'. subst fh'. unfold publishConflatedSnapshots, getDirtySecurities, newly_sent.
  match goal with |- context [foldl publishIfNormal ?f ?l] =>
    destruct (publish_loop_effect l f) as (D & R & new & S & F)
  end.
  rewrite D, R, S. cbn.
  split; [reflexivity|]. split; [reflexivity|].
  rewrite drop_app_length.
  eapply Forall_impl; [exact F|]. cbn. intros p [Hin Hn].
  split; [apply elem_of_elements; exact Hin | exact Hn].
Qed.

(** C5 (as stated, refuted): instrument 1001 is dirty and in GapDetected
    at the tick; nothing is sent for it, and afterwards it is no longer
    in the dirty set. *)
Lemma C5_skipped_instrument_not_readded :
  SECURITY_ID_ESH26 ∈ dirty_securities_ (book_manager_ fh_gap) /\
  getState SECURITY_ID_ESH26 (recovery_manager_ fh_gap) = GapDetected /\
  sent_ (publishConflatedSnapshots fh_gap) = [] /\
  SECURITY_ID_ESH26 ∉ dirty_securities_ (book_manager_ (publishConflatedSnapshots fh_gap)).
Proof.
  destruct (publishConflatedSnapshots_effect fh_gap) as (D & _ & _).
  rewrite D.
  assert (E : dirty_securities_ (book_manager_ fh_gap) = {[SECURITY_ID_ESH26]})
    by (vm_compute; reflexivity).
  rewrite E.
  split; [apply elem_of_singleton; reflexivity|]. split; [vm_compute; reflexivity|].
  split; [vm_compute; reflexivity | apply not_elem_of_empty].
Qed.

(** C5 (amended): at a conflation tick the dirty set is drained
    unconditionally. Datagrams are sent only for instruments that were
    dirty and whose recovery state is Normal; a dirty instrument in
    GapDetected or Recovering is skipped and is not re-added: the dirty
    set is empty after the tick, and the recovery manager is unchanged. *)
Theorem C5_conflation_drains_dirty_set (fh : CmeFeedHandler) :
  dirty_securities_ (book_manager_ (publishConflatedSnapshots fh)) = ∅ /\
  recovery_manager_ (publishConflatedSnapshots fh) = recovery_manager_ fh /\
  Forall (fun p => pub_security_id p ∈ dirty_securities_ (book_manager_ fh) /\
                   getState (pub_security_id p) (recovery_manager_ fh) = Normal)
         (newly_sent fh (publishConflatedSnapshots fh)).
Proof. exact (publishConflatedSnapshots_effect fh). Qed.

End DispatchClaims.

(** ** Datagram parsing *)

Section ParserFacts.
Import Mem Protocol Parser WireProps.

Lemma le_value_nonneg bs : Forall (fun b => 0 <= b < 256) bs -> 0 <= le_value bs.
Proof.
  induction 1 as [|b bs Hb _ IH]; simpl; lia.
Qed.

Lemma load_u_nonneg off n data : bytes_ok data -> 0 <= load_u off n data.
Proof.
  intros H. unfold load_u, load. apply le_value_nonneg.
  apply Forall_take, Forall_drop. exact H.
Qed.

(** The walk over an incremental datagram does not depend on the bound
    on its iterations once the bound covers the bytes left: the bound
    given by [parseIncrementalPacket] is never the reason the walk ends. *)
Lemma incremental_loop_fuel data : bytes_ok data ->
  forall fuel fuel' len offset log,
  (len < offset + fuel)%nat -> (len < offset + fuel')%nat ->
  incremental_loop fuel len offset data log = incremental_loop fuel' len offset data log.
Proof.
  intros Hd. induction fuel as [|fuel IH]; intros fuel' len offset log H1 H2.
  - destruct fuel' as [|fuel']; [reflexivity|]. cbn [incremental_loop].
    replace (offset + Z.to_nat sizeof_SBEMessageHeader <=? len)%nat with false
      by (symmetry; apply Nat.leb_gt; lia).
    reflexivity.
  - destruct fuel' as [|fuel'].
    + cbn [incremental_loop].
      replace (offset + Z.to_nat sizeof_SBEMessageHeader <=? len)%nat with false
        by (symmetry; apply Nat.leb_gt; lia).
      reflexivity.
    + cbn [incremental_loop].
      destruct (offset + Z.to_nat sizeof_SBEMessageHeader <=? len)%nat; [|reflexivity].
      unfold bind, rd_u, ret. cbv beta iota.
      destruct (_ =? TEMPLATE_SECURITY_DEFINITION).
      { destruct (_ <=? len)%nat; [|reflexivity].
        destruct (read_security_definition _ _ _) as [m log1].
        rewrite (IH fuel'); [reflexivity | |];
          change (Z.to_nat sizeof_SecurityDefinition) with 45%nat; lia. }
      destruct (_ =? TEMPLATE_MD_INCREMENTAL_REFRESH).
      { match goal with |- context [calcIncrementalSize ?n] =>
          assert (Hn : 0 <= n) by (apply load_u_nonneg; exact Hd);
          assert (Hs : (19 <= Z.to_nat (calcIncrementalSize n))%nat)
            by (unfold calcIncrementalSize, sizeof_MDIncrementalRefreshBook,
                  sizeof_SBEMessageHeader, sizeof_GroupHeader,
                  sizeof_MDIncrementalRefreshEntry; lia);
          clear Hn; revert Hs; generalize (Z.to_nat (calcIncrementalSize n))
        end.
        intros sz Hs.
        destruct (_ <=? len)%nat; [|reflexivity].
        destruct (read_incremental_refresh _ _ _) as [m log1].
        rewrite (IH fuel'); [reflexivity | |]; lia. }
      destruct (_ =? TEMPLATE_CHANNEL_RESET).
      { destruct (_ <=? len)%nat; [|reflexivity].
        destruct (read_channel_reset _ _ _) as [m log1].
        rewrite (IH fuel'); [reflexivity | |];
          change (Z.to_nat sizeof_ChannelReset) with 16%nat; lia. }
      destruct (_ =? TEMPLATE_HEARTBEAT).
      { destruct (_ <=? len)%nat; [|reflexivity].
        rewrite (IH fuel'); [reflexivity | |];
          change (Z.to_nat sizeof_Heartbeat) with 16%nat; lia. }
      apply IH; change (Z.to_nat sizeof_SBEMessageHeader) with 8%nat; lia.
Qed.

(** The same for the walk over a snapshot datagram. *)
Lemma snapshot_loop_fuel data : bytes_ok data ->
  forall fuel fuel' len offset log,
  (len < offset + fuel)%nat -> (len < offset + fuel')%nat ->
  snapshot_loop fuel len offset data log = snapshot_loop fuel' len offset data log.
Proof.
  intros Hd. induction fuel as [|fuel IH]; intros fuel' len offset log H1 H2.
  - destruct fuel' as [|fuel']; [reflexivity|]. cbn [snapshot_loop].
    replace (offset + Z.to_nat sizeof_SBEMessageHeader <=? len)%nat with false
      by (symmetry; apply Nat.leb_gt; lia).
    reflexivity.
  - destruct fuel' as [|fuel'].
    + cbn [snapshot_loop].
      replace (offset + Z.to_nat sizeof_SBEMessageHeader <=? len)%nat with false
        by (symmetry; apply Nat.leb_gt; lia).
      reflexivity.
    + cbn [snapshot_loop].
      destruct (offset + Z.to_nat sizeof_SBEMessageHeader <=? len)%nat; [|reflexivity].
      unfold bind, rd_u, ret. cbv beta iota.
      destruct (_ =? TEMPLATE_MD_SNAPSHOT_FULL_REFRESH).
      { match goal with |- context [calcSnapshotSize ?n] =>
          assert (Hn : 0 <= n) by (apply load_u_nonneg; exact Hd);
          assert (Hs : (31 <= Z.to_nat (calcSnapshotSize n))%nat)
            by (unfold calcSnapshotSize, sizeof_MDSnapshotFullRefresh,
                  sizeof_SBEMessageHeader, sizeof_GroupHeader,
                  sizeof_MDSnapshotEntry; lia);
          clear Hn; revert Hs; generalize (Z.to_nat (calcSnapshotSize n))
        end.
        intros sz Hs.
        destruct (_ <=? len)%nat; [|reflexivity].
        destruct (read_snapshot_full_refresh _ _ _) as [m log1].
        rewrite (IH fuel'); [reflexivity | |]; lia. }
      apply IH; change (Z.to_nat sizeof_SBEMessageHeader) with 8%nat; lia.
Qed.

(** *** Which bytes the walk reads *)

Lemma reads_within_ret {A} len (a : A) : reads_within len (ret a).
Proof. intros data log. exists []. rewrite app_nil_r. split; [reflexivity | constructor]. Qed.

Lemma reads_within_bind {A B} len (c : Rd A) (k : A -> Rd B) :
  reads_within len c -> (forall a, reads_within len (k a)) -> reads_within len (bind c k).
Proof.
  intros Hc Hk data log. unfold bind.
  destruct (Hc data log) as (n1 & E1 & F1).
  destruct (c data log) as [a log1]. cbn [snd] in E1. subst log1.
  destruct (Hk a data (log ++ n1)) as (n2 & E2 & F2).
  exists (n1 ++ n2). rewrite E2, app_assoc. split; [reflexivity|].
  apply Forall_app. auto.
Qed.

Lemma reads_within_rd_u len off n : (off + n <= len)%nat -> reads_within len (rd_u off n).
Proof.
  intros H data log. exists [(off, n)]. split; [reflexivity|].
  repeat constructor. unfold in_datagram. apply Nat.leb_le. exact H.
Qed.

Lemma reads_within_rd_i len off n : (off + n <= len)%nat -> reads_within len (rd_i off n).
Proof.
  intros H data log. exists [(off, n)]. split; [reflexivity|].
  repeat constructor. unfold in_datagram. apply Nat.leb_le. exact H.
Qed.

Lemma reads_within_rd_bytes len off n :
  (off + n <= len)%nat -> reads_within len (rd_bytes off n).
Proof.
  intros H data log. exists [(off, n)]. split; [reflexivity|].
  repeat constructor. unfold in_datagram. apply Nat.leb_le. exact H.
Qed.

Ltac within :=
  repeat first
    [ apply reads_within_ret
    | apply reads_within_bind; [|intros ?]
    | apply reads_within_rd_u; lia
    | apply reads_within_rd_i; lia
    | apply reads_within_rd_bytes; lia ].

Lemma reads_within_incr_entry len base :
  (base + 24 <= len)%nat -> reads_within len (read_incr_entry base).
Proof. intros H. unfold read_incr_entry. within. Qed.

Lemma reads_within_snap_entry len base :
  (base + 16 <= len)%nat -> reads_within len (read_snap_entry base).
Proof. intros H. unfold read_snap_entry. within. Qed.

Lemma reads_within_array {A} len (rd : nat -> Rd A) size n : forall base,
  (forall b, (b + size <= len)%nat -> reads_within len (rd b)) ->
  (base + n * size <= len)%nat -> reads_within len (read_array rd size n base).
Proof.
  induction n as [|n IH]; intros base Hrd Hb; cbn [read_array].
  - apply reads_within_ret.
  - apply reads_within_bind; [apply Hrd; lia | intros e].
    apply reads_within_bind; [apply IH; [exact Hrd | lia] | intros es].
    apply reads_within_ret.
Qed.

(** The handler of a security definition reads the id inside the
    message and the symbol from its field to the first NUL. *)
Lemma security_definition_reads len offset data log :
  (offset + 45 <= len)%nat ->
  exists new, snd (read_security_definition offset data log) = log ++ new /\
              Forall (access_ok len) new.
Proof.
  intros H. unfold read_security_definition, bind, rd_c_str, rd_u, ret. cbv beta iota zeta.
  cbn [snd]. rewrite <- app_assoc. eexists. split; [reflexivity|].
  constructor; [|constructor; [|constructor]].
  - right. right. exists offset. split; [exact H | reflexivity].
  - left. unfold in_datagram. apply Nat.leb_le. cbn [fst snd]. lia.
Qed.

Lemma reads_within_channel_reset len offset :
  (offset + 16 <= len)%nat -> reads_within len (read_channel_reset offset).
Proof. intros H. unfold read_channel_reset. within. Qed.

(** The handler of an incremental message reads the group count again
    and that many entries; the size check made on that count covers them. *)
Lemma incremental_refresh_reads len offset data log :
  bytes_ok data ->
  (offset + Z.to_nat (calcIncrementalSize (load_u (offset + 18) 1 data)) <= len)%nat ->
  exists new, snd (read_incremental_refresh offset data log) = log ++ new /\
              Forall (fun a => in_datagram len a = true) new.
Proof.
  intros Hd Hs.
  pose proof (load_u_nonneg (offset + 18) 1 data Hd) as Hn.
  unfold calcIncrementalSize, sizeof_MDIncrementalRefreshBook, sizeof_SBEMessageHeader,
    sizeof_GroupHeader, sizeof_MDIncrementalRefreshEntry in Hs.
  unfold read_incremental_refresh, bind, rd_u, ret. cbv beta iota.
  change (Z.to_nat sizeof_MDIncrementalRefreshEntry) with 24%nat.
  change (Z.to_nat sizeof_MDIncrementalRefreshBook) with 19%nat.
  destruct (reads_within_array len read_incr_entry 24
              (Z.to_nat (load_u (offset + 18) 1 data)) (offset + 19)
              (reads_within_incr_entry len) ltac:(lia)
              data (log ++ [((offset + 18)%nat, 1%nat)])) as (new & E & F).
  destruct (read_array _ _ _ _ _ _) as [es log2]. cbn [snd] in *. subst log2.
  exists (((offset + 18)%nat, 1%nat) :: new). rewrite <- app_assoc. split; [reflexivity|].
  constructor; [|exact F]. unfold in_datagram. apply Nat.leb_le. cbn [fst snd]. lia.
Qed.

Lemma snapshot_full_refresh_reads len offset data log :
  bytes_ok data ->
  (offset + Z.to_nat (calcSnapshotSize (load_u (offset + 30) 1 data)) <= len)%nat ->
  exists new, snd (read_snapshot_full_refresh offset data log) = log ++ new /\
              Forall (fun a => in_datagram len a = true) new.
Proof.
  intros Hd Hs.
  pose proof (load_u_nonneg (offset + 30) 1 data Hd) as Hn.
  unfold calcSnapshotSize, sizeof_MDSnapshotFullRefresh, sizeof_SBEMessageHeader,
    sizeof_GroupHeader, sizeof_MDSnapshotEntry in Hs.
  unfold read_snapshot_full_refresh, bind, rd_u, ret. cbv beta iota.
  change (Z.to_nat sizeof_MDSnapshotEntry) with 16%nat.
  change (Z.to_nat sizeof_MDSnapshotFullRefresh) with 31%nat.
  destruct (reads_within_array len read_snap_entry 16
              (Z.to_nat (load_u (offset + 30) 1 data)) (offset + 31)
              (reads_within_snap_entry len) ltac:(lia)
              data (log ++ [((offset + 12)%nat, 4%nat)] ++ [((offset + 16)%nat, 4%nat)]
                        ++ [((offset + 8)%nat, 4%nat)] ++ [((offset + 30)%nat, 1%nat)]))
    as (new & E & F).
  rewrite !app_assoc in E. rewrite <- !app_assoc in E.
  rewrite <- !app_assoc.
  destruct (read_array _ _ _ _ _ _) as [es log2]. cbn [snd] in *. subst log2.
  eexists. split; [reflexivity|].
  repeat (constructor; [unfold in_datagram; apply Nat.leb_le; cbn [fst snd]; lia|]).
  exact F.
Qed.

Lemma in_datagram_ok len off n :
  (off + n <= len)%nat -> access_ok len (off, n)%nat.
Proof. intros H. left. unfold in_datagram. apply Nat.leb_le. exact H. Qed.

Lemma within_ok len (new : list Access) :
  Forall (fun a => in_datagram len a = true) new -> Forall (access_ok len) new.
Proof. intros H. eapply Forall_impl; [exact H|]. intros a Ha. left. exact Ha. Qed.

Lemma access_one len a : access_ok len a -> Forall (access_ok len) [a].
Proof. intros H. constructor; [exact H | constructor]. Qed.

(** Every read of the walk over an incremental datagram lies inside the
    datagram, except the reads of a group count made right after the
    message header was found to fit and the printing of a definition's
    symbol, which runs to the first NUL. *)
Lemma incremental_loop_reads data : bytes_ok data ->
  forall fuel len offset log,
  exists new, snd (incremental_loop fuel len offset data log) = log ++ new /\
              Forall (access_ok len) new.
Proof.
  intros Hd. induction fuel as [|fuel IH]; intros len offset log.
  { exists []. rewrite app_nil_r. split; [reflexivity | constructor]. }
  cbn [incremental_loop].
  change (Z.to_nat sizeof_SBEMessageHeader) with 8%nat.
  destruct (Nat.leb_spec (offset + 8) len) as [Hh|Hh];
    [|exists []; rewrite app_nil_r; split; [reflexivity | constructor]].
  unfold bind, rd_u, ret. cbv beta iota.
  assert (Ht : access_ok len ((offset + 2)%nat, 2%nat)) by (apply in_datagram_ok; lia).
  destruct (_ =? TEMPLATE_SECURITY_DEFINITION).
  { change (Z.to_nat sizeof_SecurityDefinition) with 45%nat.
    destruct (Nat.leb_spec (offset + 45) len) as [Hm|Hm].
    - destruct (security_definition_reads len offset data
                  (log ++ [((offset + 2)%nat, 2%nat)]) Hm) as (n1 & E1 & F1).
      destruct (read_security_definition _ _ _) as [m log1]. cbn [snd] in E1. subst log1.
      destruct (IH len (offset + 45)%nat ((log ++ [((offset + 2)%nat, 2%nat)]) ++ n1))
        as (n2 & E2 & F2).
      destruct (incremental_loop _ _ _ _ _) as [ms log2]. cbn [snd] in *. subst log2.
      exists ([((offset + 2)%nat, 2%nat)] ++ n1 ++ n2). rewrite !app_assoc.
      split; [reflexivity|].
      apply Forall_app; split; [apply Forall_app; split|];
        [apply access_one; exact Ht | exact F1 | exact F2].
    - exists [((offset + 2)%nat, 2%nat)]. split; [reflexivity | apply access_one; exact Ht]. }
  destruct (_ =? TEMPLATE_MD_INCREMENTAL_REFRESH).
  { assert (Hp : access_ok len ((offset + 18)%nat, 1%nat)).
    { right. left. exists offset. split; [lia | left; reflexivity]. }
    destruct (Nat.leb_spec
                (offset + Z.to_nat (calcIncrementalSize (load_u (offset + 18) 1 data))) len)
      as [Hm|Hm].
    - destruct (incremental_refresh_reads len offset data
                  ((log ++ [((offset + 2)%nat, 2%nat)]) ++ [((offset + 18)%nat, 1%nat)])
                  Hd Hm) as (n1 & E1 & F1).
      destruct (read_incremental_refresh _ _ _) as [m log1]. cbn [snd] in E1. subst log1.
      match goal with |- context [incremental_loop fuel len ?o data ?l] =>
        destruct (IH len o l) as (n2 & E2 & F2)
      end.
      destruct (incremental_loop _ _ _ _ _) as [ms log2]. cbn [snd] in *. subst log2.
      exists ([((offset + 2)%nat, 2%nat)] ++ [((offset + 18)%nat, 1%nat)] ++ n1 ++ n2).
      rewrite !app_assoc. split; [reflexivity|].
      repeat (apply Forall_app; split);
        [apply access_one; exact Ht | apply access_one; exact Hp
        | apply within_ok; exact F1 | exact F2].
    - exists [((offset + 2)%nat, 2%nat); ((offset + 18)%nat, 1%nat)].
      rewrite <- app_assoc. split; [reflexivity | constructor; [exact Ht | apply access_one; exact Hp]]. }
  destruct (_ =? TEMPLATE_CHANNEL_RESET).
  { change (Z.to_nat sizeof_ChannelReset) with 16%nat.
    destruct (Nat.leb_spec (offset + 16) len) as [Hm|Hm].
    - destruct (reads_within_channel_reset len offset Hm data
                  (log ++ [((offset + 2)%nat, 2%nat)])) as (n1 & E1 & F1).
      destruct (read_channel_reset _ _ _) as [m log1]. cbn [snd] in E1. subst log1.
      destruct (IH len (offset + 16)%nat ((log ++ [((offset + 2)%nat, 2%nat)]) ++ n1))
        as (n2 & E2 & F2).
      destruct (incremental_loop _ _ _ _ _) as [ms log2]. cbn [snd] in *. subst log2.
      exists ([((offset + 2)%nat, 2%nat)] ++ n1 ++ n2). rewrite !app_assoc.
      split; [reflexivity|].
      apply Forall_app; split; [apply Forall_app; split|];
        [apply access_one; exact Ht | apply within_ok; exact F1 | exact F2].
    - exists [((offset + 2)%nat, 2%nat)]. split; [reflexivity | apply access_one; exact Ht]. }
  destruct (_ =? TEMPLATE_HEARTBEAT).
  { change (Z.to_nat sizeof_Heartbeat) with 16%nat.
    destruct (Nat.leb_spec (offset + 16) len) as [Hm|Hm].
    - destruct (IH len (offset + 16)%nat (log ++ [((offset + 2)%nat, 2%nat)]))
        as (n2 & E2 & F2).
      destruct (incremental_loop _ _ _ _ _) as [ms log2]. cbn [snd] in *. subst log2.
      exists ([((offset + 2)%nat, 2%nat)] ++ n2). rewrite !app_assoc.
      split; [reflexivity|].
      apply Forall_app; split; [apply access_one; exact Ht | exact F2].
    - exists [((offset + 2)%nat, 2%nat)]. split; [reflexivity | apply access_one; exact Ht]. }
  match goal with |- context [incremental_loop fuel len ?o data ?l] =>
    destruct (IH len o l) as (n2 & E2 & F2)
  end.
  rewrite E2. exists ([((offset + 2)%nat, 2%nat)] ++ [(offset, 2%nat)] ++ n2).
  rewrite !app_assoc. split; [reflexivity|].
  repeat (apply Forall_app; split);
    [apply access_one; exact Ht | apply access_one, in_datagram_ok; lia | exact F2].
Qed.

Lemma snapshot_loop_reads data : bytes_ok data ->
  forall fuel len offset log,
  exists new, snd (snapshot_loop fuel len offset data log) = log ++ new /\
              Forall (access_ok len) new.
Proof.
  intros Hd. induction fuel as [|fuel IH]; intros len offset log.
  { exists []. rewrite app_nil_r. split; [reflexivity | constructor]. }
  cbn [snapshot_loop].
  change (Z.to_nat sizeof_SBEMessageHeader) with 8%nat.
  destruct (Nat.leb_spec (offset + 8) len) as [Hh|Hh];
    [|exists []; rewrite app_nil_r; split; [reflexivity | constructor]].
  unfold bind, rd_u, ret. cbv beta iota.
  assert (Ht : access_ok len ((offset + 2)%nat, 2%nat)) by (apply in_datagram_ok; lia).
  destruct (_ =? TEMPLATE_MD_SNAPSHOT_FULL_REFRESH).
  { assert (Hp : access_ok len ((offset + 30)%nat, 1%nat)).
    { right. left. exists offset. split; [lia | right; reflexivity]. }
    destruct (Nat.leb_spec
                (offset + Z.to_nat (calcSnapshotSize (load_u (offset + 30) 1 data))) len)
      as [Hm|Hm].
    - destruct (snapshot_full_refresh_reads len offset data
                  ((log ++ [((offset + 2)%nat, 2%nat)]) ++ [((offset + 30)%nat, 1%nat)])
                  Hd Hm) as (n1 & E1 & F1).
      destruct (read_snapshot_full_refresh _ _ _) as [m log1]. cbn [snd] in E1. subst log1.
      match goal with |- context [snapshot_loop fuel len ?o data ?l] =>
        destruct (IH len o l) as (n2 & E2 & F2)
      end.
      destruct (snapshot_loop _ _ _ _ _) as [ms log2]. cbn [snd] in *. subst log2.
      exists ([((offset + 2)%nat, 2%nat)] ++ [((offset + 30)%nat, 1%nat)] ++ n1 ++ n2).
      rewrite !app_assoc. split; [reflexivity|].
      repeat (apply Forall_app; split);
        [apply access_one; exact Ht | apply access_one; exact Hp
        | apply within_ok; exact F1 | exact F2].
    - exists [((offset + 2)%nat, 2%nat); ((offset + 30)%nat, 1%nat)].
      rewrite <- app_assoc. split; [reflexivity | constructor; [exact Ht | apply access_one; exact Hp]]. }
  match goal with |- context [snapshot_loop fuel len ?o data ?l] =>
    destruct (IH len o l) as (n2 & E2 & F2)
  end.
  rewrite E2. exists ([((offset + 2)%nat, 2%nat)] ++ [(offset, 2%nat)] ++ n2).
  rewrite !app_assoc. split; [reflexivity|].
  repeat (apply Forall_app; split);
    [apply access_one; exact Ht | apply access_one, in_datagram_ok; lia | exact F2].
Qed.

(** All reads of both packet parsers are inside the datagram, or are
    such group-count reads or symbol prints. *)
Lemma packet_parsers_reads data len :
  bytes_ok data ->
  Forall (access_ok len) (snd (run (parseIncrementalPacket len) data)) /\
  Forall (access_ok len) (snd (run (parseSnapshotPacket len) data)).
Proof.
  intros Hd. unfold run, parseIncrementalPacket, parseSnapshotPacket.
  change (Z.to_nat sizeof_PacketHeader) with 12%nat.
  destruct (Nat.ltb_spec len 12) as [Hl|Hl]; [split; constructor|].
  unfold bind, rd_u, ret. cbv beta iota. split.
  - destruct (incremental_loop_reads data Hd (S len) len 12%nat ([] ++ [(0%nat, 4%nat)]))
      as (new & E & F).
    destruct (incremental_loop _ _ _ _ _) as [ms log1]. cbn [snd] in *. subst log1.
    apply Forall_app. split; [|exact F].
    apply access_one, in_datagram_ok. lia.
  - destruct (snapshot_loop_reads data Hd (S len) len 12%nat []) as (new & E & F).
    destruct (snapshot_loop _ _ _ _ _) as [ms log1]. cbn [snd] in *. subst log1.
    exact F.
Qed.

End ParserFacts.

(** *** The group count is read before its bounds check *)

Section ParserClaims.
Import Mem Protocol Parser WireProps.

(** C4 (code at the failing input): on a 20-byte datagram that ends right
    after a message header with template 32, the incremental parser reads
    the packet sequence (offset 0), the template id (offset 14) and then
    the group's [num_in_group] at offset 30, ten bytes past the end of
    the datagram; only then does the size check stop the parse, with no
    message dispatched. The snapshot parser does the same at offset 42. *)
Theorem C4_group_count_read_past_datagram :
  length truncated_incremental = 20%nat /\
  run (parseIncrementalPacket 20) (truncated_incremental ++ stale_bytes)
  = (Some (1, []), [(0, 4); (14, 2); (30, 1)]%nat) /\
  in_datagram 20 (30, 1)%nat = false /\
  run (parseSnapshotPacket 20) (truncated_snapshot ++ stale_bytes)
  = (Some [], [(14, 2); (42, 1)]%nat) /\
  in_datagram 20 (42, 1)%nat = false.
Proof. repeat split; vm_compute; reflexivity. Qed.

(** The printing of a definition's symbol is the one other read that
    leaves the datagram: on a 57-byte datagram whose symbol field holds
    no NUL, the symbol is read from offset 24 over 37 bytes, through the
    rest of the message and into what lies behind the datagram. *)
Lemma definition_symbol_read_past_datagram :
  length unterminated_definition = 57%nat /\
  snd (run (parseIncrementalPacket 57) (unterminated_definition ++ stale_text))
  = [(0, 4); (14, 2); (24, 37); (20, 4)]%nat /\
  in_datagram 57 (24, 37)%nat = false.
Proof. repeat split; vm_compute; reflexivity. Qed.

End ParserClaims.

(** ** The published snapshot codec *)

Section CodecFacts.
Import Mem L2md WireProps.

Lemma length_le_bytes n v : length (le_bytes n v) = n.
Proof. revert v. induction n as [|n IH]; intros v; simpl; [reflexivity | rewrite IH; reflexivity]. Qed.

Lemma le_value_le_bytes n v : le_value (le_bytes n v) = v mod 256 ^ Z.of_nat n.
Proof.
  revert v. induction n as [|n IH]; intros v.
  - simpl. rewrite Z.mod_1_r. reflexivity.
  - cbn [le_bytes le_value]. rewrite IH, Nat2Z.inj_succ, Z.pow_succ_r by lia.
    rewrite (Z.mul_comm 256), Z.rem_mul_r by lia. lia.
Qed.

Lemma le_unsigned n v : 0 <= v < 256 ^ Z.of_nat n -> le_value (le_bytes n v) = v.
Proof. intros H. rewrite le_value_le_bytes. apply Z.mod_small. exact H. Qed.

Lemma le_signed64 v : is_i64 v -> signed 64 (le_value (le_bytes 8 v)) = v.
Proof.
  unfold is_i64, signed. intros H. rewrite le_value_le_bytes.
  change (256 ^ Z.of_nat 8) with (2 ^ 64). rewrite Z.mod_mod by lia.
  change (2 ^ (64 - 1)) with (2 ^ 63).
  destruct (Z.ltb_spec (v mod 2 ^ 64) (2 ^ 63)) as [L|L].
  - destruct (Z_lt_le_dec v 0) as [Neg|Pos].
    + rewrite <- (Z.mod_add v 1 (2 ^ 64)) in L by lia.
      rewrite Z.mod_small in L by lia. lia.
    + apply Z.mod_small. lia.
  - destruct (Z_lt_le_dec v 0) as [Neg|Pos].
    + rewrite <- (Z.mod_add v 1 (2 ^ 64)) by lia.
      rewrite Z.mod_small by lia. lia.
    + rewrite Z.mod_small in L by lia. lia.
Qed.

Lemma length_strncpy n src : length (strncpy n src) = n.
Proof.
  revert src. induction n as [|n IH]; intros src; simpl; [reflexivity|].
  destruct src as [|c r]; simpl; [rewrite IH; reflexivity|].
  destruct (c =? 0); simpl; rewrite IH; reflexivity.
Qed.

Lemma strncpy_nil n : strncpy n [] = replicate n 0.
Proof. induction n as [|n IH]; simpl; [reflexivity | rewrite IH; reflexivity]. Qed.

(** A symbol without NUL is copied whole and padded with NULs. *)
Lemma strncpy_symbol n symbol :
  (length symbol <= n)%nat -> Forall (fun c => 0 < c < 256) symbol ->
  strncpy n symbol = symbol ++ replicate (n - length symbol) 0.
Proof.
  revert symbol. induction n as [|n IH]; intros symbol Hlen Hc.
  - destruct symbol; [reflexivity | simpl in Hlen; lia].
  - destruct symbol as [|c r]; cbn [strncpy].
    + rewrite strncpy_nil. reflexivity.
    + apply Forall_cons in Hc as [Hc Hr].
      replace (c =? 0) with false by (symmetry; apply Z.eqb_neq; lia).
      simpl in Hlen. rewrite IH by (try assumption; lia). reflexivity.
Qed.

Lemma length_entry_bytes e : length (entry_bytes e) = 15%nat.
Proof. unfold entry_bytes. rewrite !length_app, !length_le_bytes. reflexivity. Qed.

Lemma length_entries es :
  length (concat (List.map entry_bytes es)) = (length es * 15)%nat.
Proof.
  induction es as [|e es IH]; cbn [List.map concat]; [reflexivity|].
  rewrite length_app, length_entry_bytes, IH. simpl. lia.
Qed.

(** *** Stores extend a written prefix *)

Lemma store_append off (P bs X : list Z) :
  off = length P -> store off bs (P ++ X) = (P ++ bs) ++ drop (length bs) X.
Proof.
  intros ->. unfold store.
  rewrite take_app_length, <- app_assoc. do 2 f_equal.
  rewrite drop_app_add'; reflexivity.
Qed.

Lemma write_entries_append es : forall (P X : list Z),
  foldl (fun acc e =>
           (store (snd acc) (entry_bytes e) (fst acc), (snd acc + sizeof_PriceLevelEntry)%nat))
        (P ++ X, length P) es
  = ((P ++ concat (List.map entry_bytes es)) ++ drop (length es * 15) X,
     (length P + length es * 15)%nat).
Proof.
  induction es as [|e es IH]; intros P X; cbn [foldl List.map concat fst snd].
  - rewrite !app_nil_r. simpl. rewrite Nat.add_0_r. reflexivity.
  - rewrite store_append by reflexivity.
    replace (length P + sizeof_PriceLevelEntry)%nat with (length (P ++ entry_bytes e))
      by (rewrite length_app, length_entry_bytes; reflexivity).
    rewrite IH, length_entry_bytes, drop_drop.
    rewrite length_app, length_entry_bytes, <- !app_assoc.
    replace (length (e :: es) * 15)%nat with (15 + length es * 15)%nat by (simpl; lia).
    rewrite Nat.add_assoc. reflexivity.
Qed.

(** *** Loads find the pieces of a layout *)

Lemma load_piece (pieces : list (list Z)) i x tail off n :
  pieces !! i = Some x -> off = length (concat (take i pieces)) -> n = length x ->
  load off n (concat pieces ++ tail) = x.
Proof.
  intros Hi -> ->. unfold load.
  rewrite <- (take_drop_middle pieces i x Hi) at 2.
  rewrite concat_app, <- app_assoc. rewrite drop_app_length.
  cbn [concat]. rewrite <- app_assoc. apply take_app_length.
Qed.

Lemma load_drop a b n (l : list Z) : load (a + b) n l = load b n (drop a l).
Proof. unfold load. rewrite drop_drop. reflexivity. Qed.

(** Entry [i] of a group starts [15 * i] bytes into it. *)
Lemma drop_entries es : forall i e (tail : list Z),
  es !! i = Some e ->
  exists tail', drop (i * 15) (concat (List.map entry_bytes es) ++ tail)
                = concat (entry_pieces e) ++ tail'.
Proof.
  induction es as [|e0 es IH]; intros i e tail Hi; [discriminate Hi|].
  destruct i as [|i]; cbn [List.map concat].
  - inversion Hi; subst. simpl drop. eexists.
    unfold entry_pieces, entry_bytes. cbn [concat]. rewrite <- !app_assoc. reflexivity.
  - simpl in Hi. destruct (IH i e tail Hi) as [tail' E].
    exists tail'. rewrite <- E, <- app_assoc.
    replace (S i * 15)%nat with (length (entry_bytes e0) + i * 15)%nat
      by (rewrite length_entry_bytes; lia).
    rewrite drop_app_add'; reflexivity.
Qed.

End CodecFacts.

Section CodecEncode.
Import Mem L2md WireProps.

Lemma store_zero (bs X : list Z) : store 0 bs X = bs ++ drop (length bs) X.
Proof. exact (store_append 0 [] bs X eq_refl). Qed.

Lemma write_entries_all es (P X : list Z) off :
  off = length P ->
  write_entries es (Z.of_nat (length es)) (P ++ X, off)
  = ((P ++ concat (List.map entry_bytes es)) ++ drop (length es * 15) X,
     (off + length es * 15)%nat).
Proof.
  intros ->. unfold write_entries. rewrite Nat2Z.id, firstn_all.
  apply write_entries_append.
Qed.

Lemma length_header_bytes a b c d : length (header_bytes a b c d) = 8%nat.
Proof. unfold header_bytes. rewrite !length_app, !length_le_bytes. reflexivity. Qed.

Lemma length_group_bytes a b : length (group_bytes a b) = 3%nat.
Proof. unfold group_bytes. rewrite !length_app, !length_le_bytes. reflexivity. Qed.

Lemma length_root_bytes s a b c d e f g : length (root_bytes s a b c d e f g) = 46%nat.
Proof.
  unfold root_bytes. rewrite !length_app, !length_le_bytes, length_strncpy. reflexivity.
Qed.

Lemma calc_size nb na :
  calcL2SnapshotSize (Z.of_nat nb) (Z.of_nat na) = (60 + nb * 15 + na * 15)%nat.
Proof.
  unfold calcL2SnapshotSize, sizeof_MessageHeader, sizeof_L2SnapshotRoot,
    sizeof_GroupHeader, sizeof_PriceLevelEntry.
  rewrite !Nat2Z.id. lia.
Qed.

(** What [encode] leaves in the buffer: the packed image of the message
    over the first bytes, the rest of the buffer untouched. *)
Lemma encode_image symbol ts seq ltp ltq tv bc ac bids asks buffer bufferSize :
  (calcL2SnapshotSize (Z.of_nat (length bids)) (Z.of_nat (length asks)) <= bufferSize)%nat ->
  encode symbol ts seq ltp ltq tv bc ac bids (Z.of_nat (length bids))
         asks (Z.of_nat (length asks)) (new_encoder buffer bufferSize)
  = (true,
     mkEncoder
       (concat (snapshot_pieces symbol ts seq ltp ltq tv bc ac bids asks)
        ++ drop (calcL2SnapshotSize (Z.of_nat (length bids)) (Z.of_nat (length asks))) buffer)
       bufferSize
       (calcL2SnapshotSize (Z.of_nat (length bids)) (Z.of_nat (length asks)))).
Proof.
  intros Hsize. unfold encode, new_encoder. cbn [bufferSize_ buffer_].
  replace (bufferSize <? _)%nat with false by (symmetry; apply Nat.ltb_ge; exact Hsize).
  rewrite store_zero.
  rewrite (store_append sizeof_MessageHeader) by (rewrite length_header_bytes; reflexivity).
  rewrite (store_append (sizeof_MessageHeader + sizeof_L2SnapshotRoot))
    by (rewrite length_app, length_header_bytes, length_root_bytes; reflexivity).
  rewrite (write_entries_all bids)
    by (rewrite !length_app, length_header_bytes, length_root_bytes, length_group_bytes;
        reflexivity).
  rewrite (store_append (sizeof_MessageHeader + sizeof_L2SnapshotRoot + sizeof_GroupHeader
                         + length bids * 15))
    by (rewrite !length_app, length_header_bytes, length_root_bytes, length_group_bytes,
          length_entries; reflexivity).
  rewrite (write_entries_all asks)
    by (rewrite !length_app, length_header_bytes, length_root_bytes, !length_group_bytes,
          length_entries; reflexivity).
  rewrite !drop_drop, length_header_bytes, length_root_bytes, !length_group_bytes.
  rewrite calc_size.
  f_equal. f_equal.
  - unfold snapshot_pieces, header_bytes, root_bytes, group_bytes. cbn [concat].
    rewrite <- !app_assoc. rewrite app_nil_l.
    repeat (apply (f_equal (app _))).
    f_equal. lia.
  - unfold sizeof_MessageHeader, sizeof_L2SnapshotRoot, sizeof_GroupHeader. lia.
Qed.

End CodecEncode.

Section CodecDecode.
Import Mem L2md WireProps.

Lemma drop_pieces (pieces : list (list Z)) i tail off :
  off = length (concat (take i pieces)) ->
  drop off (concat pieces ++ tail) = concat (drop i pieces) ++ tail.
Proof.
  intros ->. rewrite <- (take_drop i pieces) at 2.
  rewrite concat_app, <- app_assoc. apply drop_app_length.
Qed.

Lemma load_base off n (l : list Z) : load off n l = load 0 n (drop off l).
Proof. reflexivity. Qed.

Ltac piece_lengths :=
  cbn [take drop concat];
  repeat first [ rewrite length_app | rewrite length_le_bytes | rewrite length_strncpy
               | rewrite length_entries ];
  cbn [length]; lia.

Ltac load_at i :=
  erewrite (load_piece _ i); [ | reflexivity | piece_lengths | piece_lengths ].

(** Reading back an entry from where its image starts. *)
Lemma read_entry_image buf off e tail' :
  drop off buf = concat (entry_pieces e) ++ tail' -> wf_entry e ->
  read_entry buf off = e.
Proof.
  intros Hd (Hl & Hp & Hq & Hn). unfold read_entry, load_i, load_u.
  rewrite (load_base off), !load_drop, Hd.
  unfold entry_pieces.
  load_at 0%nat. load_at 1%nat. load_at 2%nat. load_at 3%nat.
  rewrite le_signed64 by exact Hp.
  rewrite !le_unsigned by assumption.
  destruct e; reflexivity.
Qed.

Lemma price_round_trip x : is_u32 x -> priceFromSbe (priceToSbe x) = x.
Proof.
  unfold is_u32, priceFromSbe, priceToSbe, i64, signed, u32. intros H.
  change (2 ^ (64 - 1)) with (2 ^ 63).
  rewrite (Z.mod_small (x * 1000)) by lia.
  replace (x * 1000 <? 2 ^ 63) with true by (symmetry; apply Z.ltb_lt; lia).
  rewrite Z.quot_mul by lia. apply Z.mod_small. lia.
Qed.

Section Image.
Variables (symbol : list Z) (ts seq ltp ltq tv bc ac : Z).
Variables (bids asks : list PriceLevelEntry) (tail : list Z) (len : nat).

Let buf : list Z :=
  concat (snapshot_pieces symbol ts seq ltp ltq tv bc ac bids asks) ++ tail.

Hypothesis Hbids : (length bids <= 10)%nat.
Hypothesis Hasks : (length asks <= 10)%nat.
Hypothesis Hlen : (60 + length bids * 15 + length asks * 15 <= len)%nat.

Lemma group_count_bids : load_u (54 + 2) 1 buf = Z.of_nat (length bids).
Proof.
  unfold load_u, buf, snapshot_pieces. load_at 13%nat.
  apply le_unsigned. change (256 ^ Z.of_nat 1) with 256. lia.
Qed.

Lemma group_count_asks :
  load_u (57 + length bids * 15 + 2) 1 buf = Z.of_nat (length asks).
Proof.
  unfold load_u, buf, snapshot_pieces. load_at 16%nat.
  apply le_unsigned. change (256 ^ Z.of_nat 1) with 256. lia.
Qed.

Lemma parse_image :
  parse buf len
  = mkDecoder buf len (Some 8%nat) (Some 54%nat) (Some 57%nat)
              (Some (57 + length bids * 15)%nat) (Some (60 + length bids * 15)%nat).
Proof.
  unfold parse, numInGroup_at, sizeof_MessageHeader, sizeof_L2SnapshotRoot,
    sizeof_GroupHeader, sizeof_PriceLevelEntry.
  change (8 + 46)%nat with 54%nat. change (54 + 3)%nat with 57%nat.
  rewrite group_count_bids, Nat2Z.id.
  rewrite group_count_asks, Nat2Z.id.
  replace (len <? 54)%nat with false by (symmetry; apply Nat.ltb_ge; lia).
  replace (len <? 57)%nat with false by (symmetry; apply Nat.ltb_ge; lia).
  replace (len <? 57 + length bids * 15)%nat with false by (symmetry; apply Nat.ltb_ge; lia).
  replace (len <? 57 + length bids * 15 + 3)%nat with false
    by (symmetry; apply Nat.ltb_ge; lia).
  replace (len <? 57 + length bids * 15 + 3 + length asks * 15)%nat with false
    by (symmetry; apply Nat.ltb_ge; lia).
  do 2 f_equal. lia.
Qed.

Lemma header_image : load_u 4 2 buf = SCHEMA_ID /\ load_u 2 2 buf = TEMPLATE_L2_SNAPSHOT.
Proof.
  unfold load_u, buf, snapshot_pieces. split.
  - load_at 2%nat. reflexivity.
  - load_at 1%nat. reflexivity.
Qed.

Lemma root_image :
  load 8 8 buf = strncpy 8 symbol /\
  load (8 + 8) 8 buf = le_bytes 8 ts /\
  load (8 + 16) 8 buf = le_bytes 8 seq /\
  load (8 + 24) 8 buf = le_bytes 8 ltp /\
  load (8 + 32) 4 buf = le_bytes 4 ltq /\
  load (8 + 36) 8 buf = le_bytes 8 tv /\
  load (8 + 44) 1 buf = le_bytes 1 bc /\
  load (8 + 45) 1 buf = le_bytes 1 ac.
Proof.
  unfold buf, snapshot_pieces. repeat split.
  - load_at 4%nat. reflexivity.
  - load_at 5%nat. reflexivity.
  - load_at 6%nat. reflexivity.
  - load_at 7%nat. reflexivity.
  - load_at 8%nat. reflexivity.
  - load_at 9%nat. reflexivity.
  - load_at 10%nat. reflexivity.
  - load_at 11%nat. reflexivity.
Qed.

Lemma bid_image i e :
  bids !! i = Some e -> wf_entry e -> read_entry buf (57 + i * 15) = e.
Proof.
  intros Hi Hwf.
  assert (D : drop 57 buf
              = concat (List.map entry_bytes bids)
                ++ concat (drop 15 (snapshot_pieces symbol ts seq ltp ltq tv bc ac bids asks))
                ++ tail).
  { unfold buf. rewrite (drop_pieces _ 14) by (unfold snapshot_pieces; piece_lengths).
    unfold snapshot_pieces. cbn [drop concat]. rewrite <- !app_assoc. reflexivity. }
  destruct (drop_entries bids i e
              (concat (drop 15 (snapshot_pieces symbol ts seq ltp ltq tv bc ac bids asks))
               ++ tail) Hi) as [tail' E].
  apply (read_entry_image buf _ e tail'); [|exact Hwf].
  rewrite <- drop_drop, D. exact E.
Qed.

Lemma ask_image i e :
  asks !! i = Some e -> wf_entry e ->
  read_entry buf (60 + length bids * 15 + i * 15) = e.
Proof.
  intros Hi Hwf.
  assert (D : drop (60 + length bids * 15) buf = concat (List.map entry_bytes asks) ++ tail).
  { unfold buf. rewrite (drop_pieces _ 17) by (unfold snapshot_pieces; piece_lengths).
    unfold snapshot_pieces. cbn [drop concat]. rewrite app_nil_r. reflexivity. }
  destruct (drop_entries asks i e tail Hi) as [tail' E].
  apply (read_entry_image buf _ e tail'); [|exact Hwf].
  rewrite <- drop_drop, D. exact E.
Qed.

End Image.

End CodecDecode.

Section CodecClaims.
Import Mem L2md WireProps.

(** C8: for a symbol of at most 8 characters, root fields of their wire
    types and bid and ask lists of at most 10 entries, encoding into a
    buffer of at least the required size succeeds, and decoding the
    buffer (over any length covering the encoded message) is valid and
    returns the same root fields (the symbol NUL-padded to its 8 bytes),
    the same group counts and, level by level, the same entries. Price
    rescaling is exact: [priceFromSbe (priceToSbe x) = x] for every
    32-bit [x]. *)
Theorem C8_snapshot_round_trip
    (buffer : list Z) (bufferSize len : nat) (symbol : list Z)
    (ts seq ltp ltq tv bc ac : Z) (bids asks : list PriceLevelEntry) :
  wf_symbol symbol ->
  is_u64 ts -> is_u64 seq -> is_i64 ltp -> is_u32 ltq -> is_u64 tv ->
  is_u8 bc -> is_u8 ac ->
  Forall wf_entry bids -> Forall wf_entry asks ->
  (length bids <= 10)%nat -> (length asks <= 10)%nat ->
  (calcL2SnapshotSize (Z.of_nat (length bids)) (Z.of_nat (length asks)) <= bufferSize)%nat ->
  (bufferSize <= length buffer)%nat ->
  (calcL2SnapshotSize (Z.of_nat (length bids)) (Z.of_nat (length asks)) <= len)%nat ->
  let r := encode symbol ts seq ltp ltq tv bc ac bids (Z.of_nat (length bids))
                  asks (Z.of_nat (length asks)) (new_encoder buffer bufferSize) in
  let d := new_decoder (buffer_ (snd r)) len in
  fst r = true /\
  encodedLength (snd r)
  = calcL2SnapshotSize (Z.of_nat (length bids)) (Z.of_nat (length asks)) /\
  isValid d = true /\
  symbolRaw d = Some (symbol ++ replicate (8 - length symbol) 0) /\
  timestamp d = Some ts /\ sequenceNumber d = Some seq /\
  lastTradePrice d = Some ltp /\ lastTradeQty d = Some ltq /\
  totalVolume d = Some tv /\ bidCount d = Some bc /\ askCount d = Some ac /\
  numBids d = Z.of_nat (length bids) /\ numAsks d = Z.of_nat (length asks) /\
  (forall i e, bids !! i = Some e -> getBid (Z.of_nat i) d = Some e) /\
  (forall i e, asks !! i = Some e -> getAsk (Z.of_nat i) d = Some e) /\
  (forall x, is_u32 x -> priceFromSbe (priceToSbe x) = x).
Proof.
  intros [Hs1 Hs2] Hts Hseq Hltp Hltq Htv Hbc Hac Hwb Hwa Hnb Hna Hsize Hbuf Hlen r d.
  subst d r. rewrite encode_image by exact Hsize.
  cbn [fst snd buffer_ encodedLength offset_]. unfold new_decoder.
  rewrite calc_size in *.
  set (tail := drop _ buffer).
  rewrite (parse_image symbol ts seq ltp ltq tv bc ac bids asks tail len Hnb Hna Hlen).
  pose proof (header_image symbol ts seq ltp ltq tv bc ac bids asks tail len Hnb Hna Hlen) as [Hsch Htpl].
  pose proof (root_image symbol ts seq ltp ltq tv bc ac bids asks tail len Hnb Hna Hlen)
    as (R0 & R1 & R2 & R3 & R4 & R5 & R6 & R7).
  pose proof (group_count_bids symbol ts seq ltp ltq tv bc ac bids asks tail len Hnb Hna Hlen) as Gb.
  pose proof (group_count_asks symbol ts seq ltp ltq tv bc ac bids asks tail len Hnb Hna Hlen) as Ga.
  unfold getBid, getAsk.
  unfold isValid, templateId, symbolRaw, timestamp, sequenceNumber, lastTradePrice,
    lastTradeQty, totalVolume, bidCount, askCount, numBids, numAsks.
  cbn [d_buffer_ length_ root_ bidsHeader_ bids_ asksHeader_ asks_ mbind option_bind].
  unfold load_i, load_u in *.
  rewrite Hsch, Htpl, R0, R1, R2, R3, R4, R5, R6, R7, Gb, Ga.
  rewrite le_signed64 by exact Hltp.
  unfold is_u64, is_u32, is_u8 in *.
  rewrite !le_unsigned by assumption.
  rewrite strncpy_symbol by assumption.
  repeat split.
  - unfold sizeof_MessageHeader.
    replace (len <? 8)%nat with false by (symmetry; apply Nat.ltb_ge; lia).
    reflexivity.
  - intros i e Hi.
    pose proof (lookup_lt_Some _ _ _ Hi) as Hlt.
    replace (Z.of_nat (length bids) <=? Z.of_nat i) with false
      by (symmetry; apply Z.leb_gt; lia).
    rewrite Nat2Z.id. unfold sizeof_PriceLevelEntry. f_equal.
    apply (bid_image symbol ts seq ltp ltq tv bc ac bids asks tail len Hnb Hna Hlen i e Hi).
    exact (proj1 (Forall_lookup _ _) Hwb i e Hi).
  - intros i e Hi.
    pose proof (lookup_lt_Some _ _ _ Hi) as Hlt.
    replace (Z.of_nat (length asks) <=? Z.of_nat i) with false
      by (symmetry; apply Z.leb_gt; lia).
    rewrite Nat2Z.id. unfold sizeof_PriceLevelEntry. f_equal.
    apply (ask_image symbol ts seq ltp ltq tv bc ac bids asks tail len Hnb Hna Hlen i e Hi).
    exact (proj1 (Forall_lookup _ _) Hwa i e Hi).
  - apply price_round_trip.
Qed.

(** C8 on a message with two bids and one ask (of negative price) in a
    1500-byte buffer, decoded over its 105 bytes. *)
Lemma C8_snapshot_round_trip_witness :
  (wf_symbol (cstr "ESH26") /\
   (length example_bids <= 10)%nat /\ (length example_asks <= 10)%nat /\
   (calcL2SnapshotSize (Z.of_nat (length example_bids)) (Z.of_nat (length example_asks))
    <= 1500)%nat /\
   (1500 <= length example_buffer)%nat) /\
  fst (encode (cstr "ESH26") 1000 1 45000000000 10 25 2 1
              example_bids (Z.of_nat (length example_bids))
              example_asks (Z.of_nat (length example_asks))
              (new_encoder example_buffer 1500)) = true /\
  getAsk (Z.of_nat 0)
    (new_decoder
       (buffer_ (snd (encode (cstr "ESH26") 1000 1 45000000000 10 25 2 1
                             example_bids (Z.of_nat (length example_bids))
                             example_asks (Z.of_nat (length example_asks))
                             (new_encoder example_buffer 1500))))
       105)
  = Some (mkEntry 1 (-2500000) 7 1).
Proof.
  assert (Hsym : wf_symbol (cstr "ESH26")).
  { split; [apply Nat.leb_le; vm_compute; reflexivity|].
    repeat constructor. }
  assert (Hnb : (length example_bids <= 10)%nat)
    by (apply Nat.leb_le; vm_compute; reflexivity).
  assert (Hna : (length example_asks <= 10)%nat)
    by (apply Nat.leb_le; vm_compute; reflexivity).
  assert (Hsize : (calcL2SnapshotSize (Z.of_nat (length example_bids))
                                      (Z.of_nat (length example_asks)) <= 1500)%nat)
    by (apply Nat.leb_le; vm_compute; reflexivity).
  assert (Hbuf : (1500 <= length example_buffer)%nat)
    by (apply Nat.leb_le; vm_compute; reflexivity).
  assert (Hlen : (calcL2SnapshotSize (Z.of_nat (length example_bids))
                                     (Z.of_nat (length example_asks)) <= 105)%nat)
    by (apply Nat.leb_le; vm_compute; reflexivity).
  assert (Hwb : Forall wf_entry example_bids) by (repeat constructor; by_eval).
  assert (Hwa : Forall wf_entry example_asks) by (repeat constructor; by_eval).
  split; [auto|].
  pose proof (C8_snapshot_round_trip example_buffer 1500 105 (cstr "ESH26")
                1000 1 45000000000 10 25 2 1 example_bids example_asks
                Hsym ltac:(by_eval) ltac:(by_eval) ltac:(by_eval) ltac:(by_eval)
                ltac:(by_eval) ltac:(by_eval) ltac:(by_eval)
                Hwb Hwa Hnb Hna Hsize Hbuf Hlen) as H.
  cbv zeta in H.
  destruct H as (A & _ & _ & _ & _ & _ & _ & _ & _ & _ & _ & _ & _ & _ & G & _).
  split; [exact A | exact (G 0%nat _ eq_refl)].
Defined.

End CodecClaims.

(** * Further properties of the code *)

(** ** The ladders, beyond the claims *)

Section LadderExtras.
Import Protocol OrderBook BookProps.

Ltac each_level H := repeat (destruct H as [H|H]; [subst|]); try subst.

Lemma applySide_last_rpt level action px qty orders b :
  last_rpt_seq_ (applyBid level action px qty orders b) = last_rpt_seq_ b /\
  last_rpt_seq_ (applyAsk level action px qty orders b) = last_rpt_seq_ b.
Proof.
  unfold applyBid, applyAsk.
  destruct (applySide level action px qty orders (bids_ b, bid_count_ b)).
  destruct (applySide level action px qty orders (asks_ b, ask_count_ b)).
  split; reflexivity.
Qed.

(** X1: every book reached from a fresh one by incremental entries and
    snapshot applications, whatever their levels and actions, keeps its
    ten slots per side and both counts within [0, 10]. *)
Theorem X1_counts_within_depth (b : CmeOrderBook) :
  reachable b -> book_shape b.
Proof.
  induction 1 as [sid | e b Hwf Hr IH | es n b Hwf Hn Hr IH].
  - exact (proj1 (new_book_inv sid)).
  - destruct IH as (Hb & Ha & Hcb & Hca).
    assert (Hl : 0 <= md_price_level e) by (unfold wf_incr, is_u8 in Hwf; tauto).
    unfold applyUpdate.
    assert (G : forall b', book_shape b' ->
                  book_shape (if last_rpt_seq_ b' <? rpt_seq e
                              then setLastRptSeq (rpt_seq e) b' else b')).
    { intros b' H'. destruct (last_rpt_seq_ b' <? rpt_seq e); exact H'. }
    apply G.
    destruct ((md_entry_type e =? Bid) || (md_entry_type e =? ImpliedBid)).
    { destruct (applyBid_sides (md_price_level e) (md_update_action e) (md_entry_px e)
                  (md_entry_size e) (number_of_orders e) b) as (E1 & E2 & E3 & E4).
      destruct (applySide_shape (md_price_level e) (md_update_action e) (md_entry_px e)
                  (md_entry_size e) (number_of_orders e) _ _ Hb Hcb Hl) as [L C].
      unfold book_shape. rewrite E1, E2, E3, E4. auto. }
    destruct ((md_entry_type e =? Offer) || (md_entry_type e =? ImpliedOffer)).
    { destruct (applyAsk_sides (md_price_level e) (md_update_action e) (md_entry_px e)
                  (md_entry_size e) (number_of_orders e) b) as (E1 & E2 & E3 & E4).
      destruct (applySide_shape (md_price_level e) (md_update_action e) (md_entry_px e)
                  (md_entry_size e) (number_of_orders e) _ _ Ha Hca Hl) as [L C].
      unfold book_shape. rewrite E1, E2, E3, E4. auto. }
    destruct (md_entry_type e =? Trade); unfold book_shape; cbn; auto.
  - destruct IH as (Hb & Ha & _).
    exact (proj1 (applySnapshot_inv es n b Hwf Hb Ha)).
Qed.

(** X1 on the book of [change_on_empty], whose slots are not clean. *)
Lemma X1_counts_within_depth_witness :
  reachable change_on_empty /\ book_shape change_on_empty.
Proof.
  assert (R : reachable change_on_empty).
  { apply reach_update; [by_eval | apply reach_new]. }
  split; [exact R | exact (X1_counts_within_depth change_on_empty R)].
Defined.

(** X2: an applied entry leaves [last_rpt_seq_] at the larger of its
    old value and the entry's [rpt_seq], whatever the entry's type,
    action and level; nothing else of the entry reaches it. *)
Theorem X2_last_rpt_seq_is_running_max (entry : MDIncrementalRefreshEntry)
    (b : CmeOrderBook) :
  last_rpt_seq_ (applyUpdate entry b) = Z.max (last_rpt_seq_ b) (rpt_seq entry) /\
  security_id_ (applyUpdate entry b) = security_id_ b.
Proof.
  unfold applyUpdate.
  destruct (applySide_last_rpt (md_price_level entry) (md_update_action entry)
              (md_entry_px entry) (md_entry_size entry) (number_of_orders entry) b)
    as [Eb Ea].
  assert (Sb : security_id_ (applyBid (md_price_level entry) (md_update_action entry)
                 (md_entry_px entry) (md_entry_size entry) (number_of_orders entry) b)
               = security_id_ b).
  { unfold applyBid. destruct (applySide _ _ _ _ _ _). reflexivity. }
  assert (Sa : security_id_ (applyAsk (md_price_level entry) (md_update_action entry)
                 (md_entry_px entry) (md_entry_size entry) (number_of_orders entry) b)
               = security_id_ b).
  { unfold applyAsk. destruct (applySide _ _ _ _ _ _). reflexivity. }
  set (b1 := if (md_entry_type entry =? Bid) || (md_entry_type entry =? ImpliedBid) then _
             else _).
  assert (L : last_rpt_seq_ b1 = last_rpt_seq_ b /\ security_id_ b1 = security_id_ b).
  { subst b1.
    destruct ((md_entry_type entry =? Bid) || (md_entry_type entry =? ImpliedBid)); [auto|].
    destruct ((md_entry_type entry =? Offer) || (md_entry_type entry =? ImpliedOffer));
      [auto|].
    destruct (md_entry_type entry =? Trade); auto. }
  destruct L as [L S].
  destruct (Z.ltb_spec (last_rpt_seq_ b1) (rpt_seq entry)) as [H|H]; cbn; rewrite <- ?L; lia.
Qed.

(** X3: an entry whose type is none of Bid, Offer, ImpliedBid,
    ImpliedOffer, or whose level is 0 or above 10, leaves both ladders
    and both counts exactly as they were. *)
Theorem X3_ladders_untouched (entry : MDIncrementalRefreshEntry) (b : CmeOrderBook) :
  (md_entry_type entry <> Bid /\ md_entry_type entry <> ImpliedBid /\
   md_entry_type entry <> Offer /\ md_entry_type entry <> ImpliedOffer) \/
  md_price_level entry = 0 \/ 10 < md_price_level entry ->
  bids_ (applyUpdate entry b) = bids_ b /\ asks_ (applyUpdate entry b) = asks_ b /\
  bid_count_ (applyUpdate entry b) = bid_count_ b /\
  ask_count_ (applyUpdate entry b) = ask_count_ b.
Proof.
  intros H. unfold applyUpdate.
  set (b1 := if (md_entry_type entry =? Bid) || (md_entry_type entry =? ImpliedBid) then _
             else _).
  assert (G : bids_ b1 = bids_ b /\ asks_ b1 = asks_ b /\
              bid_count_ b1 = bid_count_ b /\ ask_count_ b1 = ask_count_ b).
  { subst b1. destruct H as [(H1 & H2 & H3 & H4) | Hl].
    - replace (md_entry_type entry =? Bid) with false by (symmetry; apply Z.eqb_neq; exact H1).
      replace (md_entry_type entry =? ImpliedBid) with false
        by (symmetry; apply Z.eqb_neq; exact H2).
      replace (md_entry_type entry =? Offer) with false
        by (symmetry; apply Z.eqb_neq; exact H3).
      replace (md_entry_type entry =? ImpliedOffer) with false
        by (symmetry; apply Z.eqb_neq; exact H4).
      cbn [orb]. destruct (md_entry_type entry =? Trade); cbn; auto.
    - assert (Hg : (md_price_level entry =? 0) || (CME_MAX_DEPTH <? md_price_level entry)
                   = true).
      { apply orb_true_iff. unfold CME_MAX_DEPTH.
        destruct Hl as [Hl|Hl]; [left; apply Z.eqb_eq | right; apply Z.ltb_lt]; exact Hl. }
      destruct ((md_entry_type entry =? Bid) || (md_entry_type entry =? ImpliedBid)).
      { destruct (applyBid_sides (md_price_level entry) (md_update_action entry)
                    (md_entry_px entry) (md_entry_size entry) (number_of_orders entry) b)
          as (E1 & E2 & E3 & E4).
        rewrite E1, E2, E3, E4, applySide_ignored by exact Hg. auto. }
      destruct ((md_entry_type entry =? Offer) || (md_entry_type entry =? ImpliedOffer)).
      { destruct (applyAsk_sides (md_price_level entry) (md_update_action entry)
                    (md_entry_px entry) (md_entry_size entry) (number_of_orders entry) b)
          as (E1 & E2 & E3 & E4).
        rewrite E1, E2, E3, E4, applySide_ignored by exact Hg. auto. }
      destruct (md_entry_type entry =? Trade); cbn; auto. }
  destruct (last_rpt_seq_ b1 <? rpt_seq entry); exact G.
Qed.

(** X3 on a New bid at level 11 arriving on the five-bid book. *)
Lemma X3_ladders_untouched_witness :
  (md_price_level (mkIncr 1 1 SECURITY_ID_ESH26 9 Bid New 11 1) = 0 \/
   10 < md_price_level (mkIncr 1 1 SECURITY_ID_ESH26 9 Bid New 11 1)) /\
  bids_ (applyUpdate (mkIncr 1 1 SECURITY_ID_ESH26 9 Bid New 11 1) five_bids)
  = bids_ five_bids.
Proof.
  assert (H : md_price_level (mkIncr 1 1 SECURITY_ID_ESH26 9 Bid New 11 1) = 0 \/
              10 < md_price_level (mkIncr 1 1 SECURITY_ID_ESH26 9 Bid New 11 1))
    by (right; reflexivity).
  split; [exact H|].
  exact (proj1 (X3_ladders_untouched _ five_bids (or_intror H))).
Defined.

Lemma level_in_depth level :
  1 <= level <= 10 -> (level =? 0) || (CME_MAX_DEPTH <? level) = false.
Proof.
  intros H. unfold CME_MAX_DEPTH. apply orb_false_iff.
  split; [apply Z.eqb_neq | apply Z.ltb_ge]; lia.
Qed.

Lemma ten_levels level :
  1 <= level <= 10 ->
  level = 1 \/ level = 2 \/ level = 3 \/ level = 4 \/ level = 5 \/
  level = 6 \/ level = 7 \/ level = 8 \/ level = 9 \/ level = 10.
Proof. lia. Qed.

(** X4: the loops of New, Delete and DeleteFrom in closed form, for a
    level L in 1..10 on a ten-slot side holding [cnt] levels. New puts
    the level at position L, moves positions L..9 one deeper and loses
    position 10; Delete closes the gap at L and zeroes position 10;
    DeleteFrom keeps positions 1..L-1 and zeroes the rest. The count
    becomes min(cnt + 1, 10), max(cnt - 1, 0) and L - 1. *)
Theorem X4_shift_actions_closed_form (level px qty orders cnt : Z)
    (a : list CmePriceLevel) :
  length a = 10%nat -> 1 <= level <= 10 -> 0 <= cnt <= 10 ->
  let idx := Z.to_nat (level - 1) in
  applySide level New px qty orders (a, cnt)
  = (take idx a ++ [mkLevel px qty orders] ++ take (9 - idx) (drop idx a),
     Z.min (cnt + 1) 10) /\
  applySide level Delete px qty orders (a, cnt)
  = (take idx a ++ drop (S idx) a ++ [level0], Z.max (cnt - 1) 0) /\
  applySide level DeleteFrom px qty orders (a, cnt)
  = (take idx a ++ replicate (10 - idx) level0, level - 1).
Proof.
  intros Ha Hl Hc idx. subst idx.
  pose proof (level_in_depth level Hl) as Hg.
  destruct (ten_slots a Ha) as (a0&a1&a2&a3&a4&a5&a6&a7&a8&a9&->).
  unfold applySide. rewrite Hg.
  change (New =? New) with true. change (Delete =? New) with false.
  change (Delete =? Change) with false. change (Delete =? Delete) with true.
  change (DeleteFrom =? New) with false. change (DeleteFrom =? Change) with false.
  change (DeleteFrom =? Delete) with false. change (DeleteFrom =? DeleteThru) with false.
  change (DeleteFrom =? DeleteFrom) with true. cbv iota.
  pose proof (ten_levels level Hl) as Hcase.
  split; [|split]; f_equal.
  - clear Hg Hl Hc. each_level Hcase; vm_compute; reflexivity.
  - unfold CME_MAX_DEPTH. destruct (Z.ltb_spec cnt 10) as [L|L];
      [rewrite u8_small by lia|]; lia.
  - clear Hg Hl Hc. each_level Hcase; vm_compute; reflexivity.
  - destruct (Z.ltb_spec 0 cnt) as [L|L]; [rewrite u8_small by lia|]; lia.
  - clear Hg Hl Hc. each_level Hcase; vm_compute; reflexivity.
  - rewrite Z2Nat.id by lia. apply u8_small. lia.
Qed.

(** X4 at scenario C: DeleteFrom at level 3 on the five-bid book. *)
Lemma X4_shift_actions_witness :
  (length (bids_ five_bids) = 10%nat /\ 1 <= 3 <= 10 /\ 0 <= 5 <= 10) /\
  applySide 3 DeleteFrom 0 0 0 (bids_ five_bids, 5)
  = (take (Z.to_nat (3 - 1)) (bids_ five_bids)
     ++ replicate (10 - Z.to_nat (3 - 1)) level0, 3 - 1).
Proof.
  assert (Ha : length (bids_ five_bids) = 10%nat) by (vm_compute; reflexivity).
  assert (Hl : 1 <= 3 <= 10) by lia.
  assert (Hc : 0 <= 5 <= 10) by lia.
  split; [auto|].
  exact (proj2 (proj2 (X4_shift_actions_closed_form 3 0 0 0 5 (bids_ five_bids) Ha Hl Hc))).
Defined.

(** X5: on a side that is not full and whose last slot is zero, a New
    at level L followed by a Delete at the same level gives back the
    side and its count unchanged. *)
Theorem X5_new_then_delete_restores (level px qty orders qty' px' orders' cnt : Z)
    (a : list CmePriceLevel) :
  length a = 10%nat -> a !! 9%nat = Some level0 ->
  1 <= level <= 10 -> 0 <= cnt < 10 ->
  applySide level Delete px' qty' orders' (applySide level New px qty orders (a, cnt))
  = (a, cnt).
Proof.
  intros Ha Hlast Hl Hc.
  pose proof (level_in_depth level Hl) as Hg.
  destruct (ten_slots a Ha) as (a0&a1&a2&a3&a4&a5&a6&a7&a8&a9&->).
  cbn in Hlast. inversion Hlast; subst.
  unfold applySide. rewrite Hg.
  change (New =? New) with true. change (Delete =? New) with false.
  change (Delete =? Change) with false. change (Delete =? Delete) with true.
  cbv iota.
  pose proof (ten_levels level Hl) as Hcase.
  f_equal.
  - clear Hg Hl Hc. each_level Hcase; vm_compute; reflexivity.
  - unfold CME_MAX_DEPTH.
    replace (cnt <? 10) with true by (symmetry; apply Z.ltb_lt; lia).
    rewrite (u8_small (cnt + 1)) by lia.
    replace (0 <? cnt + 1) with true by (symmetry; apply Z.ltb_lt; lia).
    replace (cnt + 1 - 1) with cnt by lia. apply u8_small. lia.
Qed.

(** X5 on the five-bid book, at level 2. *)
Lemma X5_new_then_delete_witness :
  (length (bids_ five_bids) = 10%nat /\ bids_ five_bids !! 9%nat = Some level0 /\
   1 <= 2 <= 10 /\ 0 <= 5 < 10) /\
  applySide 2 Delete 0 0 0 (applySide 2 New 44998000000 4 1 (bids_ five_bids, 5))
  = (bids_ five_bids, 5).
Proof.
  assert (Ha : length (bids_ five_bids) = 10%nat) by (vm_compute; reflexivity).
  assert (H9 : bids_ five_bids !! 9%nat = Some level0) by (vm_compute; reflexivity).
  assert (Hl : 1 <= 2 <= 10) by lia.
  assert (Hc : 0 <= 5 < 10) by lia.
  split; [auto|].
  exact (X5_new_then_delete_restores 2 44998000000 4 1 0 0 0 5 (bids_ five_bids) Ha H9 Hl Hc).
Defined.

(** The ladder part of a book. *)
Lemma snapshot_entry_ladders b1 b2 e :
  bids_ b1 = bids_ b2 -> asks_ b1 = asks_ b2 ->
  bid_count_ b1 = bid_count_ b2 -> ask_count_ b1 = ask_count_ b2 ->
  bids_ (applySnapshotEntry b1 e) = bids_ (applySnapshotEntry b2 e) /\
  asks_ (applySnapshotEntry b1 e) = asks_ (applySnapshotEntry b2 e) /\
  bid_count_ (applySnapshotEntry b1 e) = bid_count_ (applySnapshotEntry b2 e) /\
  ask_count_ (applySnapshotEntry b1 e) = ask_count_ (applySnapshotEntry b2 e).
Proof.
  intros E1 E2 E3 E4. unfold applySnapshotEntry.
  destruct ((snap_md_price_level e =? 0) || (CME_MAX_DEPTH <? snap_md_price_level e));
    [auto|].
  destruct (snap_md_entry_type e =? Bid); [cbn; rewrite E1, E2, E3, E4; auto|].
  destruct (snap_md_entry_type e =? Offer); [cbn; rewrite E1, E2, E3, E4; auto|].
  auto.
Qed.

Lemma snapshot_entry_tape b e :
  security_id_ (applySnapshotEntry b e) = security_id_ b /\
  last_rpt_seq_ (applySnapshotEntry b e) = last_rpt_seq_ b /\
  last_trade_price_ (applySnapshotEntry b e) = last_trade_price_ b /\
  last_trade_qty_ (applySnapshotEntry b e) = last_trade_qty_ b /\
  total_volume_ (applySnapshotEntry b e) = total_volume_ b.
Proof.
  unfold applySnapshotEntry.
  destruct ((snap_md_price_level e =? 0) || (CME_MAX_DEPTH <? snap_md_price_level e));
    [auto|].
  destruct (snap_md_entry_type e =? Bid); [cbn; auto|].
  destruct (snap_md_entry_type e =? Offer); cbn; auto.
Qed.

Lemma zero_all_ten a : length a = 10%nat -> zero_all a = replicate 10 level0.
Proof.
  intros H. destruct (ten_slots a H) as (a0&a1&a2&a3&a4&a5&a6&a7&a8&a9&->). reflexivity.
Qed.

(** X6: a snapshot application replaces the ladders wholesale: the
    ladders and counts it produces are the same from any two ten-slot
    books, so nothing of the previous levels survives; the instrument id,
    [last_rpt_seq_] and the trade tape are carried over untouched. *)
Theorem X6_snapshot_replaces_ladders (entries : list MDSnapshotEntry) (count : Z)
    (b1 b2 : CmeOrderBook) :
  length (bids_ b1) = 10%nat -> length (asks_ b1) = 10%nat ->
  length (bids_ b2) = 10%nat -> length (asks_ b2) = 10%nat ->
  (bids_ (applySnapshot entries count b1) = bids_ (applySnapshot entries count b2) /\
   asks_ (applySnapshot entries count b1) = asks_ (applySnapshot entries count b2) /\
   bid_count_ (applySnapshot entries count b1) = bid_count_ (applySnapshot entries count b2) /\
   ask_count_ (applySnapshot entries count b1) = ask_count_ (applySnapshot entries count b2))
  /\
  (security_id_ (applySnapshot entries count b1) = security_id_ b1 /\
   last_rpt_seq_ (applySnapshot entries count b1) = last_rpt_seq_ b1 /\
   last_trade_price_ (applySnapshot entries count b1) = last_trade_price_ b1 /\
   last_trade_qty_ (applySnapshot entries count b1) = last_trade_qty_ b1 /\
   total_volume_ (applySnapshot entries count b1) = total_volume_ b1).
Proof.
  intros H1 H2 H3 H4. unfold applySnapshot. split.
  - assert (S : bids_ (clear b1) = bids_ (clear b2) /\ asks_ (clear b1) = asks_ (clear b2) /\
                bid_count_ (clear b1) = bid_count_ (clear b2) /\
                ask_count_ (clear b1) = ask_count_ (clear b2)).
    { unfold clear; cbn. rewrite !zero_all_ten by assumption. auto. }
    revert S. generalize (clear b1) (clear b2). generalize (take (Z.to_nat count) entries).
    intros es. induction es as [|e es IH]; intros c1 c2 S; [exact S|].
    cbn [foldl]. apply IH.
    destruct S as (S1 & S2 & S3 & S4). apply snapshot_entry_ladders; assumption.
  - assert (T : security_id_ (clear b1) = security_id_ b1 /\
                last_rpt_seq_ (clear b1) = last_rpt_seq_ b1 /\
                last_trade_price_ (clear b1) = last_trade_price_ b1 /\
                last_trade_qty_ (clear b1) = last_trade_qty_ b1 /\
                total_volume_ (clear b1) = total_volume_ b1) by (cbn; auto).
    revert T. generalize (clear b1). generalize (take (Z.to_nat count) entries).
    intros es. induction es as [|e es IH]; intros c T; [exact T|].
    cbn [foldl]. apply IH.
    destruct (snapshot_entry_tape c e) as (A & B & C & D & E).
    destruct T as (T1 & T2 & T3 & T4 & T5).
    rewrite A, B, C, D, E. auto.
Qed.

(** X6 on the five-bid book and a fresh book. *)
Lemma X6_snapshot_replaces_witness :
  (length (bids_ five_bids) = 10%nat /\ length (asks_ five_bids) = 10%nat) /\
  bids_ (applySnapshot [mkSnap 100 7 Bid 1 1] 1 five_bids)
  = bids_ (applySnapshot [mkSnap 100 7 Bid 1 1] 1 (new_book SECURITY_ID_ESH26)).
Proof.
  assert (H1 : length (bids_ five_bids) = 10%nat) by (vm_compute; reflexivity).
  assert (H2 : length (asks_ five_bids) = 10%nat) by (vm_compute; reflexivity).
  assert (H3 : length (bids_ (new_book SECURITY_ID_ESH26)) = 10%nat)
    by (vm_compute; reflexivity).
  assert (H4 : length (asks_ (new_book SECURITY_ID_ESH26)) = 10%nat)
    by (vm_compute; reflexivity).
  split; [auto|].
  exact (proj1 (proj1 (X6_snapshot_replaces_ladders [mkSnap 100 7 Bid 1 1] 1 five_bids
                         (new_book SECURITY_ID_ESH26) H1 H2 H3 H4))).
Defined.

Lemma convert_loop_shape (f : nat -> MarketData.PriceLevel) n : forall s acc,
  length (foldl (fun acc i => <[i := f i]> acc) acc (seq s n)) = length acc /\
  forall i, (i < s \/ s + n <= i)%nat ->
    foldl (fun acc i => <[i := f i]> acc) acc (seq s n) !! i = acc !! i.
Proof.
  induction n as [|n IH]; intros s acc; cbn [seq foldl]; [auto|].
  destruct (IH (S s) (<[s := f s]> acc)) as [L K]. split.
  - rewrite L. apply length_insert.
  - intros i Hi. rewrite K by lia. apply list_lookup_insert_ne. lia.
Qed.

Lemma convert_side_shape a cnt :
  length (MarketData.levels (convert_side a cnt)) = 10%nat /\
  MarketData.count (convert_side a cnt) <= 10 /\
  forall i, Z.min cnt 10 <= Z.of_nat i -> (i < 10)%nat ->
    MarketData.levels (convert_side a cnt) !! i = Some level_out0.
Proof.
  unfold convert_side. cbn [MarketData.levels MarketData.count].
  destruct (convert_loop_shape (fun i => convert_level (default level0 (a !! i)))
              (Z.to_nat (Z.min cnt MarketData.MAX_DEPTH)) 0 (replicate 10 level_out0))
    as [L K].
  unfold MarketData.MAX_DEPTH in *. split; [rewrite L; reflexivity|]. split; [lia|].
  intros i Hi Hlt. rewrite K by lia.
  apply lookup_replicate. split; [reflexivity | exact Hlt].
Qed.

(** X7: the snapshot handed to the publisher never shows a slot beyond
    the count: each side has ten level slots, a count of at most 10, and
    zero levels at every index from the count on, whatever the stored
    slots beyond the count hold. The symbol field has 8 bytes, the last
    of them NUL. *)
Theorem X7_snapshot_hides_slots_beyond_count (b : CmeOrderBook) :
  (length (MarketData.levels (MarketData.bids (getSnapshot b))) = 10%nat /\
   MarketData.count (MarketData.bids (getSnapshot b)) <= 10 /\
   forall i, Z.min (bid_count_ b) 10 <= Z.of_nat i -> (i < 10)%nat ->
     MarketData.levels (MarketData.bids (getSnapshot b)) !! i = Some level_out0) /\
  (length (MarketData.levels (MarketData.asks (getSnapshot b))) = 10%nat /\
   MarketData.count (MarketData.asks (getSnapshot b)) <= 10 /\
   forall i, Z.min (ask_count_ b) 10 <= Z.of_nat i -> (i < 10)%nat ->
     MarketData.levels (MarketData.asks (getSnapshot b)) !! i = Some level_out0) /\
  length (MarketData.symbol (getSnapshot b)) = 8%nat /\
  MarketData.symbol (getSnapshot b) !! 7%nat = Some 0.
Proof.
  unfold getSnapshot.
  cbn [MarketData.bids MarketData.asks MarketData.symbol].
  split; [apply convert_side_shape|]. split; [apply convert_side_shape|].
  assert (L : length (strncpy 7 (getSymbol b)) = 7%nat) by apply length_strncpy.
  split.
  - rewrite length_app, L. reflexivity.
  - rewrite lookup_app_r by lia. rewrite L. reflexivity.
Qed.

End LadderExtras.

(** ** The recovery state machine, beyond the claims *)

Section RecoveryExtras.
Import Protocol Recovery FeedProps ExtraProps.

Lemma u32_small x : 0 <= x < 2 ^ 32 -> u32 x = x.
Proof. intros H. unfold u32. apply Z.mod_small. exact H. Qed.

(** A run of consecutive sequences starting right after [last_good] is
    accepted whole by a Normal record that expects it. *)
Lemma consecutive_accepted sid n : forall (rm : RecoveryManager) st acc,
  states_ rm !! sid = Some st -> state st = Normal ->
  expected_rpt_seq st = last_good_rpt_seq st + 1 ->
  0 <= last_good_rpt_seq st -> last_good_rpt_seq st + Z.of_nat n < 2 ^ 32 - 1 ->
  foldl (fun acc rpt =>
           (fst acc ++ [fst (onIncrementalMessage sid rpt (snd acc))],
            snd (onIncrementalMessage sid rpt (snd acc))))
        (acc, rm)
        (List.map (fun i => last_good_rpt_seq st + 1 + Z.of_nat i) (seq 0 n))
  = (acc ++ replicate n true,
     if decide (n = 0%nat) then rm
     else mkRM (<[sid := mkSRS Normal (last_good_rpt_seq st + Z.of_nat n + 1)
                               (last_good_rpt_seq st + Z.of_nat n)
                               (snapshot_rpt_seq st) (gap_detected_time st)
                               (recovery_attempts st) (buffered_updates st)]> (states_ rm))
               (stats_ rm)).
Proof.
  induction n as [|n IH]; intros rm st acc Hst Hn He Hlo Hhi.
  - cbn. rewrite app_nil_r. reflexivity.
  - rewrite seq_S, List.map_app, foldl_app.
    rewrite (IH rm st acc Hst Hn He Hlo) by lia.
    cbn [List.map foldl fst snd Nat.add].
    destruct (decide (n = 0%nat)) as [->|Hne].
    + rewrite (onIncremental_advance rm sid _ st Hst Hn) by lia.
      cbn [fst snd]. rewrite u32_small by lia.
      rewrite app_nil_r. destruct (decide (1%nat = 0%nat)); [discriminate|].
      replace (last_good_rpt_seq st + 1 + Z.of_nat 0)
        with (last_good_rpt_seq st + Z.of_nat 1) by lia.
      reflexivity.
    + erewrite onIncremental_advance;
        [ | cbn [states_]; apply lookup_insert_eq | reflexivity
          | cbn [last_good_rpt_seq expected_rpt_seq]; lia ].
      cbn [fst snd states_ stats_ snapshot_rpt_seq gap_detected_time recovery_attempts
           buffered_updates].
      rewrite u32_small by lia. rewrite insert_insert_eq.
      destruct (decide (S n = 0%nat)); [discriminate|].
      rewrite replicate_S_end, app_assoc.
      replace (last_good_rpt_seq st + 1 + Z.of_nat n)
        with (last_good_rpt_seq st + Z.of_nat (S n)) by lia.
      reflexivity.
Qed.

(** X8: an in-order stream has no gaps: when an unknown instrument is
    fed the consecutive sequences [first, ..., first + n] (all below
    [2^32 - 1]), every one of them is accepted, no counter moves, and the
    instrument ends in Normal with [last_good_rpt_seq = first + n] and
    [expected_rpt_seq = first + n + 1]. *)
Theorem X8_in_order_stream_accepted (rm : RecoveryManager) (sid first : Z) (n : nat) :
  states_ rm !! sid = None ->
  0 <= first -> first + Z.of_nat n < 2 ^ 32 - 1 ->
  fst (feed sid (consecutive first (S n)) rm) = replicate (S n) true /\
  states_ (snd (feed sid (consecutive first (S n)) rm)) !! sid
  = Some (mkSRS Normal (first + Z.of_nat n + 1) (first + Z.of_nat n) 0 0 0 []) /\
  stats_ (snd (feed sid (consecutive first (S n)) rm)) = stats_ rm.
Proof.
  intros Hnone Hlo Hhi. unfold feed, consecutive.
  cbn [seq List.map foldl fst snd app]. rewrite Z.add_0_r.
  rewrite <- seq_shift, List.map_map.
  assert (E0 : onIncrementalMessage sid first rm
               = (true, mkRM (<[sid := mkSRS Normal (first + 1) first 0 0 0 []]> (states_ rm))
                             (stats_ rm))).
  { unfold onIncrementalMessage. rewrite Hnone. unfold initSecurity. rewrite Hnone.
    cbn [default SRS_default snapshot_rpt_seq gap_detected_time recovery_attempts
         buffered_updates].
    rewrite (u32_small (first + 1)) by lia.
    replace (0 <? first + 1) with true by (symmetry; apply Z.ltb_lt; lia).
    replace (first + 1 - 1) with first by lia. rewrite u32_small by lia. reflexivity. }
  rewrite E0. cbn [fst snd].
  erewrite (List.map_ext (fun x => first + Z.of_nat (S x))
              (fun i => last_good_rpt_seq (mkSRS Normal (first + 1) first 0 0 0 [])
                        + 1 + Z.of_nat i)) by (intros; cbn; lia).
  rewrite (consecutive_accepted sid n _ (mkSRS Normal (first + 1) first 0 0 0 []));
    [ | cbn [states_]; apply lookup_insert_eq | reflexivity | reflexivity
      | cbn; lia | cbn; lia ].
  cbn [fst snd last_good_rpt_seq snapshot_rpt_seq gap_detected_time recovery_attempts
       buffered_updates].
  split; [reflexivity|].
  destruct (decide (n = 0%nat)) as [->|Hne]; cbn [states_ stats_].
  - rewrite lookup_insert_eq. split; [|reflexivity]. do 2 f_equal; lia.
  - rewrite lookup_insert_eq. split; reflexivity.
Qed.

(** X8 on sequences 1..5 for an instrument the manager has never seen. *)
Lemma X8_in_order_stream_witness :
  (states_ RecoveryManager_init !! SECURITY_ID_ESH26 = None /\
   0 <= 1 /\ 1 + Z.of_nat 4 < 2 ^ 32 - 1) /\
  fst (feed SECURITY_ID_ESH26 (consecutive 1 5) RecoveryManager_init) = replicate 5 true.
Proof.
  assert (H1 : states_ RecoveryManager_init !! SECURITY_ID_ESH26 = None) by reflexivity.
  assert (H2 : 0 <= 1) by lia.
  assert (H3 : 1 + Z.of_nat 4 < 2 ^ 32 - 1) by (vm_compute; reflexivity).
  split; [auto|].
  exact (proj1 (X8_in_order_stream_accepted RecoveryManager_init SECURITY_ID_ESH26 1 4
                  H1 H2 H3)).
Defined.

(** X9: an incremental, for whatever instrument and with whatever
    sequence, never removes a recovery record and never lowers its
    [last_good_rpt_seq]. *)
Theorem X9_last_good_never_decreases (rm : RecoveryManager) (k rpt sid : Z)
    (st : SecurityRecoveryState) :
  states_ rm !! sid = Some st ->
  exists st', states_ (snd (onIncrementalMessage k rpt rm)) !! sid = Some st' /\
              last_good_rpt_seq st <= last_good_rpt_seq st'.
Proof.
  intros Hst. destruct (Z.eq_dec k sid) as [->|Hne].
  - unfold onIncrementalMessage. rewrite Hst.
    destruct (state st).
    + destruct ((last_good_rpt_seq st <=? rpt) && (rpt <=? expected_rpt_seq st)) eqn:E.
      * destruct (Z.ltb_spec (last_good_rpt_seq st) rpt) as [L|L]; cbn [snd states_].
        { eexists. rewrite lookup_insert_eq. split; [reflexivity|]. cbn. lia. }
        { exists st. split; [exact Hst | lia]. }
      * destruct (rpt <? last_good_rpt_seq st); cbn [snd states_].
        { exists st. split; [exact Hst | lia]. }
        { eexists. rewrite lookup_insert_eq. split; [reflexivity|]. cbn. lia. }
    + exists st. split; [exact Hst | lia].
    + exists st. split; [exact Hst | lia].
  - exists st. rewrite onIncremental_other by exact Hne. split; [exact Hst | lia].
Qed.

(** X9 on the record near the 32-bit limit, fed an old sequence. *)
Lemma X9_last_good_witness :
  states_ rm_near_wrap !! SECURITY_ID_ESH26
  = Some (mkSRS Normal 4294967295 4294967294 0 0 0 []) /\
  exists st', states_ (snd (onIncrementalMessage SECURITY_ID_ESH26 7 rm_near_wrap))
              !! SECURITY_ID_ESH26 = Some st' /\
              4294967294 <= last_good_rpt_seq st'.
Proof.
  assert (H : states_ rm_near_wrap !! SECURITY_ID_ESH26
              = Some (mkSRS Normal 4294967295 4294967294 0 0 0 []))
    by (vm_compute; reflexivity).
  split; [exact H|].
  exact (X9_last_good_never_decreases rm_near_wrap SECURITY_ID_ESH26 7 SECURITY_ID_ESH26 _ H).
Defined.

Lemma getState_not_normal (rm : RecoveryManager) sid :
  getState sid rm <> Normal <->
  exists st, states_ rm !! sid = Some st /\ state st <> Normal.
Proof.
  unfold getState. destruct (states_ rm !! sid) as [st|]; split.
  - intros H. exists st. auto.
  - intros (st' & E & H). inversion E; subst. exact H.
  - intros H. contradiction.
  - intros (st' & E & _). discriminate E.
Qed.

(** X10: [needsRecovery] answers true exactly when some instrument is
    not in Normal, and [getRecoveringSecurities] lists exactly those
    instruments, each once. *)
Theorem X10_recovery_predicates (rm : RecoveryManager) :
  (needsRecovery rm = true <-> exists sid, getState sid rm <> Normal) /\
  (forall sid, sid ∈ getRecoveringSecurities rm <-> getState sid rm <> Normal) /\
  NoDup (getRecoveringSecurities rm).
Proof.
  split; [|split].
  - unfold needsRecovery. rewrite bool_decide_eq_true, Exists_exists. split.
    + intros ([sid st] & Hin & Hn). apply elem_of_map_to_list in Hin.
      exists sid. apply getState_not_normal. exists st. auto.
    + intros (sid & H). apply getState_not_normal in H as (st & E & Hn).
      exists (sid, st). split; [apply elem_of_map_to_list; exact E | exact Hn].
  - intros sid. unfold getRecoveringSecurities.
    rewrite list_elem_of_fmap, getState_not_normal. split.
    + intros ([sid' st] & -> & Hin). apply list_elem_of_In, filter_In in Hin as [Hin Hf].
      apply list_elem_of_In, elem_of_map_to_list in Hin.
      exists st. split; [exact Hin|]. cbn in Hf.
      apply negb_true_iff, bool_decide_eq_false in Hf. exact Hf.
    + intros (st & E & Hn). exists (sid, st). split; [reflexivity|].
      apply list_elem_of_In, filter_In. split.
      * apply list_elem_of_In, elem_of_map_to_list. exact E.
      * cbn. apply negb_true_iff, bool_decide_eq_false. exact Hn.
  - unfold getRecoveringSecurities.
    pose proof (NoDup_fst_map_to_list (states_ rm)) as ND.
    revert ND. generalize (map_to_list (states_ rm)). intros l.
    induction l as [|[i x] l IH]; intros ND; cbn; [constructor|].
    apply NoDup_cons in ND as [Hni ND].
    destruct (negb (bool_decide (state x = Normal))); [|apply IH; exact ND].
    cbn. apply NoDup_cons. split; [|apply IH; exact ND].
    intros Hin. apply Hni. apply list_elem_of_fmap in Hin as ([i' x'] & -> & Hin).
    apply list_elem_of_fmap. exists (i', x'). split; [reflexivity|].
    apply list_elem_of_In, filter_In in Hin as [Hin _]. apply list_elem_of_In. exact Hin.
Qed.

Lemma timed_out_elem (rm : RecoveryManager) now timeout sid :
  sid ∈ fst (checkTimeouts now timeout rm) <->
  exists st, states_ rm !! sid = Some st /\ timed_out now timeout st = true.
Proof.
  unfold checkTimeouts. cbn [fst]. rewrite list_elem_of_fmap. split.
  - intros ([sid' st] & -> & Hin). apply list_elem_of_In, filter_In in Hin as [Hin Hf].
    apply list_elem_of_In, elem_of_map_to_list in Hin. exists st. auto.
  - intros (st & E & Hf). exists (sid, st). split; [reflexivity|].
    apply list_elem_of_In, filter_In. split; [|exact Hf].
    apply list_elem_of_In, elem_of_map_to_list. exact E.
Qed.

Lemma timed_out_spec now timeout st :
  timed_out now timeout st = true <->
  state st <> Normal /\ gap_detected_time st <> 0 /\
  timeout < u64 (now - gap_detected_time st).
Proof.
  unfold timed_out. rewrite !andb_true_iff, !negb_true_iff, bool_decide_eq_false,
    Z.eqb_neq, Z.ltb_lt. tauto.
Qed.

Lemma sweep_state now timeout st :
  state (sweep now timeout st) = state st /\
  expected_rpt_seq (sweep now timeout st) = expected_rpt_seq st /\
  last_good_rpt_seq (sweep now timeout st) = last_good_rpt_seq st.
Proof.
  unfold sweep. destruct (state st) eqn:E; [auto| |];
    destruct (gap_detected_time st =? 0); cbn; auto;
    destruct (timeout <? u64 (now - gap_detected_time st)); cbn; auto.
Qed.

Lemma sweep_not_again now timeout st :
  0 <= timeout -> timed_out now timeout (sweep now timeout st) = false.
Proof.
  intros Ht. apply not_true_iff_false. rewrite timed_out_spec.
  intros (Hn & Hg & Hlt). destruct (sweep_state now timeout st) as (Es & _).
  rewrite Es in Hn. unfold sweep in Hg, Hlt.
  assert (Z0 : u64 (now - now) = 0) by (rewrite Z.sub_diag; reflexivity).
  destruct (state st); [contradiction| |];
    (destruct (Z.eqb_spec (gap_detected_time st) 0) as [G|G];
     [cbn in Hg, Hlt; rewrite Z0 in Hlt; lia|];
     destruct (Z.ltb_spec timeout (u64 (now - gap_detected_time st))) as [T|T];
     [cbn in Hg, Hlt; rewrite Z0 in Hlt; lia | lia]).
Qed.

Lemma checkTimeouts_state now timeout (rm : RecoveryManager) sid :
  getState sid (snd (checkTimeouts now timeout rm)) = getState sid rm /\
  getExpectedRptSeq sid (snd (checkTimeouts now timeout rm)) = getExpectedRptSeq sid rm.
Proof.
  unfold getState, getExpectedRptSeq, checkTimeouts. cbn [snd states_].
  rewrite lookup_fmap.
  destruct (states_ rm !! sid) as [st|]; cbn; [|auto].
  destruct (sweep_state now timeout st) as (A & B & _). auto.
Qed.

(** X11: the timeout sweep never moves an instrument between states:
    every state and every sequence counter is as before, records in
    Normal and the counters of the manager are untouched. It reports
    exactly the instruments not in Normal whose gap time is set and lies
    more than [timeout_ns] back (as a 64-bit difference); an instrument
    whose gap time was unset is armed with the current time and is not
    reported. A second sweep at the same time reports nothing. *)
Theorem X11_timeout_sweep (rm : RecoveryManager) (now timeout : Z) :
  0 <= timeout ->
  Recovery.stats_ (snd (checkTimeouts now timeout rm)) = Recovery.stats_ rm /\
  (forall sid,
     getState sid (snd (checkTimeouts now timeout rm)) = getState sid rm /\
     getExpectedRptSeq sid (snd (checkTimeouts now timeout rm)) = getExpectedRptSeq sid rm) /\
  (forall sid st, states_ rm !! sid = Some st -> state st = Normal ->
     states_ (snd (checkTimeouts now timeout rm)) !! sid = Some st) /\
  (forall sid, sid ∈ fst (checkTimeouts now timeout rm) <->
     exists st, states_ rm !! sid = Some st /\ state st <> Normal /\
                gap_detected_time st <> 0 /\
                timeout < u64 (now - gap_detected_time st)) /\
  (forall sid st, states_ rm !! sid = Some st -> state st <> Normal ->
     gap_detected_time st = 0 ->
     (sid ∉ fst (checkTimeouts now timeout rm)) /\
     exists st', states_ (snd (checkTimeouts now timeout rm)) !! sid = Some st' /\
                 gap_detected_time st' = now /\
                 recovery_attempts st' = recovery_attempts st) /\
  fst (checkTimeouts now timeout (snd (checkTimeouts now timeout rm))) = [].
Proof.
  intros Ht.
  assert (L : forall sid, states_ (snd (checkTimeouts now timeout rm)) !! sid
                          = sweep now timeout <$> states_ rm !! sid).
  { intros sid. unfold checkTimeouts. cbn [snd states_]. apply lookup_fmap. }
  split; [reflexivity|]. split; [|split; [|split; [|split]]].
  - intros sid. apply checkTimeouts_state.
  - intros sid st Hst Hn. rewrite L, Hst. cbn. unfold sweep. rewrite Hn. reflexivity.
  - intros sid. rewrite timed_out_elem. split.
    + intros (st & E & H). exists st. split; [exact E|]. apply timed_out_spec. exact H.
    + intros (st & E & H). exists st. split; [exact E|]. apply timed_out_spec. exact H.
  - intros sid st Hst Hn Hg. split.
    + rewrite timed_out_elem. intros (st' & E & H).
      rewrite Hst in E. inversion E; subst st'.
      apply timed_out_spec in H as (_ & G & _). contradiction.
    + rewrite L, Hst. cbn. eexists. split; [reflexivity|].
      unfold sweep. destruct (state st); [contradiction| |]; rewrite Hg; cbn; auto.
  - assert (N : forall sid,
               sid ∉ fst (checkTimeouts now timeout (snd (checkTimeouts now timeout rm)))).
    { intros sid. rewrite timed_out_elem. intros (st' & E & H).
      rewrite L in E. destruct (states_ rm !! sid) as [st|]; [|discriminate E].
      cbn in E. inversion E; subst st'.
      rewrite sweep_not_again in H by exact Ht. discriminate H. }
    destruct (fst (checkTimeouts now timeout (snd (checkTimeouts now timeout rm))))
      as [|x l]; [reflexivity|].
    exfalso. apply (N x). apply list_elem_of_here.
Qed.

(** X11 on a manager holding instrument 1001 in GapDetected with its gap
    time unset, with the default timeout of five seconds: the first
    sweep arms the instrument and the second reports nothing. *)
Lemma X11_timeout_sweep_witness :
  0 <= 5000000000 /\
  getState SECURITY_ID_ESH26 rm_gap = GapDetected /\
  fst (checkTimeouts 1000 5000000000 (snd (checkTimeouts 1000 5000000000 rm_gap))) = [].
Proof.
  assert (H : 0 <= 5000000000) by lia.
  assert (G : getState SECURITY_ID_ESH26 rm_gap = GapDetected) by (vm_compute; reflexivity).
  split; [exact H|]. split; [exact G|].
  exact (proj2 (proj2 (proj2 (proj2 (proj2
    (X11_timeout_sweep rm_gap 1000 5000000000 H)))))).
Defined.

Lemma onSnapshot_other (rm : RecoveryManager) k a b other :
  other <> k ->
  states_ (snd (onSnapshotMessage k a b rm)) !! other = states_ rm !! other.
Proof.
  intros Hne.
  assert (I : forall v, <[k := v]> (states_ rm) !! other = states_ rm !! other).
  { intros v. apply lookup_insert_ne. congruence. }
  unfold onSnapshotMessage, initSecurity.
  destruct (states_ rm !! k) as [st|]; cbn [snd states_]; [|apply I].
  destruct (state st); cbn [snd states_].
  - destruct (last_good_rpt_seq st <=? a); reflexivity.
  - apply I.
  - destruct (snapshot_rpt_seq st <? a); cbn [snd states_]; [apply I|reflexivity].
Qed.

Lemma completeRecovery_other (rm : RecoveryManager) k a other :
  other <> k ->
  states_ (completeRecovery k a rm) !! other = states_ rm !! other.
Proof.
  intros Hne. unfold completeRecovery.
  destruct (states_ rm !! k) as [st|]; cbn [states_]; [|reflexivity].
  apply lookup_insert_ne. congruence.
Qed.

(** X12: the recovery manager keeps one record per instrument and no
    operation for instrument [k] reads or writes the record of another
    instrument: an incremental message, a snapshot message, a completed
    recovery, an initialisation and a sequence reset for [k] all leave
    the record of every [other] instrument, present or absent, as it
    was. *)
Theorem X12_instruments_independent (rm : RecoveryManager) (k other a b : Z) :
  other <> k ->
  states_ (snd (onIncrementalMessage k a rm)) !! other = states_ rm !! other /\
  states_ (snd (onSnapshotMessage k a b rm)) !! other = states_ rm !! other /\
  states_ (completeRecovery k a rm) !! other = states_ rm !! other /\
  states_ (initSecurity k a rm) !! other = states_ rm !! other /\
  states_ (resetExpectedSeq k a rm) !! other = states_ rm !! other.
Proof.
  intros Hne.
  split; [apply onIncremental_other; congruence|].
  split; [apply onSnapshot_other; exact Hne|].
  split; [apply completeRecovery_other; exact Hne|].
  split; cbn [initSecurity resetExpectedSeq states_];
    apply lookup_insert_ne; congruence.
Qed.

(** X12 for the two catalogue instruments 1001 and 1002. *)
Lemma X12_instruments_independent_witness :
  SECURITY_ID_NQM26 <> SECURITY_ID_ESH26 /\
  states_ (completeRecovery SECURITY_ID_ESH26 9 rm_near_wrap) !! SECURITY_ID_NQM26
  = states_ rm_near_wrap !! SECURITY_ID_NQM26.
Proof.
  assert (H : SECURITY_ID_NQM26 <> SECURITY_ID_ESH26)
    by (vm_compute; intro E; discriminate E).
  split; [exact H|].
  exact (proj1 (proj2 (proj2
    (X12_instruments_independent rm_near_wrap SECURITY_ID_ESH26 SECURITY_ID_NQM26 9 0 H)))).
Defined.

End RecoveryExtras.

(** ** Dispatch and the run loop, beyond the claims *)

Section DispatchExtras.
Import Mem Protocol MarketData Recovery BookManager Parser FeedHandler FeedProps ExtraProps.

Lemma with_managers_same (fh : CmeFeedHandler) :
  with_managers (book_manager_ fh) (recovery_manager_ fh) fh = fh.
Proof. destruct fh; reflexivity. Qed.

Lemma getBook_book sid (bm : CmeOrderBookManager) :
  fst (getBook sid bm) = book_of sid bm /\
  dirty_securities_ (snd (getBook sid bm)) = dirty_securities_ bm /\
  books_ (snd (getBook sid bm)) = <[sid := book_of sid bm]> (books_ bm).
Proof.
  unfold getBook, book_of. destruct (books_ bm !! sid) as [b|] eqn:E; cbn.
  - split; [reflexivity|]. split; [reflexivity|].
    symmetry. apply insert_id. exact E.
  - auto.
Qed.

(** What an accepted snapshot does to the two managers. *)
Lemma snapshot_applied last sid rpt es (fh : CmeFeedHandler) rm1 :
  onSnapshotMessage sid rpt last (recovery_manager_ fh) = (true, rm1) ->
  let fh' := handleSnapshotFullRefresh last sid rpt es fh in
  recovery_manager_ fh' = completeRecovery sid rpt rm1 /\
  books_ (book_manager_ fh') !! sid
  = Some (OrderBook.setLastRptSeq rpt
            (OrderBook.applySnapshot es (Z.of_nat (length es))
                                     (book_of sid (book_manager_ fh)))) /\
  dirty_securities_ (book_manager_ fh')
  = {[sid]} ∪ dirty_securities_ (book_manager_ fh) /\
  (forall other, other <> sid ->
     books_ (book_manager_ fh') !! other = books_ (book_manager_ fh) !! other).
Proof.
  intros E fh'. subst fh'. unfold handleSnapshotFullRefresh. rewrite E.
  unfold BookManager.applySnapshot, markDirty.
  destruct (getBook_book sid (book_manager_ fh)) as (B & D & M).
  destruct (getBook sid (book_manager_ fh)) as [book bm1]. cbn [fst snd] in B, D, M.
  subst book. cbn. rewrite D, M.
  split; [reflexivity|]. split; [apply lookup_insert_eq|]. split; [reflexivity|].
  intros other Hne. rewrite !lookup_insert_ne by congruence. reflexivity.
Qed.

(** X13: a snapshot for an instrument in GapDetected completes its
    recovery in one step: the record is Normal again with
    [last_good_rpt_seq] the snapshot's sequence and [expected_rpt_seq]
    the next one (modulo 2^32), [recoveries_completed] is one more, the
    instrument's book is its old book cleared and rebuilt from the
    snapshot entries with [last_rpt_seq_] the snapshot's sequence, the
    instrument is marked dirty, and every other book is untouched. The
    snapshot is taken whatever its sequence: it is not compared with
    the sequences seen before the gap. *)
Theorem X13_snapshot_completes_recovery
    (fh : CmeFeedHandler) (last sid rpt : Z) (es : list MDSnapshotEntry)
    (st : SecurityRecoveryState) :
  states_ (recovery_manager_ fh) !! sid = Some st ->
  state st = GapDetected ->
  let fh' := handleSnapshotFullRefresh last sid rpt es fh in
  states_ (recovery_manager_ fh') !! sid
  = Some (mkSRS Normal (u32 (rpt + 1)) rpt rpt (gap_detected_time st)
                (recovery_attempts st) []) /\
  recoveries_completed (Recovery.stats_ (recovery_manager_ fh'))
  = u64 (recoveries_completed (Recovery.stats_ (recovery_manager_ fh)) + 1) /\
  books_ (book_manager_ fh') !! sid
  = Some (OrderBook.setLastRptSeq rpt
            (OrderBook.applySnapshot es (Z.of_nat (length es))
                                     (book_of sid (book_manager_ fh)))) /\
  sid ∈ dirty_securities_ (book_manager_ fh') /\
  (forall other, other <> sid ->
     books_ (book_manager_ fh') !! other = books_ (book_manager_ fh) !! other /\
     states_ (recovery_manager_ fh') !! other = states_ (recovery_manager_ fh) !! other).
Proof.
  intros Hst Hg fh'. subst fh'.
  assert (E : onSnapshotMessage sid rpt last (recovery_manager_ fh)
              = (true,
                 mkRM (<[sid := mkSRS Recovering (expected_rpt_seq st) (last_good_rpt_seq st)
                                      rpt (gap_detected_time st) (recovery_attempts st)
                                      (buffered_updates st)]>
                         (states_ (recovery_manager_ fh)))
                      (Recovery.stats_ (recovery_manager_ fh)))).
  { unfold onSnapshotMessage. rewrite Hst, Hg. reflexivity. }
  destruct (snapshot_applied last sid rpt es fh _ E) as (R & B & D & O).
  rewrite R, B, D. unfold completeRecovery. cbn [states_ Recovery.stats_].
  rewrite lookup_insert_eq. cbn [states_ Recovery.stats_ snapshot_rpt_seq gap_detected_time
                                  recovery_attempts recovered_one recoveries_completed].
  split; [apply lookup_insert_eq|]. split; [reflexivity|]. split; [reflexivity|].
  split; [apply elem_of_union; left; apply elem_of_singleton; reflexivity|].
  intros other Hne. split; [apply O; exact Hne|].
  rewrite !lookup_insert_ne by congruence. reflexivity.
Qed.

(** X13 on the handler in which instrument 1001 has a gap, with a
    snapshot of one bid and one ask at sequence 40. *)
Lemma X13_snapshot_completes_witness :
  states_ (recovery_manager_ fh_gap) !! SECURITY_ID_ESH26
  = Some (mkSRS GapDetected 2 1 0 0 1 []) /\
  state (mkSRS GapDetected 2 1 0 0 1 []) = GapDetected /\
  states_ (recovery_manager_
             (handleSnapshotFullRefresh 0 SECURITY_ID_ESH26 40
                [mkSnap 44997500000 12 Bid 1 3; mkSnap 45002500000 9 Offer 1 2] fh_gap))
    !! SECURITY_ID_ESH26
  = Some (mkSRS Normal (u32 (40 + 1)) 40 40
                (gap_detected_time (mkSRS GapDetected 2 1 0 0 1 []))
                (recovery_attempts (mkSRS GapDetected 2 1 0 0 1 [])) []).
Proof.
  assert (H : states_ (recovery_manager_ fh_gap) !! SECURITY_ID_ESH26
              = Some (mkSRS GapDetected 2 1 0 0 1 []))
    by (vm_compute; reflexivity).
  split; [exact H|]. split; [reflexivity|].
  exact (proj1 (X13_snapshot_completes_recovery fh_gap 0 SECURITY_ID_ESH26 40
                  [mkSnap 44997500000 12 Bid 1 3; mkSnap 45002500000 9 Offer 1 2]
                  _ H eq_refl)).
Defined.

Lemma snapshot_ignored last sid rpt es (fh : CmeFeedHandler) st :
  states_ (recovery_manager_ fh) !! sid = Some st -> state st = Normal ->
  handleSnapshotFullRefresh last sid rpt es fh = fh.
Proof.
  intros Hst Hn. unfold handleSnapshotFullRefresh, onSnapshotMessage.
  rewrite Hst, Hn.
  destruct (last_good_rpt_seq st <=? rpt); apply with_managers_same.
Qed.

Lemma snapshot_elsewhere last k rpt es (fh : CmeFeedHandler) sid :
  sid <> k ->
  let fh' := handleSnapshotFullRefresh last k rpt es fh in
  states_ (recovery_manager_ fh') !! sid = states_ (recovery_manager_ fh) !! sid /\
  books_ (book_manager_ fh') !! sid = books_ (book_manager_ fh) !! sid /\
  (sid ∈ dirty_securities_ (book_manager_ fh') <-> sid ∈ dirty_securities_ (book_manager_ fh)).
Proof.
  intros Hne fh'. subst fh'.
  pose proof (onSnapshot_other (recovery_manager_ fh) k rpt last sid Hne) as Ho.
  destruct (onSnapshotMessage k rpt last (recovery_manager_ fh)) as [ok rm1] eqn:E.
  cbn [snd] in Ho. destruct ok.
  - destruct (snapshot_applied last k rpt es fh rm1 E) as (R & _ & D & O).
    rewrite R, D, (O sid Hne), completeRecovery_other by exact Hne.
    split; [exact Ho|]. split; [reflexivity|].
    rewrite elem_of_union, elem_of_singleton. tauto.
  - unfold handleSnapshotFullRefresh. rewrite E. cbn. auto.
Qed.

Lemma snapshot_loop_messages fuel len : forall offset data log,
  Forall is_snapshot_msg (fst (snapshot_loop fuel len offset data log)).
Proof.
  induction fuel as [|fuel IH]; intros offset data log; cbn [snapshot_loop].
  - constructor.
  - destruct (offset + Z.to_nat sizeof_SBEMessageHeader <=? len)%nat; [|constructor].
    unfold bind at 1. unfold rd_u at 1.
    destruct (load_u (offset + 2) 2 data =? TEMPLATE_MD_SNAPSHOT_FULL_REFRESH).
    + unfold bind at 1. unfold rd_u at 1.
      destruct (offset + Z.to_nat (calcSnapshotSize (load_u (offset + 30) 1 data)) <=? len)%nat;
        [|constructor].
      unfold bind at 1.
      destruct (read_snapshot_full_refresh offset data _) as [m log1] eqn:Em.
      unfold bind at 1.
      specialize (IH (offset + Z.to_nat (calcSnapshotSize (load_u (offset + 30) 1 data)))%nat
                     data log1).
      destruct (snapshot_loop fuel len _ data log1) as [ms log2].
      cbn [fst ret] in *. constructor; [|exact IH].
      unfold read_snapshot_full_refresh, bind, rd_u, ret in Em.
      destruct (read_array _ _ _ _ _ _) in Em. inversion Em. exact I.
    + unfold bind at 1. unfold rd_u at 1. apply IH.
Qed.

(** X14: a datagram of the snapshot channel never touches an instrument
    that is in Normal: whatever the datagram holds, and even when a
    snapshot in it is newer than everything seen for the instrument, its
    recovery record, its book and its dirty mark are as before. *)
Theorem X14_snapshot_packet_spares_normal
    (fh : CmeFeedHandler) (data : list Z) (len : nat) (sid : Z)
    (st : SecurityRecoveryState) :
  states_ (recovery_manager_ fh) !! sid = Some st ->
  state st = Normal ->
  let fh' := processSnapshotPacket data len fh in
  states_ (recovery_manager_ fh') !! sid = Some st /\
  books_ (book_manager_ fh') !! sid = books_ (book_manager_ fh) !! sid /\
  (sid ∈ dirty_securities_ (book_manager_ fh') <-> sid ∈ dirty_securities_ (book_manager_ fh)).
Proof.
  intros Hst Hn fh'. subst fh'. unfold processSnapshotPacket, parseSnapshotPacket, Parser.run.
  destruct (len <? Z.to_nat sizeof_PacketHeader)%nat.
  { cbn. rewrite Hst. tauto. }
  unfold bind.
  pose proof (snapshot_loop_messages (S len) len (Z.to_nat sizeof_PacketHeader) data [])
    as Hms.
  destruct (snapshot_loop (S len) len (Z.to_nat sizeof_PacketHeader) data []) as [ms log1].
  cbn [fst ret] in *.
  revert fh Hst. induction Hms as [|m ms Hm Hms IH]; intros fh Hst; cbn [foldl].
  - rewrite Hst. tauto.
  - destruct m as [? ?| ? | ? | | last k rpt es]; try contradiction. cbn [dispatch].
    destruct (Z.eq_dec sid k) as [->|Hne].
    + rewrite (snapshot_ignored last k rpt es fh st Hst Hn). apply IH. exact Hst.
    + destruct (snapshot_elsewhere last k rpt es fh sid Hne) as (S1 & B1 & D1).
      rewrite <- B1, <- D1. apply IH. rewrite S1. exact Hst.
Qed.

(** X14 on a handler that knows instrument 1001, in Normal, receiving
    the 203-byte snapshot the simulator builds for that instrument. *)
Lemma X14_snapshot_packet_witness :
  states_ (recovery_manager_ (handleSecurityDefinition SECURITY_ID_ESH26
                                (CmeFeedHandler_init []))) !! SECURITY_ID_ESH26
  = Some (mkSRS Normal 1 0 0 0 0 []) /\
  state (mkSRS Normal 1 0 0 0 0 []) = Normal /\
  states_ (recovery_manager_
             (processSnapshotPacket
                (fst (Simulator.sendSnapshotPacket book_example sim_example)) 203
                (handleSecurityDefinition SECURITY_ID_ESH26 (CmeFeedHandler_init []))))
    !! SECURITY_ID_ESH26
  = Some (mkSRS Normal 1 0 0 0 0 []).
Proof.
  assert (H : states_ (recovery_manager_ (handleSecurityDefinition SECURITY_ID_ESH26
                                            (CmeFeedHandler_init []))) !! SECURITY_ID_ESH26
              = Some (mkSRS Normal 1 0 0 0 0 []))
    by (vm_compute; reflexivity).
  split; [exact H|]. split; [reflexivity|].
  exact (proj1 (X14_snapshot_packet_spares_normal _
                  (fst (Simulator.sendSnapshotPacket book_example sim_example)) 203
                  SECURITY_ID_ESH26 _ H eq_refl)).
Defined.

Lemma calm_settled rm rm' : calm rm rm' -> settled rm -> settled rm'.
Proof.
  intros Hc Hs sid. destruct (Hc sid) as [E|[E|E]]; rewrite E;
    [discriminate | discriminate | apply Hs].
Qed.

Lemma getState_insert (m : gmap Z SecurityRecoveryState) k v stats sid :
  getState sid (mkRM (<[k := v]> m) stats)
  = if decide (sid = k) then state v else getState sid (mkRM m stats).
Proof.
  unfold getState. cbn [states_]. destruct (decide (sid = k)) as [->|Hne].
  - rewrite lookup_insert_eq. reflexivity.
  - rewrite lookup_insert_ne by congruence. reflexivity.
Qed.

Lemma onIncremental_calm k rpt rm : calm rm (snd (onIncrementalMessage k rpt rm)).
Proof.
  intros sid. unfold onIncrementalMessage, initSecurity.
  destruct (states_ rm !! k) as [st|]; cbn [snd].
  - destruct (state st); cbn [snd]; [|right; right; reflexivity ..].
    destruct ((last_good_rpt_seq st <=? rpt) && (rpt <=? expected_rpt_seq st)).
    + destruct (last_good_rpt_seq st <? rpt); cbn [snd]; [|right; right; reflexivity].
      rewrite getState_insert. destruct (decide (sid = k)); cbn; auto.
    + destruct (rpt <? last_good_rpt_seq st); cbn [snd]; [right; right; reflexivity|].
      rewrite getState_insert. destruct (decide (sid = k)); cbn; auto.
  - rewrite getState_insert. destruct (decide (sid = k)); cbn; auto.
Qed.

Lemma handleSnapshot_calm last k rpt es (fh : CmeFeedHandler) :
  calm (recovery_manager_ fh)
       (recovery_manager_ (handleSnapshotFullRefresh last k rpt es fh)).
Proof.
  intros sid. unfold handleSnapshotFullRefresh, onSnapshotMessage, initSecurity,
    completeRecovery.
  destruct (states_ (recovery_manager_ fh) !! k) as [st|] eqn:E; cbn [snd].
  - destruct (state st) eqn:Es.
    + destruct (last_good_rpt_seq st <=? rpt); cbn; auto.
    + cbn. rewrite lookup_insert_eq, getState_insert.
      destruct (decide (sid = k)); cbn; [auto|].
      rewrite getState_insert. destruct (decide (sid = k)); [contradiction|]. auto.
    + destruct (snapshot_rpt_seq st <? rpt); cbn; [|auto].
      rewrite lookup_insert_eq, getState_insert.
      destruct (decide (sid = k)); cbn; [auto|].
      rewrite getState_insert. destruct (decide (sid = k)); [contradiction|]. auto.
  - cbn. rewrite lookup_insert_eq, getState_insert.
    destruct (decide (sid = k)); cbn; [auto|].
    rewrite getState_insert. destruct (decide (sid = k)); [contradiction|]. auto.
Qed.

Lemma dispatch_settled (fh : CmeFeedHandler) m :
  settled (recovery_manager_ fh) -> settled (recovery_manager_ (dispatch fh m)).
Proof.
  intros Hs. destruct m as [sid sym | es | t | | last sid rpt es]; cbn [dispatch].
  - unfold handleSecurityDefinition, initSecurity. cbn. intros s.
    rewrite getState_insert. destruct (decide (s = sid)); cbn; [discriminate|].
    apply (Hs s).
  - unfold handleIncrementalRefresh. revert fh Hs.
    induction es as [|e es IH]; intros fh Hs; cbn [foldl]; [exact Hs|].
    apply IH. unfold handleIncrementalEntry.
    pose proof (onIncremental_calm (security_id e) (rpt_seq e) (recovery_manager_ fh)) as Hc.
    destruct (onIncrementalMessage (security_id e) (rpt_seq e) (recovery_manager_ fh))
      as [ok rm1].
    cbn [snd] in Hc. destruct ok; cbn; exact (calm_settled _ _ Hc Hs).
  - rewrite (proj1 (handleChannelReset_recovery fh)). exact Hs.
  - exact Hs.
  - exact (calm_settled _ _ (handleSnapshot_calm last sid rpt es fh) Hs).
Qed.

Lemma dispatch_all_settled ms : forall (fh : CmeFeedHandler),
  settled (recovery_manager_ fh) -> settled (recovery_manager_ (foldl dispatch fh ms)).
Proof.
  induction ms as [|m ms IH]; intros fh Hs; cbn [foldl]; [exact Hs|].
  apply IH, dispatch_settled, Hs.
Qed.

Lemma run_pass_settled (fh : CmeFeedHandler) p :
  settled (recovery_manager_ fh) -> settled (recovery_manager_ (run_pass fh p)).
Proof.
  intros Hs. unfold run_pass.
  set (fh1 := match incremental_read p with Some _ => _ | None => _ end).
  assert (H1 : settled (recovery_manager_ fh1)).
  { subst fh1. destruct (incremental_read p) as [[data len]|]; [|exact Hs].
    destruct (0 <? len); [|exact Hs]. cbn [with_stats recovery_manager_].
    unfold processIncrementalPacket.
    destruct (fst (Parser.run (parseIncrementalPacket (Z.to_nat len)) data)) as [[q ms]|];
      [|exact Hs].
    apply dispatch_all_settled. exact Hs. }
  clearbody fh1.
  set (fh2 := match snapshot_read p with Some _ => _ | None => _ end).
  assert (H2 : settled (recovery_manager_ fh2)).
  { subst fh2. destruct (snapshot_read p) as [[data len]|]; [|exact H1].
    destruct (0 <? len); [|exact H1]. cbn [with_stats recovery_manager_].
    destruct (needsRecovery (recovery_manager_ fh1)); [|exact H1].
    unfold processSnapshotPacket.
    destruct (fst (Parser.run (parseSnapshotPacket (Z.to_nat len)) data)) as [ms|];
      [|exact H1].
    apply dispatch_all_settled. exact H1. }
  clearbody fh2.
  set (fh3 := if conflation_due p then _ else _).
  assert (H3 : settled (recovery_manager_ fh3)).
  { subst fh3. destruct (conflation_due p); [|exact H2].
    destruct (publishConflatedSnapshots_effect fh2) as (_ & R & _). rewrite R. exact H2. }
  clearbody fh3.
  destruct fh3. cbn -[checkTimeouts] in *. intros sid.
  rewrite (proj1 (checkTimeouts_state _ _ _ sid)). apply H3.
Qed.

(** X15: Recovering is never a resting state. Started from its initial
    state and run through any passes of its loop (any datagrams on
    either channel, of any content and length, conflation ticks and
    timeout sweeps in any order), the handler never leaves an instrument
    in Recovering: every instrument is in Normal or GapDetected after
    every pass, and so is it after any single message dispatched on a
    handler of which this holds. *)
Theorem X15_never_left_recovering :
  (forall (clock : list Z) (passes : list Pass) (sid : Z),
     getState sid (recovery_manager_ (run_passes (CmeFeedHandler_init clock) passes))
     <> Recovering) /\
  (forall (fh : CmeFeedHandler) (m : Message),
     settled (recovery_manager_ fh) -> settled (recovery_manager_ (dispatch fh m))).
Proof.
  split; [|exact dispatch_settled].
  intros clock passes.
  assert (H0 : settled (recovery_manager_ (CmeFeedHandler_init clock))).
  { intros sid. unfold getState. cbn. rewrite lookup_empty. discriminate. }
  unfold run_passes. revert H0. generalize (CmeFeedHandler_init clock).
  induction passes as [|p ps IH]; intros fh Hs; cbn [foldl]; [exact Hs|].
  apply IH, run_pass_settled, Hs.
Qed.

Lemma applyIncremental_self entry (bm : CmeOrderBookManager) :
  books_ (applyIncremental entry bm) !! security_id entry
  = Some (OrderBook.applyUpdate entry (book_of (security_id entry) bm)) /\
  dirty_securities_ (applyIncremental entry bm)
  = {[security_id entry]} ∪ dirty_securities_ bm.
Proof.
  unfold applyIncremental, markDirty.
  destruct (getBook_book (security_id entry) bm) as (B & D & M).
  destruct (getBook (security_id entry) bm) as [book bm1]. cbn [fst snd] in B, D, M.
  subst book. cbn. rewrite D. split; [apply lookup_insert_eq | reflexivity].
Qed.

Lemma entry_marks (fh : CmeFeedHandler) e sid :
  let fh' := handleIncrementalEntry fh e in
  (sid ∉ dirty_securities_ (book_manager_ fh') ->
   books_ (book_manager_ fh') !! sid = books_ (book_manager_ fh) !! sid) /\
  (sid ∈ dirty_securities_ (book_manager_ fh) ->
   sid ∈ dirty_securities_ (book_manager_ fh')) /\
  (sid ∈ dirty_securities_ (book_manager_ fh') ->
   sid ∈ dirty_securities_ (book_manager_ fh) \/ sid = security_id e).
Proof.
  intros fh'. subst fh'. unfold handleIncrementalEntry.
  destruct (onIncrementalMessage (security_id e) (rpt_seq e) (recovery_manager_ fh))
    as [ok rm1].
  destruct ok; cbn [with_stats with_managers book_manager_]; [|tauto].
  destruct (applyIncremental_self e (book_manager_ fh)) as [_ D].
  rewrite D. rewrite !elem_of_union, !elem_of_singleton.
  split; [|split; [tauto|intros [H|H]; auto]].
  intros Hn. destruct (Z.eq_dec (security_id e) sid) as [E|Hne]; [exfalso; auto|].
  exact (proj1 (applyIncremental_other e (book_manager_ fh) sid Hne)).
Qed.

(** X16: whatever an incremental message or a snapshot message changes
    in the books, it marks: an instrument that is not in the dirty set
    after the message has the book it had before, so the next
    conflation tick misses no change. Marks are only added, and only
    for instruments the message names. *)
Theorem X16_changed_books_are_dirty
    (fh : CmeFeedHandler) (es : list MDIncrementalRefreshEntry)
    (last k rpt : Z) (ss : list MDSnapshotEntry) (sid : Z) :
  let fi := handleIncrementalRefresh es fh in
  let fs := handleSnapshotFullRefresh last k rpt ss fh in
  (sid ∉ dirty_securities_ (book_manager_ fi) ->
   books_ (book_manager_ fi) !! sid = books_ (book_manager_ fh) !! sid) /\
  (sid ∈ dirty_securities_ (book_manager_ fh) ->
   sid ∈ dirty_securities_ (book_manager_ fi)) /\
  (sid ∈ dirty_securities_ (book_manager_ fi) ->
   sid ∈ dirty_securities_ (book_manager_ fh) \/ sid ∈ security_id <$> es) /\
  (sid ∉ dirty_securities_ (book_manager_ fs) ->
   books_ (book_manager_ fs) !! sid = books_ (book_manager_ fh) !! sid) /\
  (sid ∈ dirty_securities_ (book_manager_ fh) ->
   sid ∈ dirty_securities_ (book_manager_ fs)) /\
  (sid ∈ dirty_securities_ (book_manager_ fs) ->
   sid ∈ dirty_securities_ (book_manager_ fh) \/ sid = k).
Proof.
  intros fi fs.
  assert (Hi : (sid ∉ dirty_securities_ (book_manager_ fi) ->
                books_ (book_manager_ fi) !! sid = books_ (book_manager_ fh) !! sid) /\
               (sid ∈ dirty_securities_ (book_manager_ fh) ->
                sid ∈ dirty_securities_ (book_manager_ fi)) /\
               (sid ∈ dirty_securities_ (book_manager_ fi) ->
                sid ∈ dirty_securities_ (book_manager_ fh) \/ sid ∈ security_id <$> es)).
  { subst fi. clear fs. unfold handleIncrementalRefresh. revert fh.
    induction es as [|e es IH]; intros fh; cbn [foldl fmap list_fmap].
    - split; [reflexivity|]. split; [tauto|]. auto.
    - destruct (IH (handleIncrementalEntry fh e)) as (A1 & A2 & A3).
      destruct (entry_marks fh e sid) as (B1 & B2 & B3).
      split; [|split].
      + intros Hn. rewrite (A1 Hn). apply B1. intros Hd. apply Hn, A2, Hd.
      + intros Hd. apply A2, B2, Hd.
      + intros Hd. destruct (A3 Hd) as [H|H].
        * destruct (B3 H) as [H'| ->]; [left; exact H'|right; apply list_elem_of_here].
        * right. apply list_elem_of_further. exact H. }
  destruct Hi as (I1 & I2 & I3).
  split; [exact I1|]. split; [exact I2|]. split; [exact I3|].
  subst fs. clear fi I1 I2 I3.
  destruct (onSnapshotMessage k rpt last (recovery_manager_ fh)) as [ok rm1] eqn:E.
  destruct ok.
  - destruct (snapshot_applied last k rpt ss fh rm1 E) as (_ & _ & D & O).
    rewrite D. rewrite !elem_of_union, !elem_of_singleton.
    split; [|split; [tauto|intros [H|H]; auto]].
    intros Hn. apply O. intros ->. auto.
  - unfold handleSnapshotFullRefresh. rewrite E. cbn. tauto.
Qed.

(** X17: a SecurityDefinition re-arms the sequence check and nothing
    else. After it the instrument is in Normal expecting sequence 1,
    whatever its state and sequences were; its book is the one it had
    (an empty one is created when it had none) and is not marked dirty.
    So when a definition arrives in mid-stream, the next incremental
    entry for the instrument is applied only if its [rpt_seq] is 0 or 1:
    any [rpt_seq >= 2], the in-sequence successor included, is rejected,
    leaves the books alone and puts the instrument into GapDetected. *)
Theorem X17_definition_rearms_sequence (fh : CmeFeedHandler) (e : MDIncrementalRefreshEntry) :
  let sid := security_id e in
  let fh1 := handleSecurityDefinition sid fh in
  let fh2 := handleIncrementalEntry fh1 e in
  getState sid (recovery_manager_ fh1) = Normal /\
  getExpectedRptSeq sid (recovery_manager_ fh1) = 1 /\
  books_ (book_manager_ fh1) !! sid = Some (book_of sid (book_manager_ fh)) /\
  dirty_securities_ (book_manager_ fh1) = dirty_securities_ (book_manager_ fh) /\
  (2 <= rpt_seq e ->
   getState sid (recovery_manager_ fh2) = GapDetected /\
   book_manager_ fh2 = book_manager_ fh1) /\
  (0 <= rpt_seq e <= 1 ->
   getState sid (recovery_manager_ fh2) = Normal /\
   books_ (book_manager_ fh2) !! sid
   = Some (OrderBook.applyUpdate e (book_of sid (book_manager_ fh))) /\
   sid ∈ dirty_securities_ (book_manager_ fh2)).
Proof.
  intros sid fh1 fh2.
  destruct (getBook_book sid (book_manager_ fh)) as (B & D & M).
  assert (R : states_ (recovery_manager_ fh1) !! sid
              = Some (mkSRS Normal 1 0
                        (snapshot_rpt_seq (default SRS_default
                                             (states_ (recovery_manager_ fh) !! sid)))
                        (gap_detected_time (default SRS_default
                                              (states_ (recovery_manager_ fh) !! sid)))
                        (recovery_attempts (default SRS_default
                                              (states_ (recovery_manager_ fh) !! sid)))
                        (buffered_updates (default SRS_default
                                             (states_ (recovery_manager_ fh) !! sid))))).
  { subst fh1. unfold handleSecurityDefinition, initSecurity. cbn.
    apply lookup_insert_eq. }
  assert (B1 : books_ (book_manager_ fh1) !! sid = Some (book_of sid (book_manager_ fh))).
  { subst fh1. unfold handleSecurityDefinition. cbn. rewrite M. apply lookup_insert_eq. }
  assert (K : book_of sid (book_manager_ fh1) = book_of sid (book_manager_ fh)).
  { unfold book_of at 1. rewrite B1. reflexivity. }
  split; [unfold getState; rewrite R; reflexivity|].
  split; [unfold getExpectedRptSeq; rewrite R; reflexivity|].
  split; [exact B1|].
  split; [subst fh1; unfold handleSecurityDefinition; cbn; exact D|].
  split.
  - intros Hr. subst fh2. unfold handleIncrementalEntry, onIncrementalMessage.
    fold sid. rewrite R. cbn [state last_good_rpt_seq expected_rpt_seq].
    replace (rpt_seq e <=? 1) with false by (symmetry; apply Z.leb_gt; lia).
    rewrite andb_false_r.
    replace (rpt_seq e <? 0) with false by (symmetry; apply Z.ltb_ge; lia).
    cbn. unfold getState. cbn. rewrite lookup_insert_eq. split; [reflexivity|].
    destruct (book_manager_ fh1); reflexivity.
  - intros Hr. subst fh2. unfold handleIncrementalEntry, onIncrementalMessage.
    fold sid. rewrite R. cbn [state last_good_rpt_seq expected_rpt_seq].
    replace (0 <=? rpt_seq e) with true by (symmetry; apply Z.leb_le; lia).
    replace (rpt_seq e <=? 1) with true by (symmetry; apply Z.leb_le; lia).
    cbn [andb].
    destruct (applyIncremental_self e (book_manager_ fh1)) as [A1 A2].
    fold sid in A1, A2. rewrite K in A1.
    destruct (0 <? rpt_seq e); cbn [with_stats with_managers book_manager_ recovery_manager_].
    + rewrite A1, A2. unfold getState. cbn. rewrite lookup_insert_eq.
      split; [reflexivity|]. split; [reflexivity|].
      apply elem_of_union; left; apply elem_of_singleton; reflexivity.
    + rewrite A1, A2. unfold getState. rewrite R.
      split; [reflexivity|]. split; [reflexivity|].
      apply elem_of_union; left; apply elem_of_singleton; reflexivity.
Qed.

Lemma healthy_all_normal (rm : RecoveryManager) :
  needsRecovery rm = false ->
  forall sid st, states_ rm !! sid = Some st -> state st = Normal.
Proof.
  unfold needsRecovery. intros H sid st E.
  apply bool_decide_eq_false in H.
  destruct (decide (state st = Normal)) as [Hn|Hn]; [exact Hn|].
  exfalso. apply H. apply Exists_exists. exists (sid, st).
  split; [apply elem_of_map_to_list; exact E | exact Hn].
Qed.

Lemma healthy_sweep now timeout (rm : RecoveryManager) :
  needsRecovery rm = false ->
  checkTimeouts now timeout rm = ([], rm).
Proof.
  intros H. pose proof (healthy_all_normal rm H) as Hall.
  unfold checkTimeouts. f_equal.
  - assert (N : forall l : list (Z * SecurityRecoveryState),
               (forall p, p ∈ l -> state (snd p) = Normal) ->
               List.filter (fun p => timed_out now timeout (snd p)) l = []).
    { induction l as [|p l IH]; intros Hl; cbn; [reflexivity|].
      unfold timed_out at 1. rewrite (Hl p) by apply list_elem_of_here.
      cbn. apply IH. intros q Hq. apply Hl. apply list_elem_of_further. exact Hq. }
    rewrite N; [reflexivity|].
    intros [sid st] Hin. apply elem_of_map_to_list in Hin. exact (Hall sid st Hin).
  - destruct rm as [states stats]. cbn [states_ Recovery.stats_] in *. f_equal.
    apply map_eq. intros sid. rewrite lookup_fmap.
    destruct (states !! sid) as [st|] eqn:E; [|reflexivity].
    cbn. unfold sweep. rewrite (Hall sid st E). reflexivity.
Qed.

(** X30: while no instrument needs recovery, the snapshot channel is
    dead weight. In a pass of the run loop that finds only a snapshot
    datagram, on a handler all of whose instruments are in Normal, the
    datagram is counted as received and otherwise dropped unparsed: the
    books, the dirty set, the recovery records, the output and the
    error counter are as before, and the timeout sweep of the pass
    reports and changes nothing. *)
Theorem X30_snapshots_dropped_when_healthy
    (fh : CmeFeedHandler) (data : list Z) (len timeout : Z) :
  needsRecovery (recovery_manager_ fh) = false ->
  0 < len ->
  let fh' := run_pass fh (mkPass None (Some (data, len)) false timeout) in
  book_manager_ fh' = book_manager_ fh /\
  recovery_manager_ fh' = recovery_manager_ fh /\
  sent_ fh' = sent_ fh /\ output_seq_ fh' = output_seq_ fh /\
  errors (FeedHandler.stats_ fh') = errors (FeedHandler.stats_ fh) /\
  messages_received (FeedHandler.stats_ fh')
  = u64 (messages_received (FeedHandler.stats_ fh) + 1) /\
  bytes_received (FeedHandler.stats_ fh')
  = u64 (bytes_received (FeedHandler.stats_ fh) + len).
Proof.
  intros Hh Hlen fh'. subst fh'. unfold run_pass.
  cbn [incremental_read snapshot_read conflation_due recovery_timeout_ns].
  replace (0 <? len) with true by (symmetry; apply Z.ltb_lt; exact Hlen).
  rewrite Hh. unfold FeedHandler.getCurrentTimeNs.
  cbn [with_stats with_managers book_manager_ recovery_manager_ sent_ output_seq_
       FeedHandler.stats_ last_packet_seq_ first_packet_ send_buffer_ clock_].
  rewrite (healthy_sweep _ _ _ Hh). cbn. auto 10.
Qed.

(** X30 on a handler that knows instrument 1001, in Normal. *)
Lemma X30_snapshots_dropped_witness :
  needsRecovery (recovery_manager_ (handleSecurityDefinition SECURITY_ID_ESH26
                                      (CmeFeedHandler_init [7]))) = false /\
  0 < 20 /\
  book_manager_ (run_pass (handleSecurityDefinition SECURITY_ID_ESH26
                             (CmeFeedHandler_init [7]))
                          (mkPass None (Some (WireProps.truncated_snapshot, 20)) false
                                  5000000000))
  = book_manager_ (handleSecurityDefinition SECURITY_ID_ESH26 (CmeFeedHandler_init [7])).
Proof.
  assert (H1 : needsRecovery (recovery_manager_ (handleSecurityDefinition SECURITY_ID_ESH26
                                 (CmeFeedHandler_init [7]))) = false)
    by (vm_compute; reflexivity).
  assert (H2 : 0 < 20) by lia.
  split; [exact H1|]. split; [exact H2|].
  exact (proj1 (X30_snapshots_dropped_when_healthy _ WireProps.truncated_snapshot 20
                  5000000000 H1 H2)).
Defined.

End DispatchExtras.

(** ** Publication, beyond the claims *)

Section PublishExtras.
Import Mem Protocol MarketData OrderBook BookProps Recovery BookManager FeedHandler FeedProps
       ExtraProps WireProps.

Lemma length_snapshot_pieces sym ts seq ltp ltq tv bc ac bs as_ :
  length (concat (snapshot_pieces sym ts seq ltp ltq tv bc ac bs as_))
  = (60 + length bs * 15 + length as_ * 15)%nat.
Proof.
  unfold snapshot_pieces. cbn [concat].
  repeat first [ rewrite length_app | rewrite length_le_bytes | rewrite length_strncpy
               | rewrite length_entries ].
  cbn [length]. lia.
Qed.

Lemma length_to_sbe_entries side n :
  length (levels side) = 10%nat -> 0 <= n <= 10 ->
  Z.of_nat (length (to_sbe_entries side n)) = n.
Proof.
  intros Hl Hn. unfold to_sbe_entries. rewrite length_imap, length_take, Hl. lia.
Qed.

Lemma publish_count c : 0 <= Z.min (u8 c) L2md.MAX_LEVELS <= 10.
Proof.
  unfold u8, L2md.MAX_LEVELS.
  pose proof (Z.mod_pos_bound c (2 ^ 8) ltac:(lia)). lia.
Qed.

(** What [publishSnapshot] sends and leaves behind when the send buffer
    can hold the largest message. *)
Lemma publishSnapshot_image sid snap (fh : CmeFeedHandler) :
  length (levels (bids snap)) = 10%nat -> length (levels (asks snap)) = 10%nat ->
  (360 <= length (send_buffer_ fh))%nat ->
  let nb := Z.min (u8 (count (bids snap))) L2md.MAX_LEVELS in
  let na := Z.min (u8 (count (asks snap))) L2md.MAX_LEVELS in
  let img := concat (snapshot_pieces (symbol snap) (timestamp snap) (sequence snap)
                       (L2md.priceToSbe (last_price snap)) (last_quantity snap)
                       (total_volume snap) nb na
                       (to_sbe_entries (bids snap) nb) (to_sbe_entries (asks snap) na)) in
  publishSnapshot sid snap fh
  = mkFH (book_manager_ fh) (recovery_manager_ fh) (last_packet_seq_ fh) (first_packet_ fh)
         (output_seq_ fh) (sent_one (Z.of_nat (length img)) (stats_ fh))
         (img ++ drop (length img) (send_buffer_ fh)) (clock_ fh)
         (sent_ fh ++ [mkPublished sid img]).
Proof.
  intros Hb Ha Hbuf nb na img.
  pose proof (length_to_sbe_entries (bids snap) nb Hb (publish_count _)) as Lb.
  pose proof (length_to_sbe_entries (asks snap) na Ha (publish_count _)) as La.
  pose proof (publish_count (count (bids snap))) as Cb. fold nb in Cb.
  pose proof (publish_count (count (asks snap))) as Ca. fold na in Ca.
  assert (Hsz : (L2md.calcL2SnapshotSize
                   (Z.of_nat (length (to_sbe_entries (bids snap) nb)))
                   (Z.of_nat (length (to_sbe_entries (asks snap) na)))
                 <= length (send_buffer_ fh))%nat).
  { rewrite calc_size. lia. }
  pose proof (encode_image (symbol snap) (timestamp snap) (sequence snap)
                (L2md.priceToSbe (last_price snap)) (last_quantity snap)
                (total_volume snap) nb na
                (to_sbe_entries (bids snap) nb) (to_sbe_entries (asks snap) na)
                (send_buffer_ fh) (length (send_buffer_ fh)) Hsz) as E.
  assert (Li : length img
               = L2md.calcL2SnapshotSize (Z.of_nat (length (to_sbe_entries (bids snap) nb)))
                                         (Z.of_nat (length (to_sbe_entries (asks snap) na)))).
  { subst img. rewrite length_snapshot_pieces, calc_size. reflexivity. }
  rewrite <- Li in E. fold img in E. rewrite Lb, La in E.
  unfold publishSnapshot. fold nb na. rewrite E.
  cbn [L2md.encodedLength L2md.offset_ L2md.buffer_].
  rewrite take_app_length. reflexivity.
Qed.

(** Decoding the image of a message over its own length: the root
    fields come back reduced to their widths. *)
Lemma decode_wrapped sym ts seq ltp ltq tv bc ac bs as_ :
  (length bs <= 10)%nat -> (length as_ <= 10)%nat -> is_i64 ltp ->
  Forall L2md.wf_entry bs -> Forall L2md.wf_entry as_ ->
  let img := concat (snapshot_pieces sym ts seq ltp ltq tv bc ac bs as_) in
  let d := L2md.new_decoder img (length img) in
  L2md.isValid d = true /\
  L2md.symbolRaw d = Some (strncpy 8 sym) /\
  L2md.timestamp d = Some (u64 ts) /\ L2md.sequenceNumber d = Some (u64 seq) /\
  L2md.lastTradePrice d = Some ltp /\ L2md.lastTradeQty d = Some (u32 ltq) /\
  L2md.totalVolume d = Some (u64 tv) /\
  L2md.bidCount d = Some (u8 bc) /\ L2md.askCount d = Some (u8 ac) /\
  L2md.numBids d = Z.of_nat (length bs) /\ L2md.numAsks d = Z.of_nat (length as_) /\
  (forall i e, bs !! i = Some e -> L2md.getBid (Z.of_nat i) d = Some e) /\
  (forall i e, as_ !! i = Some e -> L2md.getAsk (Z.of_nat i) d = Some e).
Proof.
  intros Hnb Hna Hltp Hwb Hwa img d. subst d.
  assert (Hlen : (60 + length bs * 15 + length as_ * 15 <= length img)%nat).
  { subst img. rewrite length_snapshot_pieces. lia. }
  set (len := length img) in *. clearbody len.
  assert (Ei : img = concat (snapshot_pieces sym ts seq ltp ltq tv bc ac bs as_) ++ [])
    by (rewrite app_nil_r; reflexivity).
  rewrite Ei. clear Ei. clear img.
  unfold L2md.new_decoder.
  rewrite (parse_image sym ts seq ltp ltq tv bc ac bs as_ [] len Hnb Hna Hlen).
  pose proof (header_image sym ts seq ltp ltq tv bc ac bs as_ [] len Hnb Hna Hlen)
    as [Hsch Htpl].
  pose proof (root_image sym ts seq ltp ltq tv bc ac bs as_ [] len Hnb Hna Hlen)
    as (R0 & R1 & R2 & R3 & R4 & R5 & R6 & R7).
  pose proof (group_count_bids sym ts seq ltp ltq tv bc ac bs as_ [] len Hnb Hna Hlen) as Gb.
  pose proof (group_count_asks sym ts seq ltp ltq tv bc ac bs as_ [] len Hnb Hna Hlen) as Ga.
  unfold L2md.getBid, L2md.getAsk.
  unfold L2md.isValid, L2md.templateId, L2md.symbolRaw, L2md.timestamp, L2md.sequenceNumber,
    L2md.lastTradePrice, L2md.lastTradeQty, L2md.totalVolume, L2md.bidCount, L2md.askCount,
    L2md.numBids, L2md.numAsks.
  cbn [L2md.d_buffer_ L2md.length_ L2md.root_ L2md.bidsHeader_ L2md.bids_ L2md.asksHeader_
       L2md.asks_ mbind option_bind].
  unfold load_i, load_u in *.
  rewrite Hsch, Htpl, R0, R1, R2, R3, R4, R5, R6, R7, Gb, Ga.
  rewrite le_signed64 by exact Hltp.
  rewrite !le_value_le_bytes.
  repeat split.
  - unfold L2md.sizeof_MessageHeader.
    replace (len <? 8)%nat with false by (symmetry; apply Nat.ltb_ge; lia).
    reflexivity.
  - intros i e Hi.
    pose proof (lookup_lt_Some _ _ _ Hi) as Hlt.
    replace (Z.of_nat (length bs) <=? Z.of_nat i) with false
      by (symmetry; apply Z.leb_gt; lia).
    rewrite Nat2Z.id. unfold L2md.sizeof_PriceLevelEntry. f_equal.
    apply (bid_image sym ts seq ltp ltq tv bc ac bs as_ [] len Hnb Hna Hlen i e Hi).
    exact (proj1 (Forall_lookup _ _) Hwb i e Hi).
  - intros i e Hi.
    pose proof (lookup_lt_Some _ _ _ Hi) as Hlt.
    replace (Z.of_nat (length as_) <=? Z.of_nat i) with false
      by (symmetry; apply Z.leb_gt; lia).
    rewrite Nat2Z.id. unfold L2md.sizeof_PriceLevelEntry. f_equal.
    apply (ask_image sym ts seq ltp ltq tv bc ac bs as_ [] len Hnb Hna Hlen i e Hi).
    exact (proj1 (Forall_lookup _ _) Hwa i e Hi).
Qed.

Lemma sbe_side_length a cnt :
  (length (to_sbe_entries (convert_side a cnt)
             (Z.min (u8 (count (convert_side a cnt))) L2md.MAX_LEVELS)) <= 10)%nat.
Proof.
  pose proof (length_to_sbe_entries (convert_side a cnt) _
                (proj1 (convert_side_shape a cnt))
                (publish_count (count (convert_side a cnt)))) as L.
  pose proof (publish_count (count (convert_side a cnt))). lia.
Qed.

(** The message a tick builds for book [b]: the snapshot of the book
    stamped with the time and the output sequence. *)
Lemma publishIfNormal_image (fh : CmeFeedHandler) sid :
  getState sid (recovery_manager_ fh) = Normal ->
  (360 <= length (send_buffer_ fh))%nat ->
  let b := book_of sid (book_manager_ fh) in
  let snap := getSnapshot b in
  let nb := Z.min (u8 (count (bids snap))) L2md.MAX_LEVELS in
  let na := Z.min (u8 (count (asks snap))) L2md.MAX_LEVELS in
  let img := concat (snapshot_pieces (symbol snap) (hd 0 (clock_ fh))
                       (u64 (output_seq_ fh + 1))
                       (L2md.priceToSbe (last_price snap)) (last_quantity snap)
                       (total_volume snap) nb na
                       (to_sbe_entries (bids snap) nb) (to_sbe_entries (asks snap) na)) in
  publishIfNormal fh sid
  = mkFH (snd (getBook sid (book_manager_ fh))) (recovery_manager_ fh)
         (last_packet_seq_ fh) (first_packet_ fh) (u64 (output_seq_ fh + 1))
         (sent_one (Z.of_nat (length img)) (stats_ fh))
         (img ++ drop (length img) (send_buffer_ fh)) (tl (clock_ fh))
         (sent_ fh ++ [mkPublished sid img]).
Proof.
  intros Hn Hbuf b snap nb na img. unfold publishIfNormal.
  destruct (decide (getState sid (recovery_manager_ fh) = Normal)) as [_|C];
    [|contradiction].
  destruct (getBook_book sid (book_manager_ fh)) as (B & _ & _).
  destruct (getBook sid (book_manager_ fh)) as [book bm1]. cbn [fst snd] in *.
  subst book. fold b. fold snap.
  cbn [getCurrentTimeNs with_managers book_manager_ recovery_manager_ last_packet_seq_
       first_packet_ output_seq_ stats_ send_buffer_ clock_ sent_].
  rewrite publishSnapshot_image.
  - reflexivity.
  - apply convert_side_shape.
  - apply convert_side_shape.
  - exact Hbuf.
Qed.

Lemma publish_loop_exact ids : forall (fh : CmeFeedHandler),
  (360 <= length (send_buffer_ fh))%nat -> is_u64 (output_seq_ fh) ->
  let ns := filter (fun sid => getState sid (recovery_manager_ fh) = Normal) ids in
  let fh' := foldl publishIfNormal fh ids in
  exists new,
    sent_ fh' = sent_ fh ++ new /\
    pub_security_id <$> new = ns /\
    Forall (fun p => (60 <= length (pub_bytes p) <= 360)%nat) new /\
    output_seq_ fh' = u64 (output_seq_ fh + Z.of_nat (length ns)) /\
    errors (stats_ fh') = errors (stats_ fh) /\
    length (send_buffer_ fh') = length (send_buffer_ fh) /\
    clock_ fh' = drop (length ns) (clock_ fh) /\
    recovery_manager_ fh' = recovery_manager_ fh.
Proof.
  induction ids as [|sid ids IH]; intros fh Hbuf Hseq ns fh'; subst ns fh'.
  - exists []. cbn. rewrite app_nil_r, Z.add_0_r.
    unfold u64. rewrite Z.mod_small by exact Hseq. rewrite drop_0.
    repeat split; constructor.
  - cbn [foldl]. rewrite filter_cons.
    destruct (decide (getState sid (recovery_manager_ fh) = Normal)) as [Hn|Hn].
    + pose proof (publishIfNormal_image fh sid Hn Hbuf) as E. cbv zeta in E.
      set (img := concat _) in E.
      assert (Li : (60 <= length img <= 360)%nat).
      { subst img. rewrite length_snapshot_pieces.
        pose proof (sbe_side_length (bids_ (book_of sid (book_manager_ fh)))
                                    (bid_count_ (book_of sid (book_manager_ fh)))) as Lb.
        pose proof (sbe_side_length (asks_ (book_of sid (book_manager_ fh)))
                                    (ask_count_ (book_of sid (book_manager_ fh)))) as La.
        cbn [getSnapshot bids asks]. lia. }
      assert (Hbuf1 : (360 <= length (send_buffer_ (publishIfNormal fh sid)))%nat).
      { rewrite E. cbn [send_buffer_]. rewrite length_app, length_drop. lia. }
      assert (Hseq1 : is_u64 (output_seq_ (publishIfNormal fh sid))).
      { rewrite E. cbn [output_seq_]. unfold is_u64, u64. apply Z.mod_pos_bound. lia. }
      destruct (IH (publishIfNormal fh sid) Hbuf1 Hseq1) as (new & S & I & F & O & Er & L & C & R).
      assert (Rm : recovery_manager_ (publishIfNormal fh sid) = recovery_manager_ fh)
        by (rewrite E; reflexivity).
      rewrite Rm in I, O, C, R.
      exists (mkPublished sid img :: new).
      rewrite S, O, Er, L, C, R. rewrite E.
      cbn [sent_ output_seq_ stats_ send_buffer_ clock_ errors sent_one fmap list_fmap
           pub_security_id length pub_bytes].
      rewrite <- app_assoc. cbn [app].
      split; [reflexivity|].
      split; [cbn [fmap list_fmap] in I; rewrite I; reflexivity|].
      split; [constructor; [exact Li | exact F]|].
      split.
      { unfold u64. rewrite Zplus_mod_idemp_l. f_equal. lia. }
      split; [reflexivity|].
      split; [rewrite length_app, length_drop; lia|].
      split; [|reflexivity].
      assert (T : forall l : list Z, tl l = drop 1 l) by (intros [|? ?]; reflexivity).
      rewrite T, drop_drop. reflexivity.
    + assert (E : publishIfNormal fh sid = fh).
      { unfold publishIfNormal.
        destruct (decide (getState sid (recovery_manager_ fh) = Normal)); [contradiction|].
        reflexivity. }
      rewrite E. apply IH; assumption.
Qed.

(** X18: with a send buffer that can hold the largest message (360
    bytes; the handler's has 1500), a conflation tick sends exactly one
    datagram for each dirty instrument in Normal, in the order of the
    dirty set and each instrument once, and none for any other. Every
    datagram has between 60 and 360 bytes, encoding never fails (the
    error counter is unchanged), the output sequence advances by the
    number of datagrams (modulo 2^64), one clock reading is consumed per
    datagram and the send buffer keeps its size. *)
Theorem X18_tick_publishes_each_dirty_normal (fh : CmeFeedHandler) :
  (360 <= length (send_buffer_ fh))%nat ->
  is_u64 (output_seq_ fh) ->
  let fh' := publishConflatedSnapshots fh in
  let ns := filter (fun sid => getState sid (recovery_manager_ fh) = Normal)
                   (elements (dirty_securities_ (book_manager_ fh))) in
  pub_security_id <$> newly_sent fh fh' = ns /\
  NoDup ns /\
  Forall (fun p => (60 <= length (pub_bytes p) <= 360)%nat) (newly_sent fh fh') /\
  output_seq_ fh' = u64 (output_seq_ fh + Z.of_nat (length ns)) /\
  errors (stats_ fh') = errors (stats_ fh) /\
  length (send_buffer_ fh') = length (send_buffer_ fh) /\
  clock_ fh' = drop (length ns) (clock_ fh).
Proof.
  intros Hbuf Hseq fh' ns. subst fh' ns.
  unfold publishConflatedSnapshots, getDirtySecurities, newly_sent.
  match goal with |- context [foldl publishIfNormal ?f ?l] =>
    destruct (publish_loop_exact l f Hbuf Hseq) as (new & S & I & F & O & Er & L & C & _)
  end.
  cbn [with_managers recovery_manager_ sent_ output_seq_ stats_ send_buffer_ clock_] in *.
  rewrite S, O, Er, L, C, drop_app_length.
  split; [exact I|].
  split; [apply NoDup_filter, NoDup_elements|].
  split; [exact F|]. auto.
Qed.

Lemma i64_range x : is_i64 (i64 x).
Proof.
  unfold is_i64, i64, signed. change (2 ^ (64 - 1)) with (2 ^ 63).
  pose proof (Z.mod_pos_bound x (2 ^ 64) ltac:(lia)) as B.
  destruct (Z.ltb_spec (x mod 2 ^ 64) (2 ^ 63)); lia.
Qed.

Lemma priceToSbe_fixed p :
  L2md.priceToSbe (cmeToFixedPrice p) = 1000 * cmeToFixedPrice p.
Proof.
  unfold L2md.priceToSbe, cmeToFixedPrice, i64, signed, u32.
  pose proof (Z.mod_pos_bound (p ÷ 1000) (2 ^ 32) ltac:(lia)) as B.
  change (2 ^ (64 - 1)) with (2 ^ 63).
  rewrite (Z.mod_small (_ * 1000)) by lia.
  replace (_ <? 2 ^ 63) with true by (symmetry; apply Z.ltb_lt; lia).
  lia.
Qed.

Lemma convert_loop_quantities (a : list CmePriceLevel) n : forall s acc,
  Forall (fun l => is_u32 (pl_quantity l)) acc ->
  Forall (fun l => is_u32 (pl_quantity l))
         (foldl (fun acc i => <[i := convert_level (default level0 (a !! i))]> acc)
                acc (seq s n)).
Proof.
  induction n as [|n IH]; intros s acc H; cbn [seq foldl]; [exact H|].
  apply IH. apply Forall_insert; [exact H|].
  cbn. unfold is_u32, u32. apply Z.mod_pos_bound. lia.
Qed.

Lemma sbe_entries_wf (a : list CmePriceLevel) cnt n :
  Forall L2md.wf_entry (to_sbe_entries (convert_side a cnt) n).
Proof.
  apply Forall_lookup. intros i e Hi. unfold to_sbe_entries in Hi.
  rewrite list_lookup_imap in Hi.
  destruct (take (Z.to_nat n) (levels (convert_side a cnt)) !! i) as [l|] eqn:El;
    [|discriminate Hi].
  cbn in Hi. inversion Hi; subst e. clear Hi.
  assert (Hq : is_u32 (pl_quantity l)).
  { apply lookup_take_Some in El as [El _].
    refine (proj1 (Forall_lookup (fun l => is_u32 (pl_quantity l)) _) _ i l El).
    unfold convert_side. cbn [levels]. apply convert_loop_quantities.
    apply Forall_replicate. cbn. unfold is_u32. lia. }
  unfold L2md.wf_entry. cbn.
  split; [unfold is_u8, u8; apply Z.mod_pos_bound; lia|].
  split; [apply i64_range|]. split; [exact Hq|].
  unfold is_u16, u16. apply Z.mod_pos_bound. lia.
Qed.

Lemma sbe_entry_lookup (a : list CmePriceLevel) cnt i l :
  length a = 10%nat -> 0 <= cnt <= 10 -> Z.of_nat i < cnt -> a !! i = Some l ->
  to_sbe_entries (convert_side a cnt)
                 (Z.min (u8 (count (convert_side a cnt))) L2md.MAX_LEVELS) !! i
  = Some (L2md.mkEntry (Z.of_nat i + 1) (1000 * cmeToFixedPrice (price l))
                       (u32 (quantity l)) (u16 (order_count l))).
Proof.
  intros Hl Hc Hi Ha.
  assert (N : Z.min (u8 (count (convert_side a cnt))) L2md.MAX_LEVELS = cnt).
  { unfold convert_side, MAX_DEPTH, L2md.MAX_LEVELS, u8. cbn [count].
    rewrite (Z.min_l cnt 10) by lia. rewrite Z.mod_small by lia. lia. }
  rewrite N. unfold to_sbe_entries. rewrite list_lookup_imap.
  rewrite lookup_take_lt by lia.
  unfold convert_side. cbn [levels].
  rewrite (convert_loop_lookup (fun i => convert_level (default level0 (a !! i)))).
  - rewrite Ha. cbn. rewrite priceToSbe_fixed.
    unfold u8. rewrite Z.mod_small by lia. reflexivity.
  - rewrite length_replicate. unfold MAX_DEPTH. lia.
  - unfold MAX_DEPTH. lia.
Qed.

Lemma symbol_field x :
  strncpy 8 (strncpy 7 (getSymbolName x) ++ [0]) = strncpy 8 (getSymbolName x).
Proof.
  unfold getSymbolName.
  repeat match goal with |- context [if ?c then _ else _] => destruct c end;
    vm_compute; reflexivity.
Qed.

(** X18 on the handler with instrument 1001 dirty and in Normal: one
    datagram, for 1001. *)
Lemma X18_tick_publishes_witness :
  (360 <= length (send_buffer_ fh_one))%nat /\
  is_u64 (output_seq_ fh_one) /\
  pub_security_id <$> newly_sent fh_one (publishConflatedSnapshots fh_one)
  = filter (fun sid => getState sid (recovery_manager_ fh_one) = Normal)
           (elements (dirty_securities_ (book_manager_ fh_one))).
Proof.
  assert (H1 : (360 <= length (send_buffer_ fh_one))%nat)
    by (apply Nat.leb_le; vm_compute; reflexivity).
  assert (H2 : is_u64 (output_seq_ fh_one)) by by_eval.
  split; [exact H1|]. split; [exact H2|].
  exact (proj1 (X18_tick_publishes_each_dirty_normal fh_one H1 H2)).
Defined.

(** X19: what a subscriber decodes from a published datagram is the
    book. For an instrument in Normal whose book has its ten slots and
    counts within [0, 10], and a send buffer of at least 360 bytes, the
    tick's step for the instrument sends one datagram of
    [60 + 15 * (bid_count + ask_count)] bytes; decoded over its own
    length it is valid and carries the instrument's catalogue symbol
    NUL-padded to 8 bytes, the clock reading, the next output sequence,
    the counts of the two sides, and for each stored level within the
    count its 1-based position, its price cut to a multiple of 1000 (the
    stored mantissa divided by 1000 toward zero, modulo 2^32, times
    1000), its quantity modulo 2^32 and its order count. *)
Theorem X19_published_datagram_decodes (fh : CmeFeedHandler) (sid : Z) :
  getState sid (recovery_manager_ fh) = Normal ->
  (360 <= length (send_buffer_ fh))%nat ->
  book_shape (book_of sid (book_manager_ fh)) ->
  let b := book_of sid (book_manager_ fh) in
  exists p,
    sent_ (publishIfNormal fh sid) = sent_ fh ++ [p] /\
    pub_security_id p = sid /\
    Z.of_nat (length (pub_bytes p)) = 60 + 15 * (bid_count_ b + ask_count_ b) /\
    L2md.isValid (L2md.new_decoder (pub_bytes p) (length (pub_bytes p))) = true /\
    L2md.symbolRaw (L2md.new_decoder (pub_bytes p) (length (pub_bytes p)))
    = Some (strncpy 8 (getSymbolName (security_id_ b))) /\
    L2md.timestamp (L2md.new_decoder (pub_bytes p) (length (pub_bytes p)))
    = Some (u64 (hd 0 (clock_ fh))) /\
    L2md.sequenceNumber (L2md.new_decoder (pub_bytes p) (length (pub_bytes p)))
    = Some (u64 (output_seq_ fh + 1)) /\
    L2md.lastTradePrice (L2md.new_decoder (pub_bytes p) (length (pub_bytes p)))
    = Some (1000 * cmeToFixedPrice (last_trade_price_ b)) /\
    L2md.lastTradeQty (L2md.new_decoder (pub_bytes p) (length (pub_bytes p)))
    = Some (u32 (last_trade_qty_ b)) /\
    L2md.totalVolume (L2md.new_decoder (pub_bytes p) (length (pub_bytes p)))
    = Some (u64 (total_volume_ b)) /\
    L2md.numBids (L2md.new_decoder (pub_bytes p) (length (pub_bytes p))) = bid_count_ b /\
    L2md.numAsks (L2md.new_decoder (pub_bytes p) (length (pub_bytes p))) = ask_count_ b /\
    (forall i l, Z.of_nat i < bid_count_ b -> bids_ b !! i = Some l ->
       L2md.getBid (Z.of_nat i) (L2md.new_decoder (pub_bytes p) (length (pub_bytes p)))
       = Some (L2md.mkEntry (Z.of_nat i + 1) (1000 * cmeToFixedPrice (price l))
                            (u32 (quantity l)) (u16 (order_count l)))) /\
    (forall i l, Z.of_nat i < ask_count_ b -> asks_ b !! i = Some l ->
       L2md.getAsk (Z.of_nat i) (L2md.new_decoder (pub_bytes p) (length (pub_bytes p)))
       = Some (L2md.mkEntry (Z.of_nat i + 1) (1000 * cmeToFixedPrice (price l))
                            (u32 (quantity l)) (u16 (order_count l)))).
Proof.
  intros Hn Hbuf Hs b.
  pose proof (publishIfNormal_image fh sid Hn Hbuf) as E. cbv zeta in E. fold b in E.
  fold b in Hs. clearbody b. destruct Hs as (Hlb & Hla & Hcb & Hca).
  set (nb := Z.min (u8 (count (bids (getSnapshot b)))) L2md.MAX_LEVELS) in *.
  set (na := Z.min (u8 (count (asks (getSnapshot b)))) L2md.MAX_LEVELS) in *.
  set (bs := to_sbe_entries (bids (getSnapshot b)) nb) in *.
  set (as_ := to_sbe_entries (asks (getSnapshot b)) na) in *.
  assert (Nb : nb = bid_count_ b).
  { subst nb. cbn [getSnapshot bids]. unfold convert_side, MAX_DEPTH, L2md.MAX_LEVELS, u8.
    cbn [count]. rewrite (Z.min_l (bid_count_ b) 10) by lia.
    rewrite Z.mod_small by lia. lia. }
  assert (Na : na = ask_count_ b).
  { subst na. cbn [getSnapshot asks]. unfold convert_side, MAX_DEPTH, L2md.MAX_LEVELS, u8.
    cbn [count]. rewrite (Z.min_l (ask_count_ b) 10) by lia.
    rewrite Z.mod_small by lia. lia. }
  assert (Lb : Z.of_nat (length bs) = nb).
  { subst bs. apply length_to_sbe_entries; [apply convert_side_shape | apply publish_count]. }
  assert (La : Z.of_nat (length as_) = na).
  { subst as_. apply length_to_sbe_entries; [apply convert_side_shape | apply publish_count]. }
  destruct (decode_wrapped (symbol (getSnapshot b)) (hd 0 (clock_ fh))
              (u64 (output_seq_ fh + 1)) (L2md.priceToSbe (last_price (getSnapshot b)))
              (last_quantity (getSnapshot b)) (total_volume (getSnapshot b)) nb na bs as_)
    as (D1 & D2 & D3 & D4 & D5 & D6 & D7 & _ & _ & D10 & D11 & D12 & D13).
  { lia. } { lia. } { apply i64_range. }
  { apply sbe_entries_wf. } { apply sbe_entries_wf. }
  cbv zeta in D1, D2, D3, D4, D5, D6, D7, D10, D11, D12, D13.
  assert (Li : Z.of_nat (length (concat (snapshot_pieces (symbol (getSnapshot b))
                 (hd 0 (clock_ fh)) (u64 (output_seq_ fh + 1))
                 (L2md.priceToSbe (last_price (getSnapshot b)))
                 (last_quantity (getSnapshot b)) (total_volume (getSnapshot b))
                 nb na bs as_)))
               = 60 + 15 * (bid_count_ b + ask_count_ b)).
  { rewrite length_snapshot_pieces. lia. }
  set (img := concat _) in *.
  exists (mkPublished sid img). rewrite E. cbn [sent_ pub_security_id pub_bytes].
  split; [reflexivity|]. split; [reflexivity|].
  split; [exact Li|].
  split; [exact D1|].
  split; [rewrite D2; cbn [getSnapshot symbol]; unfold getSymbol;
          rewrite symbol_field; reflexivity|].
  split; [exact D3|].
  split; [rewrite D4; unfold u64; rewrite Z.mod_mod by lia; reflexivity|].
  split; [rewrite D5; cbn [getSnapshot last_price]; apply f_equal, priceToSbe_fixed|].
  split; [rewrite D6; cbn [getSnapshot last_quantity]; unfold u32;
          rewrite Z.mod_mod by lia; reflexivity|].
  split; [exact D7|].
  split; [rewrite D10; lia|]. split; [rewrite D11; lia|].
  split.
  - intros i l Hi Hl. apply D12. subst bs nb. cbn [getSnapshot bids].
    apply sbe_entry_lookup; assumption.
  - intros i l Hi Hl. apply D13. subst as_ na. cbn [getSnapshot asks].
    apply sbe_entry_lookup; assumption.
Qed.

(** X19 on the handler with one bid for instrument 1001. *)
Lemma X19_published_datagram_witness :
  getState SECURITY_ID_ESH26 (recovery_manager_ fh_one) = Normal /\
  (360 <= length (send_buffer_ fh_one))%nat /\
  book_shape (book_of SECURITY_ID_ESH26 (book_manager_ fh_one)) /\
  exists p,
    sent_ (publishIfNormal fh_one SECURITY_ID_ESH26) = sent_ fh_one ++ [p] /\
    L2md.getBid (Z.of_nat 0) (L2md.new_decoder (pub_bytes p) (length (pub_bytes p)))
    = Some (L2md.mkEntry 1 45000000000 10 1).
Proof.
  assert (H1 : getState SECURITY_ID_ESH26 (recovery_manager_ fh_one) = Normal)
    by (vm_compute; reflexivity).
  assert (H2 : (360 <= length (send_buffer_ fh_one))%nat)
    by (apply Nat.leb_le; vm_compute; reflexivity).
  assert (H3 : book_shape (book_of SECURITY_ID_ESH26 (book_manager_ fh_one))) by by_eval.
  assert (H4 : bids_ (book_of SECURITY_ID_ESH26 (book_manager_ fh_one)) !! 0%nat
               = Some (mkLevel 45000000000 10 1)) by (vm_compute; reflexivity).
  assert (H5 : Z.of_nat 0 < bid_count_ (book_of SECURITY_ID_ESH26 (book_manager_ fh_one)))
    by (vm_compute; reflexivity).
  split; [exact H1|]. split; [exact H2|]. split; [exact H3|].
  destruct (X19_published_datagram_decodes fh_one SECURITY_ID_ESH26 H1 H2 H3)
    as (p & S & _ & _ & _ & _ & _ & _ & _ & _ & _ & _ & _ & B & _).
  exists p. split; [exact S|]. exact (B 0%nat _ H5 H4).
Defined.

End PublishExtras.

(** ** The output codec, prices and symbols, beyond the claims *)

Section WireExtras.
Import Mem Protocol L2md WireProps.

Local Ltac piece_sizes :=
  cbn [take drop concat];
  repeat first [ rewrite length_app | rewrite length_le_bytes | rewrite length_strncpy
               | rewrite length_entries ];
  cbn [length]; lia.

Local Ltac piece_at i :=
  erewrite (load_piece _ i); [ | reflexivity | piece_sizes | piece_sizes ].

(** X20: the snapshot encoder touches nothing but the message. When
    the buffer size given is smaller than the message, it fails and the
    encoder, buffer included, is as before; otherwise the buffer keeps
    its length, the encoded length is exactly
    [60 + 15 * (bids + asks)] bytes, and every byte of the buffer from
    that offset on is as it was. *)
Theorem X20_encode_frame
    (symbol : list Z) (ts seq ltp ltq tv bc ac : Z) (bids asks : list PriceLevelEntry)
    (buffer : list Z) (bufferSize : nat) :
  (bufferSize <= length buffer)%nat ->
  let need := (60 + 15 * length bids + 15 * length asks)%nat in
  let r := encode symbol ts seq ltp ltq tv bc ac bids (Z.of_nat (length bids))
                  asks (Z.of_nat (length asks)) (new_encoder buffer bufferSize) in
  ((bufferSize < need)%nat -> r = (false, new_encoder buffer bufferSize)) /\
  ((need <= bufferSize)%nat ->
   fst r = true /\
   encodedLength (snd r) = need /\
   length (buffer_ (snd r)) = length buffer /\
   drop need (buffer_ (snd r)) = drop need buffer).
Proof.
  intros Hbuf need r.
  assert (Hc : calcL2SnapshotSize (Z.of_nat (length bids)) (Z.of_nat (length asks)) = need)
    by (rewrite calc_size; subst need; lia).
  split.
  - intros Hlt. subst r. unfold encode. cbn [new_encoder bufferSize_].
    rewrite Hc. replace (bufferSize <? need)%nat with true
      by (symmetry; apply Nat.ltb_lt; exact Hlt).
    reflexivity.
  - intros Hge. subst r. rewrite encode_image by (rewrite Hc; exact Hge).
    rewrite Hc. cbn [fst snd encodedLength offset_ buffer_].
    assert (L : length (concat (snapshot_pieces symbol ts seq ltp ltq tv bc ac bids asks))
                = need).
    { unfold snapshot_pieces. subst need. piece_sizes. }
    split; [reflexivity|]. split; [reflexivity|]. split.
    + rewrite length_app, length_drop, L. lia.
    + rewrite <- L at 1. rewrite drop_app_length. reflexivity.
Qed.

(** X20 on the example message, 105 bytes, in a 1500-byte buffer. *)
Lemma X20_encode_frame_witness :
  (1500 <= length example_buffer)%nat /\
  (60 + 15 * length example_bids + 15 * length example_asks <= 1500)%nat /\
  fst (encode (cstr "ESH26") 1000 1 45000000000 10 25 2 1
              example_bids (Z.of_nat (length example_bids))
              example_asks (Z.of_nat (length example_asks))
              (new_encoder example_buffer 1500)) = true /\
  encodedLength (snd (encode (cstr "ESH26") 1000 1 45000000000 10 25 2 1
                             example_bids (Z.of_nat (length example_bids))
                             example_asks (Z.of_nat (length example_asks))
                             (new_encoder example_buffer 1500)))
  = (60 + 15 * length example_bids + 15 * length example_asks)%nat.
Proof.
  assert (H : (1500 <= length example_buffer)%nat)
    by (apply Nat.leb_le; vm_compute; reflexivity).
  assert (Hn : (60 + 15 * length example_bids + 15 * length example_asks <= 1500)%nat)
    by (apply Nat.leb_le; vm_compute; reflexivity).
  split; [exact H|]. split; [exact Hn|].
  pose proof (proj2 (X20_encode_frame (cstr "ESH26") 1000 1 45000000000 10 25 2 1
                       example_bids example_asks example_buffer 1500 H) Hn) as R.
  exact (conj (proj1 R) (proj1 (proj2 R))).
Defined.

Lemma heartbeat_image ts seq buffer bufferSize :
  (HEARTBEAT_SIZE <= bufferSize)%nat ->
  heartbeat_encode ts seq buffer bufferSize
  = (true,
     concat [le_bytes 2 (Z.of_nat sizeof_HeartbeatRoot); le_bytes 2 TEMPLATE_HEARTBEAT;
             le_bytes 2 SCHEMA_ID; le_bytes 2 SCHEMA_VERSION;
             le_bytes 8 ts; le_bytes 8 seq]
     ++ drop HEARTBEAT_SIZE buffer).
Proof.
  intros Hsize. unfold heartbeat_encode.
  replace (bufferSize <? HEARTBEAT_SIZE)%nat with false
    by (symmetry; apply Nat.ltb_ge; exact Hsize).
  rewrite store_zero.
  rewrite (store_append sizeof_MessageHeader) by (rewrite length_header_bytes; reflexivity).
  rewrite drop_drop, length_header_bytes, length_app, !length_le_bytes.
  unfold header_bytes. cbn [concat]. rewrite <- !app_assoc, app_nil_l. reflexivity.
Qed.

(** X21: heartbeats round-trip and are told apart from snapshots. A
    heartbeat encoded into a buffer of at least 24 bytes and decoded
    over any length of at least 24 is valid and returns the timestamp
    and the sequence number modulo 2^64; the generic decoder classifies
    it as a heartbeat and not as a snapshot, and leaves the buffer from
    byte 24 on untouched. Into a smaller buffer the encoder writes
    nothing, and over a shorter length the decoder is not valid. *)
Theorem X21_heartbeat_round_trip
    (ts seq : Z) (buffer : list Z) (bufferSize len : nat) :
  ((HEARTBEAT_SIZE <= bufferSize)%nat -> (HEARTBEAT_SIZE <= len)%nat ->
   let r := heartbeat_encode ts seq buffer bufferSize in
   let d := new_heartbeat_decoder (snd r) len in
   fst r = true /\
   heartbeat_isValid d = true /\
   heartbeat_timestamp d = Some (u64 ts) /\
   heartbeat_sequenceNumber d = Some (u64 seq) /\
   message_isHeartbeat (snd r) = true /\ message_isL2Snapshot (snd r) = false /\
   drop HEARTBEAT_SIZE (snd r) = drop HEARTBEAT_SIZE buffer) /\
  ((bufferSize < HEARTBEAT_SIZE)%nat ->
   heartbeat_encode ts seq buffer bufferSize = (false, buffer)) /\
  ((len < HEARTBEAT_SIZE)%nat ->
   heartbeat_isValid (new_heartbeat_decoder buffer len) = false).
Proof.
  split; [|split].
  - intros Hsize Hlen r d. subst d r. rewrite heartbeat_image by exact Hsize.
    cbn [fst snd].
    unfold heartbeat_isValid, heartbeat_timestamp, heartbeat_sequenceNumber,
      new_heartbeat_decoder, message_isValid, message_isHeartbeat, message_isL2Snapshot,
      message_templateId.
    cbn [hb_buffer_ hb_length_ hb_root_].
    replace (HEARTBEAT_SIZE <=? len)%nat with true by (symmetry; apply Nat.leb_le; exact Hlen).
    unfold HEARTBEAT_SIZE, sizeof_MessageHeader, sizeof_HeartbeatRoot in *.
    replace (len <? 8)%nat with false by (symmetry; apply Nat.ltb_ge; lia).
    cbn [mbind option_bind]. unfold load_u.
    assert (E1 : forall tail, load 4 2 (concat [le_bytes 2 (Z.of_nat 16);
                   le_bytes 2 TEMPLATE_HEARTBEAT; le_bytes 2 SCHEMA_ID;
                   le_bytes 2 SCHEMA_VERSION; le_bytes 8 ts; le_bytes 8 seq] ++ tail)
                 = le_bytes 2 SCHEMA_ID) by (intros tail; piece_at 2%nat; reflexivity).
    assert (E2 : forall tail, load 2 2 (concat [le_bytes 2 (Z.of_nat 16);
                   le_bytes 2 TEMPLATE_HEARTBEAT; le_bytes 2 SCHEMA_ID;
                   le_bytes 2 SCHEMA_VERSION; le_bytes 8 ts; le_bytes 8 seq] ++ tail)
                 = le_bytes 2 TEMPLATE_HEARTBEAT) by (intros tail; piece_at 1%nat; reflexivity).
    assert (E3 : forall tail, load 8 8 (concat [le_bytes 2 (Z.of_nat 16);
                   le_bytes 2 TEMPLATE_HEARTBEAT; le_bytes 2 SCHEMA_ID;
                   le_bytes 2 SCHEMA_VERSION; le_bytes 8 ts; le_bytes 8 seq] ++ tail)
                 = le_bytes 8 ts) by (intros tail; piece_at 4%nat; reflexivity).
    assert (E4 : forall tail, load (8 + 8) 8 (concat [le_bytes 2 (Z.of_nat 16);
                   le_bytes 2 TEMPLATE_HEARTBEAT; le_bytes 2 SCHEMA_ID;
                   le_bytes 2 SCHEMA_VERSION; le_bytes 8 ts; le_bytes 8 seq] ++ tail)
                 = le_bytes 8 seq) by (intros tail; piece_at 5%nat; reflexivity).
    rewrite E1, E2, E3, E4, !le_value_le_bytes.
    split; [reflexivity|]. split; [reflexivity|]. split; [reflexivity|].
    split; [reflexivity|]. split; [reflexivity|]. split; [reflexivity|].
    rewrite (drop_pieces _ 6) by piece_sizes. reflexivity.
  - intros Hlt. unfold heartbeat_encode.
    replace (bufferSize <? HEARTBEAT_SIZE)%nat with true
      by (symmetry; apply Nat.ltb_lt; exact Hlt).
    reflexivity.
  - intros Hlt. unfold heartbeat_isValid, new_heartbeat_decoder. cbn [hb_root_].
    replace (HEARTBEAT_SIZE <=? len)%nat with false
      by (symmetry; apply Nat.leb_gt; exact Hlt).
    cbn. apply andb_false_r.
Qed.

(** X22: the two price scales. The book keeps CME mantissas with seven
    implied decimals, the published snapshot four: a four-decimal price
    scaled up and back is unchanged; a non-negative mantissa below
    [1000 * 2^32] scaled down and up again (by either of the two
    up-scaling functions) loses exactly its last three digits; on that
    range scaling down keeps the order of prices. *)
Theorem X22_price_scales :
  (forall x, is_u32 x -> cmeToFixedPrice (fixedToCmePrice x) = x) /\
  (forall p, 0 <= p < 1000 * 2 ^ 32 ->
     fixedToCmePrice (cmeToFixedPrice p) = p - p mod 1000 /\
     priceToSbe (cmeToFixedPrice p) = p - p mod 1000) /\
  (forall p q, 0 <= p -> p <= q -> q < 1000 * 2 ^ 32 ->
     cmeToFixedPrice p <= cmeToFixedPrice q).
Proof.
  assert (Q : forall p, 0 <= p < 1000 * 2 ^ 32 -> cmeToFixedPrice p = p / 1000).
  { intros p Hp. unfold cmeToFixedPrice, u32.
    rewrite Z.quot_div_nonneg by lia.
    apply Z.mod_small. split; [apply Z.div_pos; lia|].
    apply Z.div_lt_upper_bound; lia. }
  assert (U : forall y, 0 <= y < 2 ^ 32 -> i64 (y * 1000) = y * 1000).
  { intros y Hy. unfold i64, signed. change (2 ^ (64 - 1)) with (2 ^ 63).
    rewrite (Z.mod_small (y * 1000)) by lia.
    replace (y * 1000 <? 2 ^ 63) with true by (symmetry; apply Z.ltb_lt; lia).
    reflexivity. }
  split; [|split].
  - intros x Hx. unfold is_u32 in Hx. unfold fixedToCmePrice. rewrite U by exact Hx.
    unfold cmeToFixedPrice, u32. rewrite Z.quot_mul by lia. apply Z.mod_small. exact Hx.
  - intros p Hp. unfold fixedToCmePrice, priceToSbe. rewrite (Q p Hp).
    assert (B : 0 <= p / 1000 < 2 ^ 32).
    { split; [apply Z.div_pos; lia | apply Z.div_lt_upper_bound; lia]. }
    rewrite U by exact B.
    pose proof (Z.div_mod p 1000 ltac:(lia)). lia.
  - intros p q Hp Hpq Hq. rewrite !Q by lia. apply Z.div_le_mono; lia.
Qed.

(** X23: the symbol catalogue. Looking up the name of an instrument and
    then the id of that name gives the id back for the four catalogue
    instruments and 0 for every other id (whose name is UNKNOWN). The
    lookup by name compares five characters only: whatever follows the
    name is ignored. *)
Theorem X23_symbol_catalogue (security_id : Z) (rest : list Z) :
  getSecurityIdFromSymbol (getSymbolName security_id ++ rest)
  = if (security_id =? SECURITY_ID_ESH26) || (security_id =? SECURITY_ID_NQM26)
       || (security_id =? SECURITY_ID_CLK26) || (security_id =? SECURITY_ID_GCZ26)
    then security_id else 0.
Proof.
  unfold getSymbolName.
  destruct (Z.eqb_spec security_id SECURITY_ID_ESH26) as [->|_]; [reflexivity|].
  destruct (Z.eqb_spec security_id SECURITY_ID_NQM26) as [->|_]; [reflexivity|].
  destruct (Z.eqb_spec security_id SECURITY_ID_CLK26) as [->|_]; [reflexivity|].
  destruct (Z.eqb_spec security_id SECURITY_ID_GCZ26) as [->|_]; reflexivity.
Qed.

Lemma drop_padding_zeros n l :
  Receiver.drop_padding (replicate n 0 ++ l) = Receiver.drop_padding l.
Proof. induction n as [|n IH]; [reflexivity | exact IH]. Qed.

(** X24: the receiver shows the symbol that was encoded. The encoder
    pads the symbol to 8 bytes with NULs and the receiver trims trailing
    NULs and spaces from the 8 bytes it decodes: for a symbol of at most
    8 characters, none NUL, that does not end in a space, the trimmed
    field is the symbol. *)
Theorem X24_receiver_trims_padding (symbol : list Z) :
  wf_symbol symbol ->
  last symbol <> Some 32 ->
  Receiver.trim_symbol (strncpy 8 symbol) = symbol.
Proof.
  intros [Hlen Hc] Hlast. rewrite strncpy_symbol by assumption.
  unfold Receiver.trim_symbol.
  rewrite reverse_app, reverse_replicate, drop_padding_zeros.
  destruct (reverse symbol) as [|c r] eqn:E.
  - apply (f_equal reverse) in E. rewrite reverse_involutive in E. subst. reflexivity.
  - assert (Hs : symbol = reverse r ++ [c]).
    { apply (f_equal reverse) in E. rewrite reverse_involutive, reverse_cons in E. exact E. }
    cbn [Receiver.drop_padding].
    assert (Hc32 : c <> 32).
    { intros ->. apply Hlast. rewrite Hs. apply last_snoc. }
    assert (Hc0 : c <> 0).
    { rewrite Hs in Hc.
      pose proof (proj2 (proj1 (Forall_app _ _ _) Hc)) as Hc'.
      inversion Hc' as [|? ? Hx _]. lia. }
    replace (c =? 32) with false by (symmetry; apply Z.eqb_neq; exact Hc32).
    replace (c =? 0) with false by (symmetry; apply Z.eqb_neq; exact Hc0).
    cbn [orb]. rewrite reverse_cons, <- Hs. reflexivity.
Qed.

(** X24 on the catalogue name of instrument 1001. *)
Lemma X24_receiver_trims_witness :
  wf_symbol (getSymbolName SECURITY_ID_ESH26) /\
  last (getSymbolName SECURITY_ID_ESH26) <> Some 32 /\
  Receiver.trim_symbol (strncpy 8 (getSymbolName SECURITY_ID_ESH26))
  = getSymbolName SECURITY_ID_ESH26.
Proof.
  assert (H1 : wf_symbol (getSymbolName SECURITY_ID_ESH26)).
  { split; [apply Nat.leb_le; vm_compute; reflexivity|].
    repeat constructor. }
  assert (H2 : last (getSymbolName SECURITY_ID_ESH26) <> Some 32)
    by (vm_compute; intro E; inversion E).
  split; [exact H1|]. split; [exact H2|].
  exact (X24_receiver_trims_padding (getSymbolName SECURITY_ID_ESH26) H1 H2).
Defined.

End WireExtras.

(** ** The simulator's datagrams, as the handler reads them *)

Section SimulatorExtras.
Import Mem Protocol Recovery BookManager Parser Simulator FeedHandler FeedProps ExtraProps
       WireProps.

Local Ltac piece_sizes :=
  cbn [take drop concat];
  repeat first [ rewrite length_app | rewrite length_le_bytes | rewrite length_strncpy ];
  cbn [length]; lia.

Local Ltac piece_at i :=
  erewrite (load_piece _ i); [ | reflexivity | piece_sizes | piece_sizes ].

Lemma returns_ret {A} (a : A) data : returns (ret a) data a.
Proof. intros log. reflexivity. Qed.

Lemma returns_bind {A B} (c : Rd A) (k : A -> Rd B) data a b :
  returns c data a -> returns (k a) data b -> returns (bind c k) data b.
Proof.
  intros Hc Hk log. unfold bind. specialize (Hc log).
  destruct (c data log) as [a' log1]. cbn [fst] in Hc. subst a'. apply Hk.
Qed.

Lemma returns_rd_u off n data : returns (rd_u off n) data (load_u off n data).
Proof. intros log. reflexivity. Qed.

Lemma returns_rd_c_str off data : returns (rd_c_str off) data (c_str (drop off data)).
Proof. intros log. reflexivity. Qed.

(** A C string ends at the NUL behind a field, if not before. *)
Lemma c_str_field (field rest : list Z) : c_str (field ++ 0 :: rest) = c_str field.
Proof.
  induction field as [|c field IH]; [reflexivity|].
  cbn [app c_str]. destruct (c =? 0); [reflexivity|]. rewrite IH. reflexivity.
Qed.

Lemma le_signed32 v : is_i32 v -> signed 32 (le_value (le_bytes 4 v)) = v.
Proof.
  unfold is_i32, signed. intros H. rewrite le_value_le_bytes.
  change (256 ^ Z.of_nat 4) with (2 ^ 32). rewrite Z.mod_mod by lia.
  change (2 ^ (32 - 1)) with (2 ^ 31).
  destruct (Z.ltb_spec (v mod 2 ^ 32) (2 ^ 31)) as [L|L].
  - destruct (Z_lt_le_dec v 0) as [Neg|Pos].
    + rewrite <- (Z.mod_add v 1 (2 ^ 32)) in L by lia.
      rewrite Z.mod_small in L by lia. lia.
    + apply Z.mod_small. lia.
  - destruct (Z_lt_le_dec v 0) as [Neg|Pos].
    + rewrite <- (Z.mod_add v 1 (2 ^ 32)) by lia.
      rewrite Z.mod_small by lia. lia.
    + rewrite Z.mod_small in L by lia. lia.
Qed.

Lemma incr_entry_bytes_pieces e : incr_entry_bytes e = concat (incr_entry_pieces e).
Proof.
  unfold incr_entry_bytes, incr_entry_pieces. cbn [concat].
  rewrite app_nil_r. reflexivity.
Qed.

Lemma length_incr_entry_bytes e : length (incr_entry_bytes e) = 24%nat.
Proof. unfold incr_entry_bytes. rewrite !length_app, !length_le_bytes. reflexivity. Qed.

Lemma length_incr_entries es :
  length (concat (List.map incr_entry_bytes es)) = (24 * length es)%nat.
Proof.
  induction es as [|e es IH]; cbn [List.map concat]; [reflexivity|].
  rewrite length_app, length_incr_entry_bytes, IH. simpl. lia.
Qed.

(** Reading back an incremental entry from where its image starts. *)
Lemma read_incr_entry_returns data base e tail :
  drop base data = concat (incr_entry_pieces e) ++ tail -> wf_incr e ->
  returns (read_incr_entry base) data e.
Proof.
  intros Hd (H1 & H2 & H3 & H4 & H5 & H6 & H7 & H8) log.
  unfold read_incr_entry, bind, rd_i, rd_u, ret. cbn [fst].
  unfold load_i, load_u.
  rewrite (load_base base), !load_drop, Hd. unfold incr_entry_pieces.
  piece_at 0%nat. piece_at 1%nat. piece_at 2%nat. piece_at 3%nat.
  piece_at 4%nat. piece_at 5%nat. piece_at 6%nat. piece_at 7%nat.
  change (8 * Z.of_nat 8) with 64. change (8 * Z.of_nat 4) with 32.
  rewrite le_signed64 by exact H1. rewrite le_signed32 by exact H2.
  unfold is_u32, is_u8 in *.
  rewrite !le_unsigned by assumption.
  destruct e; reflexivity.
Qed.

Lemma read_incr_entries_returns es : forall base data tail,
  drop base data = concat (List.map incr_entry_bytes es) ++ tail ->
  Forall wf_incr es ->
  returns (read_array read_incr_entry 24 (length es) base) data es.
Proof.
  induction es as [|e es IH]; intros base data tail Hd Hwf; cbn [length read_array].
  - apply returns_ret.
  - apply Forall_cons in Hwf as [He Hes].
    cbn [List.map concat] in Hd. rewrite <- app_assoc in Hd.
    eapply returns_bind.
    + apply (read_incr_entry_returns data base e
               (concat (List.map incr_entry_bytes es) ++ tail)); [|exact He].
      rewrite Hd, incr_entry_bytes_pieces. reflexivity.
    + eapply returns_bind; [|apply returns_ret].
      apply (IH _ _ tail); [|exact Hes].
      rewrite <- drop_drop, Hd.
      rewrite <- (length_incr_entry_bytes e). apply drop_app_length.
Qed.

Lemma copy_entries_append es : forall (P X : list Z),
  copy_entries es (P ++ X, length P)
  = ((P ++ concat (List.map incr_entry_bytes es)) ++ drop (24 * length es) X,
     (length P + 24 * length es)%nat).
Proof.
  unfold copy_entries.
  induction es as [|e es IH]; intros P X; cbn [foldl List.map concat fst snd].
  - rewrite !app_nil_r. simpl. rewrite Nat.add_0_r. reflexivity.
  - rewrite store_append by reflexivity.
    replace (length P + 24)%nat with (length (P ++ incr_entry_bytes e))
      by (rewrite length_app, length_incr_entry_bytes; reflexivity).
    rewrite IH, length_incr_entry_bytes, drop_drop.
    rewrite length_app, length_incr_entry_bytes, <- !app_assoc.
    replace (24 * length (e :: es))%nat with (24 + 24 * length es)%nat by (simpl; lia).
    rewrite Nat.add_assoc. reflexivity.
Qed.

Lemma memset0_zeros buffer : memset0 buffer = replicate (length buffer) 0.
Proof.
  unfold memset0. induction buffer as [|x l IH]; [reflexivity|].
  cbn. rewrite IH. reflexivity.
Qed.

(** The datagram [sendIncrementalPacket] hands to the sender. *)
Lemma sendIncrementalPacket_image es (sim : CmeSimulator) :
  (31 + 24 * length es <= length (sim_send_buffer_ sim))%nat ->
  (length es <= 255)%nat ->
  fst (sendIncrementalPacket es sim)
  = concat (incremental_packet_pieces (u32 (incr_packet_seq_ sim + 1))
                                      (hd 0 (sim_clock_ sim)) es).
Proof.
  intros Hbuf Hn. unfold sendIncrementalPacket, Simulator.getCurrentTimeNs.
  cbv beta iota zeta. cbn [sim_send_buffer_ incr_packet_seq_ snap_packet_seq_ sim_clock_].
  rewrite memset0_zeros.
  assert (N : u8 (Z.of_nat (length es)) = Z.of_nat (length es)).
  { unfold u8. apply Z.mod_small. lia. }
  rewrite N.
  change (Z.to_nat sizeof_PacketHeader) with 12%nat.
  change (Z.to_nat sizeof_MDIncrementalRefreshBook) with 19%nat.
  rewrite store_zero.
  rewrite (store_append 12)
    by (unfold packet_header_bytes; rewrite length_app, !length_le_bytes; reflexivity).
  assert (L1 : length (packet_header_bytes (u32 (incr_packet_seq_ sim + 1))
                                           (hd 0 (sim_clock_ sim))
                       ++ incremental_book_bytes (hd 0 (sim_clock_ sim))
                                                 (Z.of_nat (length es))) = 31%nat).
  { unfold packet_header_bytes, incremental_book_bytes, sbe_header_bytes.
    rewrite !length_app, !length_le_bytes. reflexivity. }
  change (12 + 19)%nat with 31%nat. rewrite <- L1 at 1.
  rewrite copy_entries_append.
  assert (P : (12 + Z.to_nat (calcIncrementalSize (Z.of_nat (length es))))%nat
              = (31 + 24 * length es)%nat).
  { unfold calcIncrementalSize, sizeof_MDIncrementalRefreshBook, sizeof_SBEMessageHeader,
      sizeof_GroupHeader, sizeof_MDIncrementalRefreshEntry. lia. }
  rewrite P. cbn [fst].
  assert (L2 : length ((packet_header_bytes (u32 (incr_packet_seq_ sim + 1))
                                            (hd 0 (sim_clock_ sim))
                        ++ incremental_book_bytes (hd 0 (sim_clock_ sim))
                                                  (Z.of_nat (length es)))
                       ++ concat (List.map incr_entry_bytes es))
               = (31 + 24 * length es)%nat).
  { rewrite length_app, L1, length_incr_entries. reflexivity. }
  rewrite <- L2 at 1. rewrite take_app_length.
  unfold incremental_packet_pieces, packet_header_bytes, incremental_book_bytes,
    sbe_header_bytes. cbn [concat]. rewrite <- !app_assoc, app_nil_r. reflexivity.
Qed.

(** *** Steps of the two parsing loops *)

Lemma incremental_loop_end fuel len offset data :
  (len < offset + 8)%nat -> returns (incremental_loop fuel len offset) data [].
Proof.
  intros H. destruct fuel as [|fuel]; cbn [incremental_loop]; [apply returns_ret|].
  change (Z.to_nat sizeof_SBEMessageHeader) with 8%nat.
  replace (offset + 8 <=? len)%nat with false by (symmetry; apply Nat.leb_gt; exact H).
  apply returns_ret.
Qed.

Lemma incremental_loop_refresh fuel len offset data n es rest :
  (offset + 8 <= len)%nat ->
  load_u (offset + 2) 2 data = TEMPLATE_MD_INCREMENTAL_REFRESH ->
  load_u (offset + 18) 1 data = n ->
  (offset + Z.to_nat (calcIncrementalSize n) <= len)%nat ->
  returns (read_array read_incr_entry 24 (Z.to_nat n) (offset + 19)) data es ->
  returns (incremental_loop fuel len (offset + Z.to_nat (calcIncrementalSize n))) data rest ->
  returns (incremental_loop (S fuel) len offset) data (IncrementalRefreshMsg es :: rest).
Proof.
  intros H8 Ht Hn Hsz Hes Hrest. cbn [incremental_loop].
  change (Z.to_nat sizeof_SBEMessageHeader) with 8%nat.
  replace (offset + 8 <=? len)%nat with true by (symmetry; apply Nat.leb_le; exact H8).
  eapply returns_bind; [apply returns_rd_u|]. rewrite Ht.
  change (TEMPLATE_MD_INCREMENTAL_REFRESH =? TEMPLATE_SECURITY_DEFINITION) with false.
  change (TEMPLATE_MD_INCREMENTAL_REFRESH =? TEMPLATE_MD_INCREMENTAL_REFRESH) with true.
  cbv iota.
  eapply returns_bind; [apply returns_rd_u|]. rewrite Hn.
  replace (offset + Z.to_nat (calcIncrementalSize n) <=? len)%nat with true
    by (symmetry; apply Nat.leb_le; exact Hsz).
  eapply returns_bind.
  - unfold read_incremental_refresh.
    eapply returns_bind; [apply returns_rd_u|]. rewrite Hn.
    eapply returns_bind; [|apply returns_ret].
    change (Z.to_nat sizeof_MDIncrementalRefreshEntry) with 24%nat.
    change (Z.to_nat sizeof_MDIncrementalRefreshBook) with 19%nat.
    exact Hes.
  - eapply returns_bind; [exact Hrest | apply returns_ret].
Qed.

Lemma incremental_loop_definition fuel len offset data rest :
  (offset + 45 <= len)%nat ->
  load_u (offset + 2) 2 data = TEMPLATE_SECURITY_DEFINITION ->
  returns (incremental_loop fuel len (offset + 45)) data rest ->
  returns (incremental_loop (S fuel) len offset) data
          (SecurityDefinitionMsg (load_u (offset + 8) 4 data)
                                 (c_str (drop (offset + 12) data)) :: rest).
Proof.
  intros H45 Ht Hrest. cbn [incremental_loop].
  change (Z.to_nat sizeof_SBEMessageHeader) with 8%nat.
  change (Z.to_nat sizeof_SecurityDefinition) with 45%nat.
  replace (offset + 8 <=? len)%nat with true by (symmetry; apply Nat.leb_le; lia).
  eapply returns_bind; [apply returns_rd_u|]. rewrite Ht.
  change (TEMPLATE_SECURITY_DEFINITION =? TEMPLATE_SECURITY_DEFINITION) with true.
  cbv iota.
  replace (offset + 45 <=? len)%nat with true by (symmetry; apply Nat.leb_le; exact H45).
  eapply returns_bind.
  - unfold read_security_definition.
    eapply returns_bind; [apply returns_rd_c_str|].
    eapply returns_bind; [apply returns_rd_u | apply returns_ret].
  - eapply returns_bind; [exact Hrest | apply returns_ret].
Qed.

Lemma snapshot_loop_end fuel len offset data :
  (len < offset + 8)%nat -> returns (snapshot_loop fuel len offset) data [].
Proof.
  intros H. destruct fuel as [|fuel]; cbn [snapshot_loop]; [apply returns_ret|].
  change (Z.to_nat sizeof_SBEMessageHeader) with 8%nat.
  replace (offset + 8 <=? len)%nat with false by (symmetry; apply Nat.leb_gt; exact H).
  apply returns_ret.
Qed.

Lemma snapshot_loop_refresh fuel len offset data n es rest :
  (offset + 8 <= len)%nat ->
  load_u (offset + 2) 2 data = TEMPLATE_MD_SNAPSHOT_FULL_REFRESH ->
  load_u (offset + 30) 1 data = n ->
  (offset + Z.to_nat (calcSnapshotSize n) <= len)%nat ->
  returns (read_array read_snap_entry 16 (Z.to_nat n) (offset + 31)) data es ->
  returns (snapshot_loop fuel len (offset + Z.to_nat (calcSnapshotSize n))) data rest ->
  returns (snapshot_loop (S fuel) len offset) data
          (SnapshotFullRefreshMsg (load_u (offset + 8) 4 data) (load_u (offset + 12) 4 data)
                                  (load_u (offset + 16) 4 data) es :: rest).
Proof.
  intros H8 Ht Hn Hsz Hes Hrest. cbn [snapshot_loop].
  change (Z.to_nat sizeof_SBEMessageHeader) with 8%nat.
  replace (offset + 8 <=? len)%nat with true by (symmetry; apply Nat.leb_le; exact H8).
  eapply returns_bind; [apply returns_rd_u|]. rewrite Ht.
  change (TEMPLATE_MD_SNAPSHOT_FULL_REFRESH =? TEMPLATE_MD_SNAPSHOT_FULL_REFRESH) with true.
  cbv iota.
  eapply returns_bind; [apply returns_rd_u|]. rewrite Hn.
  replace (offset + Z.to_nat (calcSnapshotSize n) <=? len)%nat with true
    by (symmetry; apply Nat.leb_le; exact Hsz).
  eapply returns_bind.
  - unfold read_snapshot_full_refresh.
    eapply returns_bind; [apply returns_rd_u|].
    eapply returns_bind; [apply returns_rd_u|].
    eapply returns_bind; [apply returns_rd_u|].
    eapply returns_bind; [apply returns_rd_u|]. rewrite Hn.
    eapply returns_bind; [|apply returns_ret].
    change (Z.to_nat sizeof_MDSnapshotEntry) with 16%nat.
    change (Z.to_nat sizeof_MDSnapshotFullRefresh) with 31%nat.
    exact Hes.
  - eapply returns_bind; [exact Hrest | apply returns_ret].
Qed.

Lemma parse_incremental_image seq now es junk :
  is_u32 seq -> (length es <= 255)%nat -> Forall wf_incr es ->
  returns (parseIncrementalPacket (31 + 24 * length es))
          (concat (incremental_packet_pieces seq now es) ++ junk)
          (Some (seq, [IncrementalRefreshMsg es])).
Proof.
  intros Hseq Hn Hwf. unfold parseIncrementalPacket.
  change (Z.to_nat sizeof_PacketHeader) with 12%nat.
  replace (31 + 24 * length es <? 12)%nat with false by (symmetry; apply Nat.ltb_ge; lia).
  set (data := concat (incremental_packet_pieces seq now es) ++ junk).
  assert (E0 : load_u 0 4 data = seq).
  { unfold load_u, data, incremental_packet_pieces. piece_at 0%nat.
    apply le_unsigned. exact Hseq. }
  assert (Et : load_u (12 + 2) 2 data = TEMPLATE_MD_INCREMENTAL_REFRESH).
  { unfold load_u, data, incremental_packet_pieces. piece_at 3%nat. reflexivity. }
  assert (En : load_u (12 + 18) 1 data = Z.of_nat (length es)).
  { unfold load_u, data, incremental_packet_pieces. piece_at 8%nat.
    apply le_unsigned. change (256 ^ Z.of_nat 1) with 256. lia. }
  assert (Ed : drop (12 + 19) data = concat (List.map incr_entry_bytes es) ++ junk).
  { unfold data. rewrite (drop_pieces _ 9)
      by (unfold incremental_packet_pieces; piece_sizes).
    unfold incremental_packet_pieces. cbn [drop concat]. rewrite app_nil_r. reflexivity. }
  assert (Sz : Z.to_nat (calcIncrementalSize (Z.of_nat (length es)))
               = (19 + 24 * length es)%nat).
  { unfold calcIncrementalSize, sizeof_MDIncrementalRefreshBook, sizeof_SBEMessageHeader,
      sizeof_GroupHeader, sizeof_MDIncrementalRefreshEntry. lia. }
  eapply returns_bind; [apply returns_rd_u|]. rewrite E0.
  eapply returns_bind; [|apply returns_ret].
  apply (incremental_loop_refresh _ _ 12 data (Z.of_nat (length es)) es []).
  - lia.
  - exact Et.
  - exact En.
  - rewrite Sz. lia.
  - rewrite Nat2Z.id. apply (read_incr_entries_returns es _ data junk Ed Hwf).
  - apply incremental_loop_end. rewrite Sz. lia.
Qed.

(** X25: the handler reads the simulator's incremental packets. For
    entries whose fields are of their wire types, at most 255 of them
    and few enough to fit the send buffer, the datagram built by
    [sendIncrementalPacket] has [31 + 24 * n] bytes and carries the next
    packet sequence; received in front of whatever the receive buffer
    held before, it parses to that sequence and one incremental message
    with exactly the entries sent, so processing it is handling those
    entries, with the packet sequence recorded. *)
Theorem X25_simulator_incremental_round_trip
    (sim : CmeSimulator) (es : list MDIncrementalRefreshEntry) (junk : list Z)
    (fh : CmeFeedHandler) :
  (31 + 24 * length es <= length (sim_send_buffer_ sim))%nat ->
  (length es <= 255)%nat ->
  Forall wf_incr es ->
  let dgram := fst (sendIncrementalPacket es sim) in
  let seq := u32 (incr_packet_seq_ sim + 1) in
  length dgram = (31 + 24 * length es)%nat /\
  incr_packet_seq_ (snd (sendIncrementalPacket es sim)) = seq /\
  fst (Parser.run (parseIncrementalPacket (length dgram)) (dgram ++ junk))
  = Some (seq, [IncrementalRefreshMsg es]) /\
  processIncrementalPacket (dgram ++ junk) (length dgram) fh
  = handleIncrementalRefresh es
      (mkFH (book_manager_ fh) (recovery_manager_ fh) seq false (output_seq_ fh)
            (FeedHandler.stats_ fh) (send_buffer_ fh) (clock_ fh) (sent_ fh)).
Proof.
  intros Hbuf Hn Hwf dgram seq. subst dgram.
  rewrite (sendIncrementalPacket_image es sim Hbuf Hn). fold seq.
  assert (L : length (concat (incremental_packet_pieces seq (hd 0 (sim_clock_ sim)) es))
              = (31 + 24 * length es)%nat).
  { unfold incremental_packet_pieces. cbn [concat].
    rewrite !length_app, !length_le_bytes, length_incr_entries. cbn [length]. lia. }
  assert (Hseq : is_u32 seq).
  { subst seq. unfold is_u32, u32. apply Z.mod_pos_bound. lia. }
  pose proof (parse_incremental_image seq (hd 0 (sim_clock_ sim)) es junk Hseq Hn Hwf [])
    as P.
  rewrite L.
  split; [reflexivity|].
  split.
  { unfold sendIncrementalPacket, Simulator.getCurrentTimeNs. cbv beta iota zeta.
    destruct (copy_entries _ _). reflexivity. }
  split; [exact P|].
  unfold processIncrementalPacket, Parser.run. rewrite P. reflexivity.
Qed.

(** X25 on one bid entry sent by a simulator that has sent 41 packets. *)
Lemma X25_simulator_incremental_witness :
  (31 + 24 * length [bid_entry SECURITY_ID_ESH26 1 45000000000]
   <= length (sim_send_buffer_ sim_example))%nat /\
  (length [bid_entry SECURITY_ID_ESH26 1 45000000000] <= 255)%nat /\
  Forall wf_incr [bid_entry SECURITY_ID_ESH26 1 45000000000] /\
  fst (Parser.run
         (parseIncrementalPacket
            (length (fst (sendIncrementalPacket
                            [bid_entry SECURITY_ID_ESH26 1 45000000000] sim_example))))
         (fst (sendIncrementalPacket [bid_entry SECURITY_ID_ESH26 1 45000000000]
                                     sim_example) ++ []))
  = Some (u32 (incr_packet_seq_ sim_example + 1),
          [IncrementalRefreshMsg [bid_entry SECURITY_ID_ESH26 1 45000000000]]).
Proof.
  assert (H1 : (31 + 24 * length [bid_entry SECURITY_ID_ESH26 1 45000000000]
                <= length (sim_send_buffer_ sim_example))%nat)
    by (apply Nat.leb_le; vm_compute; reflexivity).
  assert (H2 : (length [bid_entry SECURITY_ID_ESH26 1 45000000000] <= 255)%nat)
    by (apply Nat.leb_le; vm_compute; reflexivity).
  assert (H3 : Forall wf_incr [bid_entry SECURITY_ID_ESH26 1 45000000000])
    by (repeat constructor; by_eval).
  split; [exact H1|]. split; [exact H2|]. split; [exact H3|].
  exact (proj1 (proj2 (proj2
    (X25_simulator_incremental_round_trip sim_example
       [bid_entry SECURITY_ID_ESH26 1 45000000000] []
       (CmeFeedHandler_init []) H1 H2 H3)))).
Defined.

Lemma sendSecurityDefinition_image b (sim : CmeSimulator) :
  fst (sendSecurityDefinition b sim)
  = concat (definition_packet_pieces (u32 (incr_packet_seq_ sim + 1))
                                     (hd 0 (sim_clock_ sim)) b).
Proof.
  unfold sendSecurityDefinition, Simulator.getCurrentTimeNs.
  cbv beta iota zeta. cbn [sim_send_buffer_ incr_packet_seq_ snap_packet_seq_ sim_clock_].
  change (Z.to_nat sizeof_PacketHeader) with 12%nat.
  change (Z.to_nat sizeof_SecurityDefinition) with 45%nat.
  rewrite store_zero.
  rewrite (store_append 12)
    by (unfold packet_header_bytes; rewrite length_app, !length_le_bytes; reflexivity).
  cbn [fst].
  assert (L : length (packet_header_bytes (u32 (incr_packet_seq_ sim + 1))
                                          (hd 0 (sim_clock_ sim))
                      ++ security_definition_bytes b) = (12 + 45)%nat).
  { unfold packet_header_bytes, security_definition_bytes, sbe_header_bytes.
    rewrite !length_app, !length_le_bytes, length_strncpy. reflexivity. }
  rewrite <- L at 1. rewrite take_app_length.
  unfold definition_packet_pieces, packet_header_bytes, security_definition_bytes,
    sbe_header_bytes. cbn [concat]. rewrite <- !app_assoc, app_nil_r. reflexivity.
Qed.

(** X26: the handler reads the simulator's security definitions. The
    datagram built for a book has 57 bytes; it parses to one
    SecurityDefinition message with the book's id (a 32-bit value) and
    its symbol as the handler prints it from the 20-byte field (the
    book's symbol up to its first NUL, cut at 19 characters: the field
    always ends in a NUL), and after processing it the instrument has a
    book and is in Normal, expecting sequence 1. *)
Theorem X26_simulator_definition_round_trip
    (sim : CmeSimulator) (b : SimulatedBook) (junk : list Z) (fh : CmeFeedHandler) :
  (57 <= length (sim_send_buffer_ sim))%nat ->
  is_u32 (sb_security_id b) ->
  let dgram := fst (sendSecurityDefinition b sim) in
  let fh' := processIncrementalPacket (dgram ++ junk) (length dgram) fh in
  length dgram = 57%nat /\
  fst (Parser.run (parseIncrementalPacket (length dgram)) (dgram ++ junk))
  = Some (u32 (incr_packet_seq_ sim + 1),
          [SecurityDefinitionMsg (sb_security_id b)
                                 (c_str (strncpy 19 (sb_symbol b)))]) /\
  hasBook (sb_security_id b) (book_manager_ fh') = true /\
  getState (sb_security_id b) (recovery_manager_ fh') = Normal /\
  getExpectedRptSeq (sb_security_id b) (recovery_manager_ fh') = 1.
Proof.
  intros Hbuf Hsid dgram fh'. subst fh' dgram.
  rewrite sendSecurityDefinition_image.
  set (seq := u32 (incr_packet_seq_ sim + 1)).
  set (now := hd 0 (sim_clock_ sim)).
  assert (L : length (concat (definition_packet_pieces seq now b)) = 57%nat).
  { unfold definition_packet_pieces. cbn [concat].
    rewrite !length_app, !length_le_bytes, length_strncpy. reflexivity. }
  rewrite L.
  set (data := concat (definition_packet_pieces seq now b) ++ junk).
  assert (E0 : load_u 0 4 data = seq).
  { unfold load_u, data, definition_packet_pieces. piece_at 0%nat.
    apply le_unsigned. subst seq. unfold u32. apply Z.mod_pos_bound. lia. }
  assert (Et : load_u (12 + 2) 2 data = TEMPLATE_SECURITY_DEFINITION).
  { unfold load_u, data, definition_packet_pieces. piece_at 3%nat. reflexivity. }
  assert (Es : load_u (12 + 8) 4 data = sb_security_id b).
  { unfold load_u, data, definition_packet_pieces. piece_at 6%nat.
    apply le_unsigned. exact Hsid. }
  assert (Ey : c_str (drop (12 + 12) data) = c_str (strncpy 19 (sb_symbol b))).
  { unfold data. rewrite (drop_pieces _ 7)
      by (unfold definition_packet_pieces; piece_sizes).
    unfold definition_packet_pieces. cbn [drop concat].
    rewrite <- !app_assoc. apply c_str_field. }
  assert (P : returns (parseIncrementalPacket 57) data
                (Some (seq, [SecurityDefinitionMsg (sb_security_id b)
                               (c_str (strncpy 19 (sb_symbol b)))]))).
  { unfold parseIncrementalPacket.
    change (Z.to_nat sizeof_PacketHeader) with 12%nat.
    change (57 <? 12)%nat with false. cbv iota.
    eapply returns_bind; [apply returns_rd_u|]. rewrite E0.
    eapply returns_bind; [|apply returns_ret].
    rewrite <- Es, <- Ey.
    apply (incremental_loop_definition _ _ 12 data []); [lia | exact Et |].
    apply incremental_loop_end. lia. }
  split; [reflexivity|]. split; [exact (P [])|].
  unfold processIncrementalPacket, Parser.run. rewrite (P []).
  cbn [foldl dispatch]. unfold handleSecurityDefinition, hasBook, getState, getExpectedRptSeq.
  cbn [with_managers book_manager_ recovery_manager_ initSecurity states_].
  rewrite lookup_insert_eq. cbn [state expected_rpt_seq].
  split; [|auto].
  apply bool_decide_eq_true.
  destruct (getBook_book (sb_security_id b) (book_manager_ fh)) as (_ & _ & M).
  rewrite M, lookup_insert_eq. eexists. reflexivity.
Qed.

(** X26 on the example book. *)
Lemma X26_simulator_definition_witness :
  (57 <= length (sim_send_buffer_ sim_example))%nat /\
  is_u32 (sb_security_id book_example) /\
  length (fst (sendSecurityDefinition book_example sim_example)) = 57%nat.
Proof.
  assert (H1 : (57 <= length (sim_send_buffer_ sim_example))%nat)
    by (apply Nat.leb_le; vm_compute; reflexivity).
  assert (H2 : is_u32 (sb_security_id book_example)) by by_eval.
  split; [exact H1|]. split; [exact H2|].
  exact (proj1 (X26_simulator_definition_round_trip sim_example book_example []
                  (CmeFeedHandler_init []) H1 H2)).
Defined.

(** *** Snapshot packets *)

Lemma store_shift (P bs X : list Z) k :
  store (length P + k) bs (P ++ X) = P ++ store k bs X.
Proof.
  unfold store. rewrite take_app_add', <- Nat.add_assoc, drop_app_add' by reflexivity.
  rewrite <- app_assoc. reflexivity.
Qed.

(** The ten entries written by the loop of [sendSnapshotPacket] into
    zeroed memory, bids and asks interleaved, are the packed images of
    the five bids followed by the five asks. *)
Lemma fill_entries_image (b : SimulatedBook) (P rest : list Z) :
  length (sb_bids b) = 5%nat -> length (sb_asks b) = 5%nat ->
  fill_entries b (length P) (P ++ replicate 160 0 ++ rest)
  = P ++ concat (List.map (fun e => concat (snap_entry_pieces e)) (snapshot_entries b))
      ++ rest.
Proof.
  intros Hb Ha. unfold fill_entries, snapshot_entries.
  destruct (sb_bids b) as [|b0 [|b1 [|b2 [|b3 [|b4 [|? ?]]]]]]; try discriminate Hb.
  destruct (sb_asks b) as [|a0 [|a1 [|a2 [|a3 [|a4 [|? ?]]]]]]; try discriminate Ha.
  cbn [seq foldl].
  rewrite !store_shift. f_equal.
Qed.

Lemma length_snap_entries es :
  length (concat (List.map (fun e => concat (snap_entry_pieces e)) es))
  = (16 * length es)%nat.
Proof.
  induction es as [|e es IH]; cbn [List.map concat]; [reflexivity|].
  rewrite length_app, IH. unfold snap_entry_pieces. cbn [concat].
  rewrite !length_app, !length_le_bytes. cbn [length]. lia.
Qed.

Lemma length_snapshot_entries (b : SimulatedBook) :
  length (sb_bids b) = 5%nat -> length (sb_asks b) = 5%nat ->
  length (snapshot_entries b) = 10%nat.
Proof.
  intros Hb Ha. unfold snapshot_entries. rewrite length_app, !length_imap, Hb, Ha.
  reflexivity.
Qed.

Lemma sendSnapshotPacket_image b (sim : CmeSimulator) :
  (203 <= length (sim_send_buffer_ sim))%nat ->
  length (sb_bids b) = 5%nat -> length (sb_asks b) = 5%nat ->
  fst (sendSnapshotPacket b sim)
  = concat (snapshot_packet_pieces (u32 (snap_packet_seq_ sim + 1)) (hd 0 (sim_clock_ sim))
              (incr_packet_seq_ sim) (sb_security_id b) (sb_rpt_seq b)
              (snapshot_entries b)).
Proof.
  intros Hbuf Hb Ha. unfold sendSnapshotPacket, Simulator.getCurrentTimeNs.
  cbv beta iota zeta. cbn [sim_send_buffer_ incr_packet_seq_ snap_packet_seq_ sim_clock_].
  rewrite memset0_zeros.
  change (Z.to_nat sizeof_PacketHeader) with 12%nat.
  change (Z.to_nat sizeof_MDSnapshotFullRefresh) with 31%nat.
  change (Z.to_nat (calcSnapshotSize 10)) with 191%nat.
  rewrite store_zero.
  rewrite (store_append 12)
    by (unfold packet_header_bytes; rewrite length_app, !length_le_bytes; reflexivity).
  set (P := packet_header_bytes _ _ ++ snapshot_refresh_bytes _ _ _ _ _).
  assert (LP : length P = (12 + 31)%nat).
  { subst P. unfold packet_header_bytes, snapshot_refresh_bytes, sbe_header_bytes.
    rewrite !length_app, !length_le_bytes. reflexivity. }
  assert (LH : length (packet_header_bytes (u32 (snap_packet_seq_ sim + 1))
                                           (hd 0 (sim_clock_ sim))) = 12%nat).
  { unfold packet_header_bytes. rewrite length_app, !length_le_bytes. reflexivity. }
  assert (LR : length (snapshot_refresh_bytes (incr_packet_seq_ sim) (sb_security_id b)
                         (sb_rpt_seq b) (hd 0 (sim_clock_ sim)) 10) = 31%nat).
  { unfold snapshot_refresh_bytes, sbe_header_bytes.
    rewrite !length_app, !length_le_bytes. reflexivity. }
  rewrite LH, LR, !drop_replicate.
  replace (length (sim_send_buffer_ sim) - 12 - 31)%nat
    with (160 + (length (sim_send_buffer_ sim) - 203))%nat by lia.
  rewrite replicate_add, <- LP.
  rewrite (fill_entries_image b P _ Hb Ha). cbn [fst].
  assert (LE : length (P ++ concat (List.map (fun e => concat (snap_entry_pieces e))
                                             (snapshot_entries b))) = (12 + 191)%nat).
  { rewrite length_app, LP, length_snap_entries, length_snapshot_entries by assumption.
    reflexivity. }
  rewrite app_assoc, <- LE, take_app_length.
  subst P. unfold snapshot_packet_pieces, packet_header_bytes, snapshot_refresh_bytes,
    sbe_header_bytes. cbn [concat].
  rewrite length_snapshot_entries by assumption.
  rewrite <- !app_assoc, app_nil_r. reflexivity.
Qed.

Lemma read_snap_entry_returns data base e tail :
  drop base data = concat (snap_entry_pieces e) ++ tail -> wf_snap e ->
  returns (read_snap_entry base) data e.
Proof.
  intros Hd (H1 & H2 & H3 & H4 & H5) log.
  unfold read_snap_entry, bind, rd_i, rd_u, ret. cbn [fst].
  unfold load_i, load_u.
  rewrite (load_base base), !load_drop, Hd. unfold snap_entry_pieces.
  piece_at 0%nat. piece_at 1%nat. piece_at 2%nat. piece_at 3%nat. piece_at 4%nat.
  change (8 * Z.of_nat 8) with 64. change (8 * Z.of_nat 4) with 32.
  rewrite le_signed64 by exact H1. rewrite le_signed32 by exact H2.
  unfold is_u8 in *.
  rewrite !le_unsigned by assumption.
  destruct e; reflexivity.
Qed.

Lemma read_snap_entries_returns es : forall base data tail,
  drop base data = concat (List.map (fun e => concat (snap_entry_pieces e)) es) ++ tail ->
  Forall wf_snap es ->
  returns (read_array read_snap_entry 16 (length es) base) data es.
Proof.
  induction es as [|e es IH]; intros base data tail Hd Hwf; cbn [length read_array].
  - apply returns_ret.
  - apply Forall_cons in Hwf as [He Hes].
    cbn [List.map concat] in Hd. rewrite <- app_assoc in Hd.
    eapply returns_bind.
    + apply (read_snap_entry_returns data base e
               (concat (List.map (fun e => concat (snap_entry_pieces e)) es) ++ tail));
        [exact Hd | exact He].
    + eapply returns_bind; [|apply returns_ret].
      apply (IH _ _ tail); [|exact Hes].
      rewrite <- drop_drop, Hd.
      replace 16%nat with (length (concat (snap_entry_pieces e))) at 1.
      * apply drop_app_length.
      * unfold snap_entry_pieces. cbn [concat].
        rewrite !length_app, !length_le_bytes. reflexivity.
Qed.

Lemma parse_snapshot_image seq now last sid rpt es junk :
  is_u32 last -> is_u32 sid -> is_u32 rpt ->
  (length es <= 255)%nat -> Forall wf_snap es ->
  returns (parseSnapshotPacket (43 + 16 * length es))
          (concat (snapshot_packet_pieces seq now last sid rpt es) ++ junk)
          (Some [SnapshotFullRefreshMsg last sid rpt es]).
Proof.
  intros Hlast Hsid Hrpt Hn Hwf. unfold parseSnapshotPacket.
  change (Z.to_nat sizeof_PacketHeader) with 12%nat.
  replace (43 + 16 * length es <? 12)%nat with false by (symmetry; apply Nat.ltb_ge; lia).
  set (data := concat (snapshot_packet_pieces seq now last sid rpt es) ++ junk).
  assert (Et : load_u (12 + 2) 2 data = TEMPLATE_MD_SNAPSHOT_FULL_REFRESH).
  { unfold load_u, data, snapshot_packet_pieces. piece_at 3%nat. reflexivity. }
  assert (E1 : load_u (12 + 8) 4 data = last).
  { unfold load_u, data, snapshot_packet_pieces. piece_at 6%nat.
    apply le_unsigned. exact Hlast. }
  assert (E2 : load_u (12 + 12) 4 data = sid).
  { unfold load_u, data, snapshot_packet_pieces. piece_at 7%nat.
    apply le_unsigned. exact Hsid. }
  assert (E3 : load_u (12 + 16) 4 data = rpt).
  { unfold load_u, data, snapshot_packet_pieces. piece_at 8%nat.
    apply le_unsigned. exact Hrpt. }
  assert (En : load_u (12 + 30) 1 data = Z.of_nat (length es)).
  { unfold load_u, data, snapshot_packet_pieces. piece_at 11%nat.
    apply le_unsigned. change (256 ^ Z.of_nat 1) with 256. lia. }
  assert (Ed : drop (12 + 31) data
               = concat (List.map (fun e => concat (snap_entry_pieces e)) es) ++ junk).
  { unfold data. rewrite (drop_pieces _ 12)
      by (unfold snapshot_packet_pieces; piece_sizes).
    unfold snapshot_packet_pieces. cbn [drop concat]. rewrite app_nil_r. reflexivity. }
  assert (Sz : Z.to_nat (calcSnapshotSize (Z.of_nat (length es)))
               = (31 + 16 * length es)%nat).
  { unfold calcSnapshotSize, sizeof_MDSnapshotFullRefresh, sizeof_SBEMessageHeader,
      sizeof_GroupHeader, sizeof_MDSnapshotEntry. lia. }
  eapply returns_bind; [|apply returns_ret].
  assert (M : SnapshotFullRefreshMsg last sid rpt es
              = SnapshotFullRefreshMsg (load_u (12 + 8) 4 data) (load_u (12 + 12) 4 data)
                                       (load_u (12 + 16) 4 data) es)
    by (rewrite E1, E2, E3; reflexivity).
  rewrite M.
  apply (snapshot_loop_refresh _ _ 12 data (Z.of_nat (length es)) es []).
  - lia.
  - exact Et.
  - exact En.
  - rewrite Sz. lia.
  - rewrite Nat2Z.id. apply (read_snap_entries_returns es _ data junk Ed Hwf).
  - apply snapshot_loop_end. rewrite Sz. lia.
Qed.

Lemma snapshot_entries_wf (b : SimulatedBook) :
  length (sb_bids b) = 5%nat -> length (sb_asks b) = 5%nat ->
  Forall wf_level (sb_bids b) -> Forall wf_level (sb_asks b) ->
  Forall wf_snap (snapshot_entries b).
Proof.
  intros Hb Ha Wb Wa. unfold snapshot_entries.
  assert (G : forall ty ls, is_u8 ty -> length ls = 5%nat -> Forall wf_level ls ->
                Forall wf_snap
                  (imap (fun i l => mkSnap (lv_price l) (lv_quantity l) ty
                                           (Z.of_nat i + 1) (lv_order_count l)) ls)).
  { intros ty ls Hty Hl Hw. apply Forall_lookup. intros i e Hi.
    rewrite list_lookup_imap in Hi.
    destruct (ls !! i) as [l|] eqn:El; [|discriminate Hi].
    cbn in Hi. inversion Hi; subst e. clear Hi.
    pose proof (lookup_lt_Some _ _ _ El) as Hlt. rewrite Hl in Hlt.
    destruct (proj1 (Forall_lookup _ _) Hw i l El) as (W1 & W2 & W3).
    unfold wf_snap, is_i64, is_i32, is_u8 in *.
    cbn [snap_md_entry_px snap_md_entry_size snap_md_entry_type snap_md_price_level
         snap_number_of_orders].
    lia. }
  apply Forall_app. split; apply G; try assumption; unfold is_u8, Bid, Offer; lia.
Qed.

Lemma snapshot_packet_parses (sim : CmeSimulator) (b : SimulatedBook) (junk : list Z) :
  (203 <= length (sim_send_buffer_ sim))%nat ->
  length (sb_bids b) = 5%nat -> length (sb_asks b) = 5%nat ->
  Forall wf_level (sb_bids b) -> Forall wf_level (sb_asks b) ->
  is_u32 (sb_security_id b) -> is_u32 (sb_rpt_seq b) -> is_u32 (incr_packet_seq_ sim) ->
  length (fst (sendSnapshotPacket b sim)) = 203%nat /\
  fst (Parser.run (parseSnapshotPacket 203) (fst (sendSnapshotPacket b sim) ++ junk))
  = Some [SnapshotFullRefreshMsg (incr_packet_seq_ sim) (sb_security_id b) (sb_rpt_seq b)
                                 (snapshot_entries b)].
Proof.
  intros Hbuf Hb Ha Wb Wa Hsid Hrpt Hincr.
  rewrite (sendSnapshotPacket_image b sim Hbuf Hb Ha).
  pose proof (length_snapshot_entries b Hb Ha) as Ln.
  pose proof (parse_snapshot_image (u32 (snap_packet_seq_ sim + 1)) (hd 0 (sim_clock_ sim))
                (incr_packet_seq_ sim) (sb_security_id b) (sb_rpt_seq b)
                (snapshot_entries b) junk Hincr Hsid Hrpt ltac:(lia)
                (snapshot_entries_wf b Hb Ha Wb Wa) []) as P.
  rewrite Ln in P. change (43 + 16 * 10)%nat with 203%nat in P.
  split; [|exact P].
  unfold snapshot_packet_pieces. cbn [concat].
  rewrite !length_app, !length_le_bytes, length_snap_entries, Ln. reflexivity.
Qed.

(** X27: the handler reads the simulator's snapshots. For a book with
    five levels a side whose fields are of their wire types, the
    datagram built by [sendSnapshotPacket] has 203 bytes and parses on
    the snapshot channel to one snapshot message carrying the
    simulator's incremental packet sequence, the book's id and report
    sequence, and ten entries: the five bids at levels 1 to 5, then the
    five asks at levels 1 to 5, with the prices, quantities and order
    counts of the book. *)
Theorem X27_simulator_snapshot_round_trip
    (sim : CmeSimulator) (b : SimulatedBook) (junk : list Z) :
  (203 <= length (sim_send_buffer_ sim))%nat ->
  length (sb_bids b) = 5%nat -> length (sb_asks b) = 5%nat ->
  Forall wf_level (sb_bids b) -> Forall wf_level (sb_asks b) ->
  is_u32 (sb_security_id b) -> is_u32 (sb_rpt_seq b) -> is_u32 (incr_packet_seq_ sim) ->
  let dgram := fst (sendSnapshotPacket b sim) in
  length dgram = 203%nat /\
  snap_packet_seq_ (snd (sendSnapshotPacket b sim)) = u32 (snap_packet_seq_ sim + 1) /\
  fst (Parser.run (parseSnapshotPacket (length dgram)) (dgram ++ junk))
  = Some [SnapshotFullRefreshMsg (incr_packet_seq_ sim) (sb_security_id b) (sb_rpt_seq b)
                                 (snapshot_entries b)].
Proof.
  intros Hbuf Hb Ha Wb Wa Hsid Hrpt Hincr dgram. subst dgram.
  destruct (snapshot_packet_parses sim b junk Hbuf Hb Ha Wb Wa Hsid Hrpt Hincr) as [L P].
  rewrite L. split; [reflexivity|]. split; [|exact P].
  unfold sendSnapshotPacket, Simulator.getCurrentTimeNs. reflexivity.
Qed.

(** X27 on the example book. *)
Lemma X27_simulator_snapshot_witness :
  ((203 <= length (sim_send_buffer_ sim_example))%nat /\
   length (sb_bids book_example) = 5%nat /\ length (sb_asks book_example) = 5%nat /\
   Forall wf_level (sb_bids book_example) /\ Forall wf_level (sb_asks book_example) /\
   is_u32 (sb_security_id book_example) /\ is_u32 (sb_rpt_seq book_example) /\
   is_u32 (incr_packet_seq_ sim_example)) /\
  length (fst (sendSnapshotPacket book_example sim_example)) = 203%nat.
Proof.
  assert (H1 : (203 <= length (sim_send_buffer_ sim_example))%nat)
    by (apply Nat.leb_le; vm_compute; reflexivity).
  assert (H2 : length (sb_bids book_example) = 5%nat) by (vm_compute; reflexivity).
  assert (H3 : length (sb_asks book_example) = 5%nat) by (vm_compute; reflexivity).
  assert (H4 : Forall wf_level (sb_bids book_example)) by (repeat constructor; by_eval).
  assert (H5 : Forall wf_level (sb_asks book_example)) by (repeat constructor; by_eval).
  assert (H6 : is_u32 (sb_security_id book_example)) by by_eval.
  assert (H7 : is_u32 (sb_rpt_seq book_example)) by by_eval.
  assert (H8 : is_u32 (incr_packet_seq_ sim_example)) by by_eval.
  split; [exact (conj H1 (conj H2 (conj H3 (conj H4 (conj H5 (conj H6 (conj H7 H8)))))))|].
  exact (proj1 (X27_simulator_snapshot_round_trip sim_example book_example []
                  H1 H2 H3 H4 H5 H6 H7 H8)).
Defined.

Lemma applySnapshot_simulator (b : SimulatedBook) (old : OrderBook.CmeOrderBook) :
  length (sb_bids b) = 5%nat -> length (sb_asks b) = 5%nat ->
  length (OrderBook.bids_ old) = 10%nat -> length (OrderBook.asks_ old) = 10%nat ->
  OrderBook.applySnapshot (snapshot_entries b) 10 old
  = OrderBook.mkBook (OrderBook.security_id_ old) (OrderBook.last_rpt_seq_ old)
                     (sim_ladder (sb_bids b)) (sim_ladder (sb_asks b)) 5 5
                     (OrderBook.last_trade_price_ old) (OrderBook.last_trade_qty_ old)
                     (OrderBook.total_volume_ old).
Proof.
  intros Hb Ha Lb La. unfold snapshot_entries, sim_ladder.
  destruct (sb_bids b) as [|b0 [|b1 [|b2 [|b3 [|b4 [|? ?]]]]]]; try discriminate Hb.
  destruct (sb_asks b) as [|a0 [|a1 [|a2 [|a3 [|a4 [|? ?]]]]]]; try discriminate Ha.
  destruct old as [sid lrs obids oasks bc ac ltp ltq tv]. cbn in Lb, La.
  destruct obids as [|x0 [|x1 [|x2 [|x3 [|x4 [|x5 [|x6 [|x7 [|x8 [|x9 [|? ?]]]]]]]]]]];
    try discriminate Lb.
  destruct oasks as [|y0 [|y1 [|y2 [|y3 [|y4 [|y5 [|y6 [|y7 [|y8 [|y9 [|? ?]]]]]]]]]]];
    try discriminate La.
  reflexivity.
Qed.

(** X28: recovery from a simulator snapshot reproduces the simulator's
    book. When the instrument is in GapDetected and the handler
    processes the snapshot datagram the simulator builds for it, the
    instrument is back in Normal expecting the sequence after the
    book's, and the handler's book holds, on each side, the simulator's
    five levels in its first five slots (price, quantity and order
    count unchanged), empty slots behind them and a count of 5; its
    [last_rpt_seq_] is the book's sequence and the instrument is marked
    dirty. *)
Theorem X28_recovery_from_simulator_snapshot
    (sim : CmeSimulator) (b : SimulatedBook) (junk : list Z) (fh : CmeFeedHandler)
    (st : SecurityRecoveryState) :
  (203 <= length (sim_send_buffer_ sim))%nat ->
  length (sb_bids b) = 5%nat -> length (sb_asks b) = 5%nat ->
  Forall wf_level (sb_bids b) -> Forall wf_level (sb_asks b) ->
  is_u32 (sb_security_id b) -> is_u32 (sb_rpt_seq b) -> is_u32 (incr_packet_seq_ sim) ->
  states_ (recovery_manager_ fh) !! sb_security_id b = Some st ->
  state st = GapDetected ->
  BookProps.book_shape (book_of (sb_security_id b) (book_manager_ fh)) ->
  let dgram := fst (sendSnapshotPacket b sim) in
  let fh' := processSnapshotPacket (dgram ++ junk) (length dgram) fh in
  getState (sb_security_id b) (recovery_manager_ fh') = Normal /\
  getExpectedRptSeq (sb_security_id b) (recovery_manager_ fh') = u32 (sb_rpt_seq b + 1) /\
  sb_security_id b ∈ dirty_securities_ (book_manager_ fh') /\
  exists book,
    books_ (book_manager_ fh') !! sb_security_id b = Some book /\
    OrderBook.bids_ book = sim_ladder (sb_bids b) /\
    OrderBook.asks_ book = sim_ladder (sb_asks b) /\
    OrderBook.bid_count_ book = 5 /\ OrderBook.ask_count_ book = 5 /\
    OrderBook.last_rpt_seq_ book = sb_rpt_seq b.
Proof.
  intros Hbuf Hb Ha Wb Wa Hsid Hrpt Hincr Hst Hg (Lb & La & _) dgram fh'.
  destruct (snapshot_packet_parses sim b junk Hbuf Hb Ha Wb Wa Hsid Hrpt Hincr) as [L P].
  subst fh' dgram. unfold processSnapshotPacket. rewrite L, P. cbn [foldl dispatch].
  set (sid := sb_security_id b) in *. set (rpt := sb_rpt_seq b) in *.
  assert (E : onSnapshotMessage sid rpt (incr_packet_seq_ sim) (recovery_manager_ fh)
              = (true,
                 mkRM (<[sid := mkSRS Recovering (expected_rpt_seq st) (last_good_rpt_seq st)
                                      rpt (gap_detected_time st) (recovery_attempts st)
                                      (buffered_updates st)]>
                         (states_ (recovery_manager_ fh)))
                      (Recovery.stats_ (recovery_manager_ fh)))).
  { unfold onSnapshotMessage. rewrite Hst, Hg. reflexivity. }
  destruct (snapshot_applied (incr_packet_seq_ sim) sid rpt (snapshot_entries b) fh _ E)
    as (R & B & D & _).
  rewrite R, B, D. unfold getState, getExpectedRptSeq, completeRecovery.
  cbn [states_]. rewrite lookup_insert_eq. cbn [states_]. rewrite lookup_insert_eq.
  cbn [state expected_rpt_seq].
  split; [reflexivity|]. split; [reflexivity|].
  split; [apply elem_of_union; left; apply elem_of_singleton; reflexivity|].
  eexists. split; [reflexivity|].
  rewrite (length_snapshot_entries b Hb Ha). change (Z.of_nat 10) with 10.
  rewrite (applySnapshot_simulator b _ Hb Ha Lb La). cbn. auto.
Qed.

(** X28 on the handler in which instrument 1001 has a gap. *)
Lemma X28_recovery_from_simulator_witness :
  ((203 <= length (sim_send_buffer_ sim_example))%nat /\
   length (sb_bids book_example) = 5%nat /\ length (sb_asks book_example) = 5%nat /\
   Forall wf_level (sb_bids book_example) /\ Forall wf_level (sb_asks book_example) /\
   is_u32 (sb_security_id book_example) /\ is_u32 (sb_rpt_seq book_example) /\
   is_u32 (incr_packet_seq_ sim_example) /\
   states_ (recovery_manager_ fh_gap) !! sb_security_id book_example
   = Some (mkSRS GapDetected 2 1 0 0 1 []) /\
   state (mkSRS GapDetected 2 1 0 0 1 []) = GapDetected /\
   BookProps.book_shape (book_of (sb_security_id book_example) (book_manager_ fh_gap))) /\
  getState (sb_security_id book_example)
    (recovery_manager_
       (processSnapshotPacket (fst (sendSnapshotPacket book_example sim_example) ++ [])
          (length (fst (sendSnapshotPacket book_example sim_example))) fh_gap))
  = Normal.
Proof.
  assert (H1 : (203 <= length (sim_send_buffer_ sim_example))%nat)
    by (apply Nat.leb_le; vm_compute; reflexivity).
  assert (H2 : length (sb_bids book_example) = 5%nat) by (vm_compute; reflexivity).
  assert (H3 : length (sb_asks book_example) = 5%nat) by (vm_compute; reflexivity).
  assert (H4 : Forall wf_level (sb_bids book_example)) by (repeat constructor; by_eval).
  assert (H5 : Forall wf_level (sb_asks book_example)) by (repeat constructor; by_eval).
  assert (H6 : is_u32 (sb_security_id book_example)) by by_eval.
  assert (H7 : is_u32 (sb_rpt_seq book_example)) by by_eval.
  assert (H8 : is_u32 (incr_packet_seq_ sim_example)) by by_eval.
  assert (H9 : states_ (recovery_manager_ fh_gap) !! sb_security_id book_example
               = Some (mkSRS GapDetected 2 1 0 0 1 [])) by (vm_compute; reflexivity).
  assert (H10 : BookProps.book_shape
                  (book_of (sb_security_id book_example) (book_manager_ fh_gap)))
    by by_eval.
  split; [exact (conj H1 (conj H2 (conj H3 (conj H4 (conj H5 (conj H6 (conj H7 (conj H8
                   (conj H9 (conj eq_refl H10))))))))))|].
  exact (proj1 (X28_recovery_from_simulator_snapshot sim_example book_example [] fh_gap _
                  H1 H2 H3 H4 H5 H6 H7 H8 H9 eq_refl H10)).
Defined.

(** X29: a simulated book starts orderly and uncrossed. For a positive
    tick and a mid price at least five ticks inside the 64-bit range,
    [initialize] gives each side five levels: bid [i] is [i + 1] ticks
    below the mid and ask [i] as far above it, so bid prices fall
    strictly and ask prices rise strictly with the level and the best
    bid is below the mid, the best ask above it. Quantities are
    150, 125, 100, 75, 50 and order counts 13, 11, 9, 7, 5 from the best
    level out, and every level is of its wire types. *)
Theorem X29_initialize_orderly (mid tick : Z) (b : SimulatedBook) :
  0 < tick -> is_i64 (mid - 5 * tick) -> is_i64 (mid + 5 * tick) ->
  let b' := initialize mid tick b in
  (forall i, (i < 5)%nat ->
     sb_bids b' !! i = Some (mkSimLevel (mid - (Z.of_nat i + 1) * tick)
                                        (150 - 25 * Z.of_nat i) (13 - 2 * Z.of_nat i)) /\
     sb_asks b' !! i = Some (mkSimLevel (mid + (Z.of_nat i + 1) * tick)
                                        (150 - 25 * Z.of_nat i) (13 - 2 * Z.of_nat i))) /\
  length (sb_bids b') = 5%nat /\ length (sb_asks b') = 5%nat /\
  Forall wf_level (sb_bids b') /\ Forall wf_level (sb_asks b') /\
  sb_security_id b' = sb_security_id b /\ sb_rpt_seq b' = sb_rpt_seq b.
Proof.
  intros Ht Hlo Hhi b'. unfold is_i64 in Hlo, Hhi.
  assert (S1 : forall x, - 2 ^ 63 <= x < 2 ^ 63 -> i64 x = x).
  { intros x Hx. unfold i64, signed. change (2 ^ (64 - 1)) with (2 ^ 63).
    destruct (Z_lt_le_dec x 0) as [Neg|Pos].
    - rewrite <- (Z.mod_add x 1 (2 ^ 64)) by lia.
      rewrite Z.mod_small by lia.
      replace (x + 1 * 2 ^ 64 <? 2 ^ 63) with false by (symmetry; apply Z.ltb_ge; lia).
      lia.
    - rewrite Z.mod_small by lia.
      replace (x <? 2 ^ 63) with true by (symmetry; apply Z.ltb_lt; lia).
      reflexivity. }
  assert (Hm : - 2 ^ 63 <= mid < 2 ^ 63) by lia.
  assert (B : forall k, 0 <= k < 5 ->
                i64 (mid + -1 * i64 ((k + 1) * tick)) = mid - (k + 1) * tick /\
                i64 (mid + 1 * i64 ((k + 1) * tick)) = mid + (k + 1) * tick).
  { intros k Hk. rewrite (S1 ((k + 1) * tick)) by nia.
    split; rewrite S1; nia. }
  destruct (B 0 ltac:(lia)) as [B0 A0]. destruct (B 1 ltac:(lia)) as [B1 A1].
  destruct (B 2 ltac:(lia)) as [B2 A2]. destruct (B 3 ltac:(lia)) as [B3 A3].
  destruct (B 4 ltac:(lia)) as [B4 A4].
  subst b'. unfold initialize.
  cbn [sb_bids sb_asks sb_security_id sb_rpt_seq List.map].
  rewrite B0, B1, B2, B3, B4, A0, A1, A2, A3, A4.
  change (i32 (50 + (4 - 0) * 25)) with 150. change (i32 (50 + (4 - 1) * 25)) with 125.
  change (i32 (50 + (4 - 2) * 25)) with 100. change (i32 (50 + (4 - 3) * 25)) with 75.
  change (i32 (50 + (4 - 4) * 25)) with 50.
  change (u8 (5 + (4 - 0) * 2)) with 13. change (u8 (5 + (4 - 1) * 2)) with 11.
  change (u8 (5 + (4 - 2) * 2)) with 9. change (u8 (5 + (4 - 3) * 2)) with 7.
  change (u8 (5 + (4 - 4) * 2)) with 5.
  split.
  { intros i Hi.
    destruct i as [|[|[|[|[|i]]]]]; [| | | | |lia]; split; reflexivity. }
  split; [reflexivity|]. split; [reflexivity|].
  assert (W : forall p q c, - 2 ^ 63 <= p < 2 ^ 63 -> 0 <= q <= 150 -> 0 <= c <= 13 ->
                wf_level (mkSimLevel p q c)).
  { intros p q c Hp Hq Hc. unfold wf_level, is_i64, is_i32, is_u8. cbn. lia. }
  split; [repeat constructor; apply W; nia|].
  split; [repeat constructor; apply W; nia|].
  split; reflexivity.
Qed.

(** X29 on the example book's parameters. *)
Lemma X29_initialize_orderly_witness :
  0 < 2500000 /\ is_i64 (45000000000 - 5 * 2500000) /\
  is_i64 (45000000000 + 5 * 2500000) /\
  length (sb_bids (initialize 45000000000 2500000
                     (mkSimBook SECURITY_ID_ESH26 (cstr "ESH26") [] [] 0 0 7))) = 5%nat.
Proof.
  assert (H1 : 0 < 2500000) by lia.
  assert (H2 : is_i64 (45000000000 - 5 * 2500000)) by by_eval.
  assert (H3 : is_i64 (45000000000 + 5 * 2500000)) by by_eval.
  split; [exact H1|]. split; [exact H2|]. split; [exact H3|].
  exact (proj1 (proj2 (X29_initialize_orderly 45000000000 2500000
                         (mkSimBook SECURITY_ID_ESH26 (cstr "ESH26") [] [] 0 0 7)
                         H1 H2 H3))).
Defined.

End SimulatorExtras.
